(** * Clinic lead scraper: a shallow embedding of the extraction core

    The development follows the three scripts of the repository:
    [py.py] and [Scrap.py] (class [WebsiteScraper]) and [Scrapper.py]
    (class [ClinicProspectingAgent]).

    Python [str] values are lists of characters.  The model has 256
    characters: the ASCII characters, with their codes, and, as the codes
    128 to 255, the code points U+037C to U+03FB of the Greek and Coptic
    block.  On these characters [str.lower], [str.strip], the classes
    [\d], [\s] and [\w] and the comparison of letters under
    [re.IGNORECASE] are Python's; in particular [str.lower] turns a capital
    sigma into one of two small letters, depending on its neighbours.  The
    HTTP client and the HTML parser are parameters of the
    model: [requests_get] answers the n-th request of a run with a page
    source or with a failure, [BeautifulSoup] turns a page source into a
    tree. *)

From stdpp Require Import base list gmap.
From Stdlib Require Import Ascii Lia.

Abbreviation str := (list ascii).

Inductive astr := ANil | ACons (a : ascii) (s : astr).

Fixpoint astr_of_bytes (bs : list Byte.byte) : astr :=
  match bs with
  | [] => ANil
  | b :: r => ACons (ascii_of_byte b) (astr_of_bytes r)
  end.

Fixpoint bytes_of_astr (s : astr) : list Byte.byte :=
  match s with
  | ANil => []
  | ACons a r => byte_of_ascii a :: bytes_of_astr r
  end.

Declare Scope str_scope.
Delimit Scope str_scope with str.
#[warnings="-via-type-mismatch"]
String Notation list astr_of_bytes bytes_of_astr
  (via astr mapping [[nil] => ANil, [cons] => ACons]) : str_scope.
Open Scope str_scope.

(** ** Python string primitives *)

Module Str.

Definition code (c : ascii) : nat := nat_of_ascii c.

Definition between (lo hi : nat) (c : ascii) : bool :=
  (lo <=? code c) && (code c <=? hi).

Definition is_upper (c : ascii) : bool := between 65 90 c.
Definition is_lower (c : ascii) : bool := between 97 122 c.
Definition is_alpha (c : ascii) : bool := is_upper c || is_lower c.
Definition is_digit (c : ascii) : bool := between 48 57 c.

(** [str.isspace] on one character: TAB..CR, FS..US and the blank. *)
Definition is_space (c : ascii) : bool :=
  between 9 13 c || between 28 32 c.

Definition eqc (a b : ascii) : bool := Ascii.eqb a b.

(** The code point of a character, and the character of a code point of
    the model. *)
Definition code_point (c : ascii) : nat :=
  if code c <? 128 then code c else code c + 764.

Definition chr (cp : nat) : ascii :=
  if cp <? 128 then ascii_of_nat cp else ascii_of_nat (cp - 764).

(** The letters among U+037C..U+03FB: all but the two punctuation marks
    U+037E and U+0387, the two accents U+0384 and U+0385, the symbol U+03F6
    and the code points that are not assigned (U+0380..U+0383, U+038B,
    U+038D, U+03A2). *)
Definition is_greek_letter (c : ascii) : bool :=
  let cp := code_point c in
  (128 <=? code c) &&
  negb ((cp =? 894) || ((896 <=? cp) && (cp <=? 901)) || (cp =? 903) ||
        (cp =? 907) || (cp =? 909) || (cp =? 930) || (cp =? 1014)).

(** The class [\w]. *)
Definition is_word (c : ascii) : bool :=
  is_alpha c || is_digit c || (code c =? 95) || is_greek_letter c.

(** The lower-case letter of a capital of U+037C..U+03FB. *)
Definition lower_greek (c : ascii) : ascii :=
  let cp := code_point c in
  if cp =? 895 then chr 1011
  else if cp =? 902 then chr 940
  else if (904 <=? cp) && (cp <=? 906) then chr (cp + 37)
  else if cp =? 908 then chr 972
  else if (910 <=? cp) && (cp <=? 911) then chr (cp + 63)
  else if (913 <=? cp) && (cp <=? 939) && negb (cp =? 930) then chr (cp + 32)
  else if cp =? 975 then chr 983
  else if (984 <=? cp) && (cp <=? 1006) && Nat.even cp then chr (cp + 1)
  else if cp =? 1012 then chr 952
  else if cp =? 1015 then chr 1016
  else if cp =? 1017 then chr 1010
  else if cp =? 1018 then chr 1019
  else c.

(** The lower-case letter of one character, without its neighbours. *)
Definition lower_char (c : ascii) : ascii :=
  if is_upper c then ascii_of_nat (code c + 32)
  else if code c <? 128 then c
  else lower_greek c.

(** The capital sigma U+03A3 and the small letters U+03C3 and U+03C2 (the
    sigma that ends a word); the alphas U+0391 and U+03B1. *)
Definition capital_sigma : ascii := chr 931.
Definition small_sigma : ascii := chr 963.
Definition final_sigma : ascii := chr 962.
Definition capital_alpha : ascii := chr 913.
Definition small_alpha : ascii := chr 945.

(** The letter that stands for a character where [re.IGNORECASE] compares
    two characters: its lower-case letter, and for the final sigma and the
    symbol forms of beta, epsilon, theta, kappa, pi, rho and phi the plain
    small letter. *)
Definition fold_char (c : ascii) : ascii :=
  let l := lower_char c in
  let cp := code_point l in
  if code l <? 128 then l
  else if cp =? 962 then chr 963
  else if cp =? 976 then chr 946
  else if cp =? 1013 then chr 949
  else if cp =? 977 then chr 952
  else if cp =? 1008 then chr 954
  else if cp =? 982 then chr 960
  else if cp =? 1009 then chr 961
  else if cp =? 981 then chr 966
  else l.

(** How a character counts when [str.lower] looks at the neighbours of a
    capital sigma: a letter with case, a character that is passed over
    (the apostrophe, the full stop, the colon, the circumflex, the grave
    accent, U+0384, U+0385 and U+0387), or any other character. *)
Inductive casing := Cased | CaseIgnorable | Uncased.

Definition casing_of (c : ascii) : casing :=
  let cp := code_point c in
  if is_alpha c || is_greek_letter c then Cased
  else if (cp =? 39) || (cp =? 46) || (cp =? 58) || (cp =? 94) || (cp =? 96) ||
          (cp =? 900) || (cp =? 901) || (cp =? 903)
  then CaseIgnorable
  else Uncased.

(** The first character of [s] that is not passed over is a letter with
    case. *)
Fixpoint cased_first (s : str) : bool :=
  match s with
  | [] => false
  | c :: t =>
      match casing_of c with
      | Cased => true
      | CaseIgnorable => cased_first t
      | Uncased => false
      end
  end.

(** [s.lower()] from a position on; [before] holds the characters before
    it, the nearest first.  A capital sigma becomes the final sigma when a
    letter with case comes before it and none comes after it, characters
    that are passed over apart; every other character has its own
    lower-case letter. *)
Fixpoint lower_from (before s : str) : str :=
  match s with
  | [] => []
  | c :: t =>
      (if eqc c capital_sigma
       then if cased_first before && negb (cased_first t)
            then final_sigma else small_sigma
       else lower_char c) :: lower_from (c :: before) t
  end.

(** [s.lower()] *)
Definition lower (s : str) : str := lower_from [] s.

(** [c in s] for one character *)
Definition has (c : ascii) (s : str) : bool := existsb (eqc c) s.

(** One of the two small sigmas. *)
Definition is_small_sigma (c : ascii) : bool :=
  eqc c small_sigma || eqc c final_sigma.

(** The string holds neither small sigma. *)
Definition sigma_free (s : str) : bool :=
  forallb (fun c => negb (is_small_sigma c)) s.

(** The same character, or a small sigma on both sides. *)
Definition alike (a b : ascii) : Prop :=
  a = b \/ (is_small_sigma a = true /\ is_small_sigma b = true).

(** [s.startswith(p)] *)
Fixpoint startswith (p s : str) : bool :=
  match p, s with
  | [], _ => true
  | _ :: _, [] => false
  | a :: p', b :: s' => eqc a b && startswith p' s'
  end.

(** [needle in hay] *)
Fixpoint contains (needle hay : str) : bool :=
  startswith needle hay ||
  match hay with
  | [] => false
  | _ :: t => contains needle t
  end.

Fixpoint lstrip (s : str) : str :=
  match s with
  | [] => []
  | c :: t => if is_space c then lstrip t else s
  end.

Definition rstrip (s : str) : str := rev (lstrip (rev s)).

(** [s.strip()] *)
Definition strip (s : str) : str := lstrip (rstrip s).

(** [s[a:b]] for [0 <= a], [0 <= b] *)
Definition slice (s : str) (a b : nat) : str := take (b - a) (drop a s).

(** [s.replace(old, new)] for a non-empty [old]: occurrences are found left
    to right and do not overlap.  [skip] counts the characters of the
    occurrence being replaced that are still to be dropped. *)
Fixpoint replace_from (old new s : str) (skip : nat) : str :=
  match s with
  | [] => []
  | c :: t =>
      match skip with
      | S n => replace_from old new t n
      | 0 =>
          if startswith old s
          then new ++ replace_from old new t (length old - 1)
          else c :: replace_from old new t 0
      end
  end.

Definition replace (s old new : str) : str := replace_from old new s 0.

(** [sep.join(parts)] *)
Fixpoint join (sep : str) (parts : list str) : str :=
  match parts with
  | [] => []
  | [p] => p
  | p :: ps => p ++ sep ++ join sep ps
  end.

(** [s.split(sep)[0]] for a one-character separator *)
Fixpoint before_sep (sep : ascii) (s : str) : str :=
  match s with
  | [] => []
  | c :: t => if eqc c sep then [] else c :: before_sep sep t
  end.

(** [needle] occurs in [hay] as a run of consecutive characters. *)
Definition substring (needle hay : str) : Prop :=
  exists before after, hay = before ++ needle ++ after.

(** Truth value of a string: non-empty. *)
Definition truthy (s : str) : bool :=
  match s with [] => false | _ :: _ => true end.

End Str.

(** ** The regular expressions of module [re]

    A backtracking matcher in continuation-passing style with the priorities
    of Python's engine: alternatives left to right, greedy repetition, the
    leftmost start position for [re.search]. *)

Module Re.

Inductive regex :=
| Eps
| Set_ (p : ascii -> bool)
| Cat (r1 r2 : regex)
| Alt (r1 r2 : regex)
| Star (r : regex)
| Group (n : nat) (r : regex)
| WordB.

Record mstate := MState {
  prev : option ascii;
  rest : str;
  caps : list (nat * str)
}.

(** The characters consumed between two matcher states. *)
Definition consumed (st st' : mstate) : str :=
  take (length (rest st) - length (rest st')) (rest st).

Definition set_cap (n : nat) (s : str) (st : mstate) : mstate :=
  MState (prev st) (rest st) ((n, s) :: caps st).

Definition word_before (st : mstate) : bool :=
  match prev st with Some c => Str.is_word c | None => false end.

Definition word_after (st : mstate) : bool :=
  match rest st with c :: _ => Str.is_word c | [] => false end.

Definition word_boundary (st : mstate) : bool :=
  xorb (word_before st) (word_after st).

Definition advances (st st' : mstate) : bool :=
  length (rest st') <? length (rest st).

Fixpoint rmatch (r : regex) (st : mstate) (k : mstate -> option mstate)
  {struct r} : option mstate :=
  match r with
  | Eps => k st
  | Set_ p =>
      match rest st with
      | c :: t => if p c then k (MState (Some c) t (caps st)) else None
      | [] => None
      end
  | Cat r1 r2 => rmatch r1 st (fun st1 => rmatch r2 st1 k)
  | Alt r1 r2 =>
      match rmatch r1 st k with
      | Some res => Some res
      | None => rmatch r2 st k
      end
  | Star r1 =>
      (fix loop (fuel : nat) (st0 : mstate) {struct fuel} : option mstate :=
         match fuel with
         | 0 => k st0
         | S fuel' =>
             match rmatch r1 st0
                     (fun st1 => if advances st0 st1 then loop fuel' st1
                                 else None) with
             | Some res => Some res
             | None => k st0
             end
         end) (length (rest st)) st
  | Group n r1 =>
      rmatch r1 st (fun st1 => k (set_cap n (consumed st st1) st1))
  | WordB => if word_boundary st then k st else None
  end.

(** Pattern syntax on top of the core. *)
Definition Chr (c : ascii) : regex := Set_ (Str.eqc c).
Definition ChrI (c : ascii) : regex :=
  Set_ (fun x => Str.eqc (Str.fold_char c) (Str.fold_char x)).
Definition Plus (r : regex) : regex := Cat r (Star r).
Definition Opt (r : regex) : regex := Alt r Eps.

Fixpoint Rep (n : nat) (r : regex) : regex :=
  match n with
  | 0 => Eps
  | S n' => Cat r (Rep n' r)
  end.

Definition AtLeast (n : nat) (r : regex) : regex := Cat (Rep n r) (Star r).

Fixpoint Lit (s : str) : regex :=
  match s with
  | [] => Eps
  | c :: t => Cat (Chr c) (Lit t)
  end.

Fixpoint LitI (s : str) : regex :=
  match s with
  | [] => Eps
  | c :: t => Cat (ChrI c) (LitI t)
  end.

Fixpoint Seq (rs : list regex) : regex :=
  match rs with
  | [] => Eps
  | [r] => r
  | r :: rs' => Cat r (Seq rs')
  end.

Fixpoint Alts (rs : list regex) (last : regex) : regex :=
  match rs with
  | [] => last
  | r :: rs' => Alt r (Alts rs' last)
  end.

Definition OneOf (s : str) : regex :=
  Set_ (fun c => existsb (Str.eqc c) s).

Definition digit : regex := Set_ Str.is_digit.
Definition space : regex := Set_ Str.is_space.
Definition upper : regex := Set_ Str.is_upper.
Definition lower_ : regex := Set_ Str.is_lower.

(** A match object: [start()], [end()] and the groups. *)
Record match_obj := Match {
  m_start : nat;
  m_end : nat;
  m_groups : list (nat * str)
}.

Fixpoint lookup_group (n : nat) (gs : list (nat * str)) : option str :=
  match gs with
  | [] => None
  | (i, s) :: gs' => if i =? n then Some s else lookup_group n gs'
  end.

(** [m.group(0)] on the text that was searched *)
Definition group0 (text : str) (m : match_obj) : str :=
  Str.slice text (m_start m) (m_end m).

(** [m.group(n)] for [n >= 1]; a group that took no part in the match
    reads as the empty string here. *)
Definition group (n : nat) (m : match_obj) : str :=
  default [] (lookup_group n (m_groups m)).

(** One attempt at the current position. *)
Definition match_here (r : regex) (p : option ascii) (s : str)
  : option mstate :=
  rmatch r (MState p s []) Some.

(** [re.search]: attempts at successive positions. *)
Fixpoint search_from (r : regex) (p : option ascii) (s : str) (pos : nat)
  : option match_obj :=
  match match_here r p s with
  | Some st' =>
      Some (Match pos (pos + (length s - length (rest st'))) (caps st'))
  | None =>
      match s with
      | [] => None
      | c :: t => search_from r (Some c) t (S pos)
      end
  end.

Definition search (r : regex) (s : str) : option match_obj :=
  search_from r None s 0.

(** [re.match]: one attempt at position 0. *)
Definition match_ (r : regex) (s : str) : option match_obj :=
  match match_here r None s with
  | Some st' => Some (Match 0 (length s - length (rest st')) (caps st'))
  | None => None
  end.

(** An attempt that has to consume at least one character. *)
Definition match_nonempty (r : regex) (p : option ascii) (s : str)
  : option nat :=
  let st := MState p s [] in
  match rmatch r st (fun st' => if advances st st' then Some st' else None)
  with
  | Some st' => Some (length s - length (rest st'))
  | None => None
  end.

(** [re.findall] for a pattern without capturing groups, and [re.sub] with
    a constant replacement.  The scraper's patterns all consume at least
    one character, so only non-empty matches are looked for.  [skip] counts
    the characters of the current match still to be passed over. *)
Fixpoint findall_from (r : regex) (p : option ascii) (s : str) (skip : nat)
  : list str :=
  match s with
  | [] => []
  | c :: t =>
      match skip with
      | S n => findall_from r (Some c) t n
      | 0 =>
          match match_nonempty r p s with
          | Some len => take len s :: findall_from r (Some c) t (len - 1)
          | None => findall_from r (Some c) t 0
          end
      end
  end.

Definition findall (r : regex) (s : str) : list str :=
  findall_from r None s 0.

Fixpoint sub_from (r : regex) (repl : str) (p : option ascii) (s : str)
  (skip : nat) : str :=
  match s with
  | [] => []
  | c :: t =>
      match skip with
      | S n => sub_from r repl (Some c) t n
      | 0 =>
          match match_nonempty r p s with
          | Some len => repl ++ sub_from r repl (Some c) t (len - 1)
          | None => c :: sub_from r repl (Some c) t 0
          end
      end
  end.

Definition sub (r : regex) (repl s : str) : str :=
  sub_from r repl None s 0.

End Re.

(** ** What a pattern denotes

    [steps r st st'] relates the matcher states before and after one pass
    through [r]; the matcher is compared with it below. *)

Module ReSem.
Import Re.

(** The matcher states that one pass through [r] can connect. *)
Fixpoint steps (r : regex) (st st' : mstate) : Prop :=
  match r with
  | Eps => st' = st
  | Set_ p =>
      exists c, rest st = c :: rest st' /\ p c = true /\
        prev st' = Some c /\ caps st' = caps st
  | Cat r1 r2 => exists mid, steps r1 st mid /\ steps r2 mid st'
  | Alt r1 r2 => steps r1 st st' \/ steps r2 st st'
  | Star r1 => rtc (steps r1) st st'
  | Group n r1 =>
      exists mid, steps r1 st mid /\ st' = set_cap n (consumed st mid) mid
  | WordB => st' = st /\ word_boundary st = true
  end.

(** The pattern has no capturing group. *)
Fixpoint groupless (r : regex) : bool :=
  match r with
  | Eps | Set_ _ | WordB => true
  | Cat r1 r2 | Alt r1 r2 => groupless r1 && groupless r2
  | Star r1 => groupless r1
  | Group _ _ => false
  end.

(** The pattern cannot match the empty string. *)
Fixpoint consuming (r : regex) : bool :=
  match r with
  | Set_ _ => true
  | Cat r1 r2 => consuming r1 || consuming r2
  | Alt r1 r2 => consuming r1 && consuming r2
  | Group _ r1 => consuming r1
  | Eps | Star _ | WordB => false
  end.

(** Every repeated sub-pattern consumes at least one character. *)
Fixpoint well_formed (r : regex) : bool :=
  match r with
  | Eps | Set_ _ | WordB => true
  | Cat r1 r2 | Alt r1 r2 => well_formed r1 && well_formed r2
  | Star r1 => consuming r1 && well_formed r1
  | Group _ r1 => well_formed r1
  end.

End ReSem.

(** ** The parse tree of BeautifulSoup *)

Module Bs.

#[warnings="-register-all"]
Inductive node :=
| NavigableString (s : str)
| Comment (s : str)
| Tag (name : str) (attrs : list (str * str)) (contents : list node).

(** Induction on a tree with the hypothesis for every child. *)
Fixpoint node_nested_ind (P : node -> Prop)
  (Hstr : forall s, P (NavigableString s))
  (Hcom : forall s, P (Comment s))
  (Htag : forall name attrs cs, Forall P cs -> P (Tag name attrs cs))
  (n : node) {struct n} : P n :=
  match n with
  | NavigableString s => Hstr s
  | Comment s => Hcom s
  | Tag name attrs cs =>
      Htag name attrs cs
        ((fix all (l : list node) : Forall P l :=
            match l with
            | [] => List.Forall_nil P
            | c :: l0 => @List.Forall_cons _ P c l0 (node_nested_ind P Hstr Hcom Htag c) (all l0)
            end) cs)
  end.

(** [tag.get_text()]: the text strings below the node, in document order;
    comments are left out. *)
Fixpoint get_text (n : node) : str :=
  match n with
  | NavigableString s => s
  | Comment _ => []
  | Tag _ _ cs => flat_map get_text cs
  end.

(** The node and everything below it, in document order. *)
Fixpoint self_and_descendants (n : node) : list node :=
  match n with
  | Tag _ _ cs => n :: flat_map self_and_descendants cs
  | _ => [n]
  end.

Definition contents (n : node) : list node :=
  match n with
  | Tag _ _ cs => cs
  | _ => []
  end.

(** [tag.descendants] *)
Definition descendants (n : node) : list node :=
  flat_map self_and_descendants (contents n).

Definition tag_name (n : node) : option str :=
  match n with
  | Tag name _ _ => Some name
  | _ => None
  end.

Fixpoint assoc (key : str) (kvs : list (str * str)) : option str :=
  match kvs with
  | [] => None
  | (k, v) :: kvs' =>
      if bool_decide (k = key) then Some v else assoc key kvs'
  end.

(** [tag.get(key)] *)
Definition get (key : str) (n : node) : option str :=
  match n with
  | Tag _ attrs _ => assoc key attrs
  | _ => None
  end.

Definition name_in (names : list str) (n : node) : bool :=
  match tag_name n with
  | Some name => bool_decide (name ∈ names)
  | None => false
  end.

(** [soup.find_all(names)] *)
Definition find_all (names : list str) (root : node) : list node :=
  List.filter (name_in names) (descendants root).

(** [soup.find_all(names, key=f)]: [f] receives the attribute value, or
    [None] when the tag has no such attribute.  For [class_] the value is
    the attribute text; the scraper's predicates ask whether a keyword
    without blanks occurs in it, which is the same on the text and on its
    blank-separated parts. *)
Definition find_all_attr (names : list str) (key : str)
  (f : option str -> bool) (root : node) : list node :=
  List.filter (fun n => name_in names n && f (get key n)) (descendants root).

(** [soup.find(name)] *)
Definition find (name : str) (root : node) : option node :=
  head (find_all [name] root).

(** [tag.string] *)
Fixpoint string_ (n : node) : option str :=
  match n with
  | NavigableString s => Some s
  | Comment s => Some s
  | Tag _ _ [c] => string_ c
  | Tag _ _ _ => None
  end.

End Bs.

(** ** py.py: class WebsiteScraper *)

Module Py.

Record ClinicRecord := Clinic {
  clinic_name : str;
  provider_name : str;
  credentials : str;
  website_url : str;
  city_state : str;
  contact_info : str;
  website_provider : option str
}.

Definition set_clinic_name (v : str) (d : ClinicRecord) : ClinicRecord :=
  Clinic v (provider_name d) (credentials d) (website_url d) (city_state d)
    (contact_info d) (website_provider d).

Definition set_provider_name (v : str) (d : ClinicRecord) : ClinicRecord :=
  Clinic (clinic_name d) v (credentials d) (website_url d) (city_state d)
    (contact_info d) (website_provider d).

Definition set_credentials (v : str) (d : ClinicRecord) : ClinicRecord :=
  Clinic (clinic_name d) (provider_name d) v (website_url d) (city_state d)
    (contact_info d) (website_provider d).

Definition set_city_state (v : str) (d : ClinicRecord) : ClinicRecord :=
  Clinic (clinic_name d) (provider_name d) (credentials d) (website_url d) v
    (contact_info d) (website_provider d).

Definition set_contact_info (v : str) (d : ClinicRecord) : ClinicRecord :=
  Clinic (clinic_name d) (provider_name d) (credentials d) (website_url d)
    (city_state d) v (website_provider d).

(** The two fields that identify the site are the same in both records. *)
Definition same_site (d d' : ClinicRecord) : Prop :=
  website_url d' = website_url d /\ website_provider d' = website_provider d.

(** *** The patterns of [extract_clinic_data] *)

(** Line 138: the word Home, blanks, a bar, blanks (group 1); or blanks, a
    bar, blanks, the word Home (group 2). *)
Definition home_pattern : Re.regex :=
  Re.Alt
    (Re.Group 1 (Re.Seq [Re.Lit "Home"; Re.Star Re.space; Re.Chr "|";
                         Re.Star Re.space]))
    (Re.Group 2 (Re.Seq [Re.Star Re.space; Re.Chr "|"; Re.Star Re.space;
                         Re.Lit "Home"])).

(** [r'\s*\|\s*' + re.escape(comp)] under [re.IGNORECASE] *)
Definition competitor_suffix_pattern (comp : str) : Re.regex :=
  Re.Seq [Re.Star Re.space; Re.Chr "|"; Re.Star Re.space; Re.LitI comp].

(** [[A-Z][a-z]+\s+[A-Z][a-z]+] *)
Definition first_last : Re.regex :=
  Re.Seq [Re.upper; Re.Plus Re.lower_; Re.Plus Re.space; Re.upper;
          Re.Plus Re.lower_].

(** [(?:MD|DO|DDS|DMD|DC|DPM|DVM|VMD|PhD)] *)
Definition degree : Re.regex :=
  Re.Alts [Re.Lit "MD"; Re.Lit "DO"; Re.Lit "DDS"; Re.Lit "DMD"; Re.Lit "DC";
           Re.Lit "DPM"; Re.Lit "DVM"; Re.Lit "VMD"] (Re.Lit "PhD").

Definition doctor_patterns : list Re.regex :=
  [ Re.Seq [Re.Lit "Dr."; Re.Plus Re.space; Re.Group 1 first_last];
    Re.Seq [Re.Group 1 first_last; Re.Chr ","; Re.Plus Re.space; degree];
    Re.Seq [Re.Group 1 first_last; Re.Plus Re.space; degree] ].

(** [(MD|DO|DDS|DMD|DC|DPM|DVM|VMD|PhD|FACP|FACOG|FACS|FAAP|[A-Z\.]+)] *)
Definition credentials_pattern : Re.regex :=
  Re.Group 1
    (Re.Alts [Re.Lit "MD"; Re.Lit "DO"; Re.Lit "DDS"; Re.Lit "DMD";
              Re.Lit "DC"; Re.Lit "DPM"; Re.Lit "DVM"; Re.Lit "VMD";
              Re.Lit "PhD"; Re.Lit "FACP"; Re.Lit "FACOG"; Re.Lit "FACS";
              Re.Lit "FAAP"]
       (Re.Plus (Re.Set_ (fun c => Str.is_upper c || Str.eqc c ".")))).

(** [[a-zA-Z\s\.]] *)
Definition city_char (c : ascii) : bool :=
  Str.is_alpha c || Str.is_space c || Str.eqc c ".".

(** [([A-Z][a-zA-Z\s\.]+)] *)
Definition city_group : Re.regex :=
  Re.Group 1 (Re.Cat Re.upper (Re.Plus (Re.Set_ city_char))).

(** [([A-Z]{2})] *)
Definition state_group : Re.regex := Re.Group 2 (Re.Rep 2 Re.upper).

Definition city_state_zip_pattern : Re.regex :=
  Re.Seq [city_group; Re.Chr ","; Re.Star Re.space; state_group;
          Re.Star Re.space; Re.Rep 5 Re.digit].

Definition city_state_pattern : Re.regex :=
  Re.Seq [city_group; Re.Chr ","; Re.Star Re.space; state_group].

Definition city_state_patterns : list Re.regex :=
  [city_state_zip_pattern; city_state_pattern].

(** [[-.\s]] *)
Definition phone_sep : Re.regex :=
  Re.Set_ (fun c => Str.eqc c "-" || Str.eqc c "." || Str.is_space c).

(** [(?:\+?1[-.\s]?)?(?:\(?\d{3}\)?[-.\s]?)?\d{3}[-.\s]?\d{4}] *)
Definition phone_pattern : Re.regex :=
  Re.Seq [Re.Opt (Re.Seq [Re.Opt (Re.Chr "+"); Re.Chr "1"; Re.Opt phone_sep]);
          Re.Opt (Re.Seq [Re.Opt (Re.Chr "("); Re.Rep 3 Re.digit;
                          Re.Opt (Re.Chr ")"); Re.Opt phone_sep]);
          Re.Rep 3 Re.digit; Re.Opt phone_sep; Re.Rep 4 Re.digit].

(** [\b[A-Za-z0-9._%+-]+@[A-Za-z0-9.-]+\.[A-Z|a-z]{2,}\b] *)
Definition email_pattern : Re.regex :=
  Re.Seq [Re.WordB;
          Re.Plus (Re.Set_ (fun c => Str.is_alpha c || Str.is_digit c ||
                                     existsb (Str.eqc c) "._%+-"));
          Re.Chr "@";
          Re.Plus (Re.Set_ (fun c => Str.is_alpha c || Str.is_digit c ||
                                     existsb (Str.eqc c) ".-"));
          Re.Chr ".";
          Re.AtLeast 2 (Re.Set_ (fun c => Str.is_alpha c || Str.eqc c "|"));
          Re.WordB].

(** [[^\d]] *)
Definition non_digit : Re.regex := Re.Set_ (fun c => negb (Str.is_digit c)).

(** [lambda c: c and any(x in c.lower() for x in keywords)] *)
Definition class_has (keywords : list str) (c : option str) : bool :=
  match c with
  | Some v => Str.truthy v && existsb (fun x => Str.contains x (Str.lower v)) keywords
  | None => false
  end.

(** [lambda h: h and h.startswith(prefix)] *)
Definition href_starts (prefix : str) (h : option str) : bool :=
  match h with
  | Some v => Str.truthy v && Str.startswith prefix v
  | None => false
  end.

(** Lines 145-146 *)
Definition about_sections (soup : Bs.node) : list Bs.node :=
  Bs.find_all_attr ["div"; "section"; "article"] "class"
    (class_has ["doctor"; "provider"; "team"; "about"; "staff"; "physician"])
    soup.

(** Lines 184-185 *)
Definition address_elements (soup : Bs.node) : list Bs.node :=
  Bs.find_all_attr ["address"; "div"; "p"; "footer"; "span"] "class"
    (class_has ["address"; "location"; "contact"; "footer"]) soup.

(** Lines 221-222 *)
Definition contact_elements (soup : Bs.node) : list Bs.node :=
  Bs.find_all_attr ["div"; "p"; "span"; "a"; "section"] "class"
    (class_has ["contact"; "phone"; "email"; "tel"]) soup.

(** Some pattern of the list is found in the text. *)
Definition found_in (patterns : list Re.regex) (text : str) : bool :=
  existsb (fun pattern => bool_decide (is_Some (Re.search pattern text)))
    patterns.

(** [match.group(1).strip() + ", " + match.group(2)] *)
Definition format_city_state (m : Re.match_obj) : str :=
  Str.strip (Re.group 1 m) ++ ", " ++ Re.group 2 m.

(** Lines 259-265: the first phone number, digits only; ten digits are
    laid out as [(AAA) BBB-CCCC], anything else keeps the text found. *)
Definition format_phone (phone0 : str) : str :=
  let phone := Re.sub non_digit "" phone0 in
  if length phone =? 10
  then "(" ++ Str.slice phone 0 3 ++ ") " ++ Str.slice phone 3 6 ++ "-" ++
       drop 6 phone
  else phone0.

(** Lines 256-271 *)
Definition format_contact_info (phone_numbers emails : list str)
  (clinic_data : ClinicRecord) : ClinicRecord :=
  let contact_info := [] in
  let contact_info :=
    match phone_numbers with
    | phone0 :: _ => contact_info ++ [format_phone phone0]
    | [] => contact_info
    end in
  let contact_info :=
    match emails with
    | email0 :: _ => contact_info ++ [email0]
    | [] => contact_info
    end in
  match contact_info with
  | [] => clinic_data
  | _ :: _ => set_contact_info (Str.join " | " contact_info) clinic_data
  end.

Section WebsiteScraper.

(** [requests.get(url, ...).text] for the n-th request of the run;
    [None] when the call raises. *)
Variable requests_get : nat -> str -> option str.

(** [BeautifulSoup(text, 'html.parser')] *)
Variable BeautifulSoup : str -> Bs.node.

(** The argument of [__init__]. *)
Variable competitors : list str.

(** [self.competitors] *)
Definition self_competitors : list str := map Str.lower competitors.

(** The body of the [try] of [check_competitor_presence], from the page
    source on. *)
Definition match_document (text : str) : bool * option str :=
  let soup := BeautifulSoup text in
  let page_text := Str.lower (Bs.get_text soup) in
  let page_html := Str.lower text in
  match List.find (fun competitor => Str.contains competitor page_text ||
                                     Str.contains competitor page_html)
          self_competitors with
  | Some competitor => (true, Some competitor)
  | None =>
      match Bs.find "footer" soup with
      | Some footer =>
          let footer_text := Str.lower (Bs.get_text footer) in
          match List.find (fun competitor => Str.contains competitor footer_text)
                  self_competitors with
          | Some competitor => (true, Some competitor)
          | None => (false, None)
          end
      | None => (false, None)
      end
  end.

Definition check_competitor_presence (url : str) (clock : nat)
  : (bool * option str) * nat :=
  match requests_get clock url with
  | Some text => (match_document text, S clock)
  | None => ((false, None), S clock)
  end.

(** The matcher with the footer scan of lines 86-92 taken out; it is the
    other side of the comparison with [match_document]. *)
Definition match_document_without_footer (text : str) : bool * option str :=
  let soup := BeautifulSoup text in
  let page_text := Str.lower (Bs.get_text soup) in
  let page_html := Str.lower text in
  match List.find (fun competitor => Str.contains competitor page_text ||
                                     Str.contains competitor page_html)
          self_competitors with
  | Some competitor => (true, Some competitor)
  | None => (false, None)
  end.

(** The vendor string occurs in one of the two views that the first loop
    reads: the lower-cased visible text of the page or its lower-cased
    source. *)
Definition vendor_in_page (text competitor : str) : Prop :=
  let soup := BeautifulSoup text in
  Str.substring competitor (Str.lower (Bs.get_text soup)) \/
  Str.substring competitor (Str.lower text).

(** The vendor string occurs in the view that the second loop reads: the
    lower-cased text of the first footer element. *)
Definition vendor_in_footer (text competitor : str) : Prop :=
  let soup := BeautifulSoup text in
  exists footer, Bs.find "footer" soup = Some footer /\
    Str.substring competitor (Str.lower (Bs.get_text footer)).

(** The vendor string occurs in one of the three views of the page: its
    lower-cased visible text, its lower-cased source, or the lower-cased
    text of its first footer element. *)
Definition vendor_occurs (text competitor : str) : Prop :=
  let soup := BeautifulSoup text in
  Str.substring competitor (Str.lower (Bs.get_text soup)) \/
  Str.substring competitor (Str.lower text) \/
  exists footer, Bs.find "footer" soup = Some footer /\
    Str.substring competitor (Str.lower (Bs.get_text footer)).

(** Lines 127-133; [None] is the [AttributeError] of [None.strip()] when
    the title has no single string. *)
Definition extract_clinic_name (soup : Bs.node) (clinic_data : ClinicRecord)
  : option ClinicRecord :=
  match Bs.find "title" soup with
  | Some title =>
      match Bs.string_ title with
      | Some s => Some (set_clinic_name (Str.strip s) clinic_data)
      | None => None
      end
  | None =>
      match Bs.find_all ["h1"] soup with
      | h1 :: _ => Some (set_clinic_name (Str.strip (Bs.get_text h1)) clinic_data)
      | [] => Some clinic_data
      end
  end.

(** Lines 135-141 *)
Definition clean_clinic_name (clinic_data : ClinicRecord) : ClinicRecord :=
  if Str.truthy (clinic_name clinic_data)
  then
    let name := Re.sub home_pattern "" (clinic_name clinic_data) in
    let name :=
      fold_left (fun name comp => Re.sub (competitor_suffix_pattern comp) "" name)
        self_competitors name in
    set_clinic_name name clinic_data
  else clinic_data.

(** The loop over [doctor_patterns] on one text (lines 160-167 and
    174-181). *)
Fixpoint search_doctor (patterns : list Re.regex) (text : str)
  (clinic_data : ClinicRecord) : ClinicRecord :=
  match patterns with
  | [] => clinic_data
  | pattern :: patterns' =>
      match Re.search pattern text with
      | Some m =>
          let clinic_data := set_provider_name (Re.group 1 m) clinic_data in
          match Re.search credentials_pattern
                  (Str.slice text (Re.m_end m) (Re.m_end m + 50)) with
          | Some cred_match => set_credentials (Re.group 1 cred_match) clinic_data
          | None => clinic_data
          end
      | None => search_doctor patterns' text clinic_data
      end
  end.

(** Lines 158-169 *)
Fixpoint search_about_sections (sections : list Bs.node)
  (clinic_data : ClinicRecord) : ClinicRecord :=
  match sections with
  | [] => clinic_data
  | section :: sections' =>
      let clinic_data :=
        search_doctor doctor_patterns (Bs.get_text section) clinic_data in
      if Str.truthy (provider_name clinic_data) then clinic_data
      else search_about_sections sections' clinic_data
  end.

(** Lines 143-181 *)
Definition extract_provider (soup : Bs.node) (clinic_data : ClinicRecord)
  : ClinicRecord :=
  let clinic_data := search_about_sections (about_sections soup) clinic_data in
  if negb (Str.truthy (provider_name clinic_data))
  then search_doctor doctor_patterns (Bs.get_text soup) clinic_data
  else clinic_data.

(** The loop over [city_state_patterns] on one text. *)
Fixpoint search_city_state (patterns : list Re.regex) (text : str)
  (clinic_data : ClinicRecord) : ClinicRecord :=
  match patterns with
  | [] => clinic_data
  | pattern :: patterns' =>
      match Re.search pattern text with
      | Some m => set_city_state (format_city_state m) clinic_data
      | None => search_city_state patterns' text clinic_data
      end
  end.

(** Lines 193-201 *)
Fixpoint search_address_elements (elements : list Bs.node)
  (clinic_data : ClinicRecord) : ClinicRecord :=
  match elements with
  | [] => clinic_data
  | element :: elements' =>
      let clinic_data :=
        search_city_state city_state_patterns (Bs.get_text element) clinic_data in
      if Str.truthy (city_state clinic_data) then clinic_data
      else search_address_elements elements' clinic_data
  end.

(** Lines 183-210 *)
Definition extract_location (soup : Bs.node) (clinic_data : ClinicRecord)
  : ClinicRecord :=
  let clinic_data :=
    search_address_elements (address_elements soup) clinic_data in
  if negb (Str.truthy (city_state clinic_data))
  then search_city_state city_state_patterns (Bs.get_text soup) clinic_data
  else clinic_data.

(** Lines 231-244: the targets of [tel:] and [mailto:] links. *)
Definition link_targets (scheme : str) (pattern : Re.regex) (soup : Bs.node)
  : list str :=
  flat_map
    (fun link =>
       match Bs.get "href" link with
       | Some href =>
           let target := Str.strip (Str.replace href scheme "") in
           match Re.match_ pattern target with
           | Some _ => [target]
           | None => []
           end
       | None => []
       end)
    (Bs.find_all_attr ["a"] "href" (href_starts scheme) soup).

(** Lines 212-271 *)
Definition extract_contact (soup : Bs.node) (clinic_data : ClinicRecord)
  : ClinicRecord :=
  let phone_numbers :=
    flat_map (fun element => Re.findall phone_pattern (Bs.get_text element))
      (contact_elements soup) in
  let emails :=
    flat_map (fun element => Re.findall email_pattern (Bs.get_text element))
      (contact_elements soup) in
  let phone_numbers := phone_numbers ++ link_targets "tel:" phone_pattern soup in
  let emails := emails ++ link_targets "mailto:" email_pattern soup in
  let phone_numbers :=
    match phone_numbers with
    | [] => Re.findall phone_pattern (Bs.get_text soup)
    | _ :: _ => phone_numbers
    end in
  let emails :=
    match emails with
    | [] => Re.findall email_pattern (Bs.get_text soup)
    | _ :: _ => emails
    end in
  format_contact_info phone_numbers emails clinic_data.

Definition extract_clinic_data (url : str) (competitor : option str)
  (clock : nat) : ClinicRecord * nat :=
  let clinic_data := Clinic "" "" "" url "" "" competitor in
  match requests_get clock url with
  | Some text =>
      let soup := BeautifulSoup text in
      match extract_clinic_name soup clinic_data with
      | Some clinic_data =>
          let clinic_data := clean_clinic_name clinic_data in
          let clinic_data := extract_provider soup clinic_data in
          let clinic_data := extract_location soup clinic_data in
          let clinic_data := extract_contact soup clinic_data in
          (clinic_data, S clock)
      | None => (clinic_data, S clock)
      end
  | None => (clinic_data, S clock)
  end.

(** Lines 297-299 *)
Definition fix_url (url : str) : str :=
  if negb (Str.startswith "http" url) then "http://" ++ url else url.

Fixpoint process_urls_from (urls : list str) (results : list ClinicRecord)
  (clock : nat) : list ClinicRecord * nat :=
  match urls with
  | [] => (results, clock)
  | url :: urls' =>
      let url := fix_url url in
      let '((has_competitor, competitor), clock) :=
        check_competitor_presence url clock in
      if has_competitor
      then
        let '(clinic_data, clock) := extract_clinic_data url competitor clock in
        process_urls_from urls' (results ++ [clinic_data]) clock
      else process_urls_from urls' results clock
  end.

Definition process_urls (urls : list str) (clock : nat)
  : list ClinicRecord * nat :=
  process_urls_from urls [] clock.

End WebsiteScraper.

End Py.

(** ** Scrap.py: class WebsiteScraper, the CSV-driven variant *)

Module Scrap.

Record ClinicRecord := Clinic {
  clinic_name : option str;
  provider_name : option str;
  credentials : option str;
  website_url : str;
  city_state : option str;
  contact_info : option str;
  website_provider : option str
}.

Definition set_clinic_name (v : str) (d : ClinicRecord) : ClinicRecord :=
  Clinic (Some v) (provider_name d) (credentials d) (website_url d)
    (city_state d) (contact_info d) (website_provider d).

Definition set_provider (name creds : str) (d : ClinicRecord) : ClinicRecord :=
  Clinic (clinic_name d) (Some name) (Some creds) (website_url d)
    (city_state d) (contact_info d) (website_provider d).

Definition set_city_state (v : str) (d : ClinicRecord) : ClinicRecord :=
  Clinic (clinic_name d) (provider_name d) (credentials d) (website_url d)
    (Some v) (contact_info d) (website_provider d).

Definition set_contact_info (v : str) (d : ClinicRecord) : ClinicRecord :=
  Clinic (clinic_name d) (provider_name d) (credentials d) (website_url d)
    (city_state d) (Some v) (website_provider d).

(** One row of [csv.reader] in [load_urls_from_csv] (lines 40-44). *)
Definition load_row (row : list str) : list str :=
  match row with
  | [] => []
  | field :: _ =>
      if Str.startswith "http" field then [Str.strip field]
      else ["http://" ++ Str.strip field]
  end.

(** [load_urls_from_csv]: the rows of the file, or [None] when reading it
    raises. *)
Definition load_urls_from_csv (rows : option (list (list str))) : list str :=
  match rows with
  | Some rows => flat_map load_row rows
  | None => []
  end.

(** Line 132: a title or degree, then any number of comma-separated
    upper-case words. *)
Definition credentials_pattern : Re.regex :=
  Re.Cat
    (Re.Alts [Re.Lit "Dr."; Re.Lit "MD"; Re.Lit "DO"; Re.Lit "DDS";
              Re.Lit "DMD"; Re.Lit "DPM"; Re.Lit "DC"; Re.Lit "DVM";
              Re.Lit "VMD"; Re.Lit "PhD"; Re.Lit "NP"] (Re.Lit "PA"))
    (Re.Star (Re.Seq [Re.Star Re.space; Re.Chr ","; Re.Star Re.space;
                      Re.Plus Re.upper])).

(** Line 139 *)
Definition name_pattern : Re.regex :=
  Re.Seq [Re.Group 1 Py.first_last; Re.Plus Re.space; credentials_pattern].

(** [([A-Z][a-zA-Z\s]+),\s*([A-Z]{2})] *)
Definition city_state_pattern : Re.regex :=
  Re.Seq [Re.Group 1 (Re.Cat Re.upper
                        (Re.Plus (Re.Set_ (fun c => Str.is_alpha c ||
                                                    Str.is_space c))));
          Re.Chr ","; Re.Star Re.space; Re.Group 2 (Re.Rep 2 Re.upper)].

(** [(?:\+1|1)?[-.\s]?\(?\d{3}\)?[-.\s]?\d{3}[-.\s]?\d{4}] *)
Definition phone_pattern : Re.regex :=
  Re.Seq [Re.Opt (Re.Alt (Re.Lit "+1") (Re.Chr "1")); Re.Opt Py.phone_sep;
          Re.Opt (Re.Chr "("); Re.Rep 3 Re.digit; Re.Opt (Re.Chr ")");
          Re.Opt Py.phone_sep; Re.Rep 3 Re.digit; Re.Opt Py.phone_sep;
          Re.Rep 4 Re.digit].

(** [[a-zA-Z0-9._%+-]+@[a-zA-Z0-9.-]+\.[a-zA-Z]{2,}] *)
Definition email_pattern : Re.regex :=
  Re.Seq [Re.Plus (Re.Set_ (fun c => Str.is_alpha c || Str.is_digit c ||
                                     existsb (Str.eqc c) "._%+-"));
          Re.Chr "@";
          Re.Plus (Re.Set_ (fun c => Str.is_alpha c || Str.is_digit c ||
                                     existsb (Str.eqc c) ".-"));
          Re.Chr ".";
          Re.AtLeast 2 (Re.Set_ Str.is_alpha)].

Section WebsiteScraper.

Variable requests_get : nat -> str -> option str.
Variable BeautifulSoup : str -> Bs.node.
Variable competitors : list str.

Definition self_competitors : list str := map Str.lower competitors.

(** Lines 67-86; the same statements as in py.py. *)
Definition match_document (text : str) : bool * option str :=
  let soup := BeautifulSoup text in
  let page_text := Str.lower (Bs.get_text soup) in
  let page_html := Str.lower text in
  match List.find (fun competitor => Str.contains competitor page_text ||
                                     Str.contains competitor page_html)
          self_competitors with
  | Some competitor => (true, Some competitor)
  | None =>
      match Bs.find "footer" soup with
      | Some footer =>
          let footer_text := Str.lower (Bs.get_text footer) in
          match List.find (fun competitor => Str.contains competitor footer_text)
                  self_competitors with
          | Some competitor => (true, Some competitor)
          | None => (false, None)
          end
      | None => (false, None)
      end
  end.

Definition check_competitor_presence (url : str) (clock : nat)
  : (bool * option str) * nat :=
  match requests_get clock url with
  | Some text => (match_document text, S clock)
  | None => ((false, None), S clock)
  end.

(** Lines 119-126 *)
Definition extract_clinic_name (soup : Bs.node) (clinic_data : ClinicRecord)
  : ClinicRecord :=
  let title :=
    match Bs.find "title" soup with
    | Some t => Bs.string_ t
    | None => None
    end in
  match title with
  | Some (c :: s) =>
      set_clinic_name (Str.strip (Str.before_sep "|" (c :: s))) clinic_data
  | _ =>
      match Bs.find "h1" soup with
      | Some h1 => set_clinic_name (Str.strip (Bs.get_text h1)) clinic_data
      | None => clinic_data
      end
  end.

(** Lines 134-143 *)
Fixpoint search_about_sections (sections : list Bs.node)
  (clinic_data : ClinicRecord) : ClinicRecord :=
  match sections with
  | [] => clinic_data
  | section :: sections' =>
      let text := Bs.get_text section in
      match Re.search credentials_pattern text with
      | Some credentials_match =>
          match Re.search name_pattern text with
          | Some name_match =>
              set_provider (Re.group 1 name_match)
                (Re.group0 text credentials_match) clinic_data
          | None => clinic_data
          end
      | None => search_about_sections sections' clinic_data
      end
  end.

(** Lines 153-158 *)
Fixpoint search_address_elements (elements : list Bs.node)
  (clinic_data : ClinicRecord) : ClinicRecord :=
  match elements with
  | [] => clinic_data
  | element :: elements' =>
      match Re.search city_state_pattern (Bs.get_text element) with
      | Some m =>
          set_city_state (Re.group 1 m ++ ", " ++ Re.group 2 m) clinic_data
      | None => search_address_elements elements' clinic_data
      end
  end.

(** Lines 160-175 *)
Definition extract_contact (text : str) (clinic_data : ClinicRecord)
  : ClinicRecord :=
  let contact_info :=
    match Re.search phone_pattern text with
    | Some m => [Re.group0 text m]
    | None => []
    end ++
    match Re.search email_pattern text with
    | Some m => [Re.group0 text m]
    | None => []
    end in
  match contact_info with
  | [] => clinic_data
  | _ :: _ => set_contact_info (Str.join ", " contact_info) clinic_data
  end.

Definition extract_clinic_data (url : str) (competitor : option str)
  (clock : nat) : ClinicRecord * nat :=
  let clinic_data := Clinic None None None url None None competitor in
  match requests_get clock url with
  | Some text =>
      let soup := BeautifulSoup text in
      let clinic_data := extract_clinic_name soup clinic_data in
      let about_sections :=
        Bs.find_all_attr ["div"; "section"] "class"
          (Py.class_has ["about"; "doctor"; "team"]) soup in
      let clinic_data := search_about_sections about_sections clinic_data in
      let address_elements :=
        Bs.find_all_attr ["address"; "div"; "p"] "class"
          (Py.class_has ["address"; "location"]) soup in
      let clinic_data := search_address_elements address_elements clinic_data in
      let clinic_data := extract_contact text clinic_data in
      (clinic_data, S clock)
  | None => (clinic_data, S clock)
  end.

Fixpoint process_urls_from (urls : list str) (results : list ClinicRecord)
  (clock : nat) : list ClinicRecord * nat :=
  match urls with
  | [] => (results, clock)
  | url :: urls' =>
      let '((has_competitor, competitor), clock) :=
        check_competitor_presence url clock in
      if has_competitor
      then
        let '(clinic_data, clock) := extract_clinic_data url competitor clock in
        process_urls_from urls' (results ++ [clinic_data]) clock
      else process_urls_from urls' results clock
  end.

Definition process_urls (urls : list str) (clock : nat)
  : list ClinicRecord * nat :=
  process_urls_from urls [] clock.

End WebsiteScraper.

End Scrap.

(** ** The batch loop, seen from outside

    Both [process_urls] are a loop that takes one URL per turn, appends the
    records of the turn and hands the request counter on. *)

Module Batch.

Section Loop.
Context {A R : Type}.
Variable step : A -> nat -> list R * nat.

Fixpoint loop_from (xs : list A) (acc : list R) (clock : nat) : list R * nat :=
  match xs with
  | [] => (acc, clock)
  | x :: xs' => loop_from xs' (acc ++ fst (step x clock)) (snd (step x clock))
  end.

Definition loop (xs : list A) (clock : nat) : list R * nat :=
  loop_from xs [] clock.

End Loop.

Section Batch.
Context {R : Type}.
Variable check : str -> nat -> (bool * option str) * nat.
Variable extract : str -> option str -> nat -> R * nat.
Variable site_of : str -> str.
Variable url_of : R -> str.
Variable provider_of : R -> option str.
Variable run : list str -> nat -> list R * nat.

(** What the batch loop owes to the matcher, for a list of URLs and the
    request counter at the start: no more records than URLs; each turn
    appends one record when the matcher found a vendor and nothing
    otherwise; every record belongs to a URL of the list on which the
    matcher found the vendor the record names; every URL on which the
    matcher found a vendor has its record. *)
Definition emits_iff_matched (urls : list str) (clock : nat) : Prop :=
  let results := fst (run urls clock) in
  length results <= length urls /\
  (forall i url, urls !! i = Some url ->
     let reached := run (take i urls) clock in
     let found := check (site_of url) (snd reached) in
     fst (run (take (S i) urls) clock) =
     fst reached ++
     (if fst (fst found)
      then [fst (extract (site_of url) (snd (fst found)) (snd found))]
      else [])) /\
  (forall record, In record results ->
     exists i url vendor, urls !! i = Some url /\
       fst (check (site_of url) (snd (run (take i urls) clock)))
       = (true, Some vendor) /\
       url_of record = site_of url /\
       provider_of record = Some vendor) /\
  (forall i url, urls !! i = Some url ->
     let found := check (site_of url) (snd (run (take i urls) clock)) in
     fst (fst found) = true ->
     exists record, In record results /\
       url_of record = site_of url /\
       provider_of record = snd (fst found)).

(** One turn: the records it appends and the request counter it leaves. *)
Definition turn (url : str) (clock : nat) : list R * nat :=
  let site := site_of url in
  let found := check site clock in
  if fst (fst found)
  then ([fst (extract site (snd (fst found)) (snd found))],
        snd (extract site (snd (fst found)) (snd found)))
  else ([], snd found).

End Batch.

End Batch.

(** ** Scrapper.py: class ClinicProspectingAgent *)

Module Scrapper.

(** The dictionary built by [extract_clinic_data] and completed by
    [process_search_results]. *)
Record Prospect := MkProspect {
  name : option str;
  url : str;
  provider_name : option str;
  credentials : option str;
  city_state : option str;
  contact_info : option str;
  website_provider : option str;
  vertical : str
}.

(** Lines 336-343: [unique_prospects] and [unique_urls] are the two
    accumulators of the loop. *)
Fixpoint remove_duplicates_from (all_prospects unique_prospects : list Prospect)
  (unique_urls : gset str) : list Prospect :=
  match all_prospects with
  | [] => unique_prospects
  | prospect :: all_prospects' =>
      if bool_decide (url prospect ∈ unique_urls)
      then remove_duplicates_from all_prospects' unique_prospects unique_urls
      else remove_duplicates_from all_prospects'
             (unique_prospects ++ [prospect]) ({[url prospect]} ∪ unique_urls)
  end.

Definition remove_duplicates (all_prospects : list Prospect) : list Prospect :=
  remove_duplicates_from all_prospects [] ∅.

Section ClinicProspectingAgent.

(** The search and page-processing methods reach the network; the n-th call
    of a run has the result given here. *)
Variable SearchResult : Type.
Variable search_clinics : nat -> str -> str -> option str -> list SearchResult.
Variable search_by_copyright : nat -> str -> list SearchResult.
Variable process_search_results : nat -> list SearchResult -> list Prospect.

(** Lines 311-315: the loop over the providers for one vertical and
    location. *)
Fixpoint search_providers (vertical location : str) (providers : list str)
  (all_prospects : list Prospect) (clock : nat) : list Prospect * nat :=
  match providers with
  | [] => (all_prospects, clock)
  | provider :: providers' =>
      let results := search_clinics clock vertical location (Some provider) in
      let prospects := process_search_results (S clock) results in
      search_providers vertical location providers'
        (all_prospects ++ prospects) (S (S clock))
  end.

(** Lines 309-323 *)
Fixpoint search_locations (vertical : str) (locations website_providers : list str)
  (all_prospects : list Prospect) (clock : nat) : list Prospect * nat :=
  match locations with
  | [] => (all_prospects, clock)
  | location :: locations' =>
      let '(all_prospects, clock) :=
        match website_providers with
        | _ :: _ =>
            search_providers vertical location website_providers
              all_prospects clock
        | [] =>
            let results := search_clinics clock vertical location None in
            let prospects := process_search_results (S clock) results in
            (all_prospects ++ prospects, S (S clock))
        end in
      search_locations vertical locations' website_providers all_prospects clock
  end.

(** Lines 308-323 *)
Fixpoint search_verticals (verticals locations website_providers : list str)
  (all_prospects : list Prospect) (clock : nat) : list Prospect * nat :=
  match verticals with
  | [] => (all_prospects, clock)
  | vertical :: verticals' =>
      let '(all_prospects, clock) :=
        search_locations vertical locations website_providers
          all_prospects clock in
      search_verticals verticals' locations website_providers
        all_prospects clock
  end.

(** Lines 326-334 *)
Fixpoint search_copyrights (providers : list str)
  (all_prospects : list Prospect) (clock : nat) : list Prospect * nat :=
  match providers with
  | [] => (all_prospects, clock)
  | provider :: providers' =>
      let results := search_by_copyright clock provider in
      let prospects := process_search_results (S clock) results in
      search_copyrights providers' (all_prospects ++ prospects) (S (S clock))
  end.

(** Lines 305-334: everything collected before duplicates are removed. *)
Definition collect_prospects (verticals locations website_providers : list str)
  (clock : nat) : list Prospect * nat :=
  let '(all_prospects, clock) :=
    search_verticals verticals locations website_providers [] clock in
  search_copyrights website_providers all_prospects clock.

Definition run_prospecting_campaign
  (verticals locations website_providers : list str) (clock : nat)
  : list Prospect * nat :=
  let '(all_prospects, clock) :=
    collect_prospects verticals locations website_providers clock in
  (remove_duplicates all_prospects, clock).

End ClinicProspectingAgent.

End Scrapper.

(** ** Sample pages

    Pages with the tree that html.parser builds for them, a parser that
    knows these pages, and a network that serves them. *)

Module Samples.

Definition document (contents : list Bs.node) : Bs.node :=
  Bs.Tag "[document]" [] contents.

(** A text that is not one of the listed pages is taken to hold no markup:
    its tree is a single string. *)
Definition parser_of (pages : list (str * Bs.node)) (text : str) : Bs.node :=
  default (document [Bs.NavigableString text]) (snd <$> List.find (fun p => bool_decide (fst p = text)) pages).

(** Every request for a listed URL is answered with its page; any other
    request fails. *)
Definition network_of (sites : list (str * str)) (clock : nat) (url : str)
  : option str :=
  Bs.assoc url sites.

Definition two_vendor_page : str :=
  "<html><body><p>Site by iMatrix</p><footer>Powered by Tebra</footer></body></html>".

Definition two_vendor_soup : Bs.node :=
  document
    [Bs.Tag "html" []
       [Bs.Tag "body" []
          [Bs.Tag "p" [] [Bs.NavigableString "Site by iMatrix"];
           Bs.Tag "footer" [] [Bs.NavigableString "Powered by Tebra"]]]].

Definition plain_page : str :=
  "<html><body><p>Welcome to our clinic</p></body></html>".

Definition plain_soup : Bs.node :=
  document
    [Bs.Tag "html" []
       [Bs.Tag "body" [] [Bs.Tag "p" [] [Bs.NavigableString "Welcome to our clinic"]]]].

Definition clinic_page : str :=
  "<html><head><title>Smile Dental | Tebra</title></head><body><div class='about'>Meet Jane Doe, DDS is a dentist in Tulsa.</div><address class='address'>12 Main St, Somewhere, CA 92101</address><p class='phone'>Call 619.555.1234</p><footer>Powered by Tebra</footer></body></html>".

Definition clinic_soup : Bs.node :=
  document
    [Bs.Tag "html" []
       [Bs.Tag "head" []
          [Bs.Tag "title" [] [Bs.NavigableString "Smile Dental | Tebra"]];
        Bs.Tag "body" []
          [Bs.Tag "div" [("class", "about")]
             [Bs.NavigableString "Meet Jane Doe, DDS is a dentist in Tulsa."];
           Bs.Tag "address" [("class", "address")]
             [Bs.NavigableString "12 Main St, Somewhere, CA 92101"];
           Bs.Tag "p" [("class", "phone")]
             [Bs.NavigableString "Call 619.555.1234"];
           Bs.Tag "footer" [] [Bs.NavigableString "Powered by Tebra"]]]].

(** A vendor name of two Greek capitals, alpha and sigma, and the string
    that [__init__] stores for it: small alpha and final sigma. *)
Definition sigma_vendor : str := [Str.capital_alpha; Str.capital_sigma].
Definition sigma_vendor_stored : str := [Str.small_alpha; Str.final_sigma].

(** A page whose footer ends with a capital sigma while the page goes on
    with a letter: in the page source the Greek letters are character
    references, in the tree they are the letters. *)
Definition sigma_page : str :=
  "<footer>&Alpha;&Sigma;</footer>&Alpha;".

Definition sigma_soup : Bs.node :=
  document
    [Bs.Tag "footer" []
       [Bs.NavigableString [Str.capital_alpha; Str.capital_sigma]];
     Bs.NavigableString [Str.capital_alpha]].

(** The same page with the name of a second vendor after it. *)
Definition sigma_tebra_page : str :=
  "<footer>&Alpha;&Sigma;</footer>&Alpha;<p>tebra</p>".

Definition sigma_tebra_soup : Bs.node :=
  document
    [Bs.Tag "footer" []
       [Bs.NavigableString [Str.capital_alpha; Str.capital_sigma]];
     Bs.NavigableString [Str.capital_alpha];
     Bs.Tag "p" [] [Bs.NavigableString "tebra"]].

Definition pages : list (str * Bs.node) :=
  [(two_vendor_page, two_vendor_soup); (plain_page, plain_soup);
   (clinic_page, clinic_soup); (sigma_page, sigma_soup);
   (sigma_tebra_page, sigma_tebra_soup)].

Definition parser : str -> Bs.node := parser_of pages.

Definition sites : list (str * str) :=
  [("http://a.example.com", plain_page); ("http://b.example.com", clinic_page)].

Definition network : nat -> str -> option str := network_of sites.

Definition competitors : list str :=
  ["Dentalqore"; "Roya.com"; "ekwa.com"; "Tebra"; "iMatrix"; "GrowthPlug"].

End Samples.

(** ** Shapes of extracted text *)

Module Shape.

(** An upper-case letter followed by one or more lower-case letters. *)
Definition capitalised (w : str) : Prop :=
  exists c l, w = c :: l /\ Str.is_upper c = true /\ l <> [] /\
    Forall (fun x => Str.is_lower x = true) l.

(** Two capitalised words with blanks between them. *)
Definition first_last_name (name : str) : Prop :=
  exists first gap last, name = first ++ gap ++ last /\
    capitalised first /\ capitalised last /\ gap <> [] /\
    Forall (fun x => Str.is_space x = true) gap.

End Shape.

(** ** py.py: load_urls_from_json *)

Module Json.

(** A value as [json.load] returns it. *)
#[warnings="-register-all"]
Inductive json :=
| JNull
| JBool (b : bool)
| JNumber (literal : str)
| JString (s : str)
| JArray (items : list json)
| JObject (members : list (str * json)).

(** [obj[key]] for a parsed object: of several members with the same key
    the last one is kept. *)
Fixpoint obj_get (key : str) (members : list (str * json)) : option json :=
  match members with
  | [] => None
  | (k, v) :: members' =>
      match obj_get key members' with
      | Some v' => Some v'
      | None => if bool_decide (k = key) then Some v else None
      end
  end.

Definition is_string (s : str) (v : json) : bool :=
  match v with
  | JString s' => bool_decide (s' = s)
  | _ => false
  end.

(** What one turn of the loop of lines 48-50 does with [item]. *)
Inductive turn := Raises | Skips | Appends (url : json).

(** ['url' in item] and [item['url']]: key lookup on an object; on a list
    the test is membership and the subscript raises; on a string the test
    is containment and the subscript raises; on a number, a boolean or
    [None] the test itself raises. *)
Definition item_turn (item : json) : turn :=
  match item with
  | JObject members =>
      match obj_get "url" members with
      | Some url => Appends url
      | None => Skips
      end
  | JArray items => if existsb (is_string "url") items then Raises else Skips
  | JString s => if Str.contains "url" s then Raises else Skips
  | JNull | JBool _ | JNumber _ => Raises
  end.

(** The loop; [None] when a turn raises. *)
Fixpoint collect_urls (items urls : list json) : option (list json) :=
  match items with
  | [] => Some urls
  | item :: items' =>
      match item_turn item with
      | Raises => None
      | Skips => collect_urls items' urls
      | Appends url => collect_urls items' (urls ++ [url])
      end
  end.

(** [load_urls_from_json]: [None] when the file cannot be opened or parsed.
    Data that is not a list gives the empty list on every path: iterating a
    number, a boolean or [None] raises, and the keys of an object and the
    characters of a string are strings, which are skipped or raise. *)
Definition load_urls_from_json (data : option json) : list json :=
  match data with
  | Some (JArray items) => default [] (collect_urls items [])
  | _ => []
  end.

End Json.

(** ** Scrap.py: run *)

Module ScrapRun.

Section Run.
Variable requests_get : nat -> str -> option str.
Variable BeautifulSoup : str -> Bs.node.
Variable competitors : list str.

(** [run], without the two files it writes: the results and the request
    counter after the run. *)
Definition run (rows : option (list (list str))) (clock : nat)
  : list Scrap.ClinicRecord * nat :=
  let urls := Scrap.load_urls_from_csv rows in
  match urls with
  | [] => ([], clock)
  | _ :: _ => Scrap.process_urls requests_get BeautifulSoup competitors urls clock
  end.

End Run.

End ScrapRun.

(** ** Scrapper.py: the methods that read one site *)

Module Agent.

(** The dictionary of [extract_clinic_data], before [vertical] is added. *)
Record ClinicData := MkClinicData {
  name : option str;
  url : str;
  provider_name : option str;
  credentials : option str;
  city_state : option str;
  contact_info : option str;
  website_provider : option str
}.

(** [tag.find_all(text=f)]: the strings below the node, comments and all,
    in document order, that [f] accepts. *)
Fixpoint strings (n : Bs.node) : list str :=
  match n with
  | Bs.NavigableString s => [s]
  | Bs.Comment s => [s]
  | Bs.Tag _ _ cs => flat_map strings cs
  end.

(** Line 142 *)
Definition is_contact_text (t : str) : bool :=
  Str.truthy t &&
  (Str.contains "@" t || Str.contains "phone" (Str.lower t) ||
   Str.contains "tel:" (Str.lower t)).

(** Line 157 *)
Definition website_providers : list str :=
  ["dentalqore"; "roya"; "ekwa"; "tebra"; "imatrix"; "growthplug"].

(** Lines 179-183 *)
Definition corporate_signals : list str :=
  ["health system"; "medical group"; "hospital"; "ascension"; "providence";
   "kaiser"; "dignity"; "community health"; "medical center";
   "health partners"].

(** Lines 202-210, in the order of the dictionary. *)
Definition verticals : list (str * list str) :=
  [("veterinary", ["vet"; "animal"; "pet"; "dvm"; "vmd"]);
   ("dentistry", ["dent"; "oral"; "dds"; "dmd"]);
   ("cardiology", ["cardio"; "heart"]);
   ("chiropractic", ["chiro"; "spine"; "dc"]);
   ("podiatry", ["foot"; "ankle"; "dpm"]);
   ("internal medicine", ["internal medicine"]);
   ("family medicine", ["family"])].

(** Lines 185-190 *)
Definition is_corporate_clinic (data_name : option str) : bool :=
  match data_name with
  | Some (c :: s) =>
      existsb (fun signal => Str.contains (Str.lower signal)
                               (Str.lower (c :: s)))
        corporate_signals
  | _ => false
  end.

(** Lines 212-219 *)
Definition categorize_by_vertical (data_name : option str) : str :=
  match data_name with
  | Some (c :: s) =>
      let name_lower := Str.lower (c :: s) in
      match List.find (fun entry =>
                         existsb (fun keyword => Str.contains keyword name_lower)
                           (snd entry))
              verticals with
      | Some (vertical, _) => vertical
      | None => "other specialty"
      end
  | _ => "other specialty"
  end.

(** Lines 153-161 *)
Definition footer_provider (soup : Bs.node) : option str :=
  match Bs.find "footer" soup with
  | Some footer =>
      let footer_text := Str.lower (Bs.get_text footer) in
      List.find (fun provider => Str.contains provider footer_text)
        website_providers
  | None => None
  end.

(** Some keyword of the entry occurs in the lower-cased name. *)
Definition keyword_occurs (name : str) (entry : str * list str) : Prop :=
  exists keyword, In keyword (snd entry) /\
    Str.substring keyword (Str.lower name).

(** The link is one that makes the loop read the site. *)
Definition followed (link : option str) : bool :=
  match link with
  | Some (_ :: _) => true
  | _ => false
  end.

(** What every prospect that leaves the loop satisfies. *)
Definition processed (links : list (option str)) (p : Scrapper.Prospect)
  : Prop :=
  is_corporate_clinic (Scrapper.name p) = false /\
  Scrapper.vertical p = categorize_by_vertical (Scrapper.name p) /\
  In (Some (Scrapper.url p)) links /\
  Scrapper.url p <> [] /\
  Scrapper.provider_name p = None /\
  Scrapper.credentials p = None.

Section ClinicProspectingAgent.

Variable requests_get : nat -> str -> option str.
Variable BeautifulSoup : str -> Bs.node.

(** Lines 116-167 *)
Definition extract_clinic_data (site : str) (clock : nat)
  : ClinicData * nat :=
  let clinic_data := MkClinicData None site None None None None None in
  match requests_get clock site with
  | Some text =>
      let soup := BeautifulSoup text in
      let title :=
        match Bs.find "title" soup with
        | Some t => Bs.string_ t
        | None => None
        end in
      let data_name :=
        match title with
        | Some (c :: s) => Some (Str.strip (Str.before_sep "|" (c :: s)))
        | _ => None
        end in
      let contact :=
        match List.filter is_contact_text (flat_map strings (Bs.contents soup))
        with
        | t :: _ => Some (Str.strip t)
        | [] => None
        end in
      let address :=
        match Bs.find_all_attr ["address"; "div"] "class"
                (Py.class_has ["address"]) soup with
        | element :: _ => Some (Str.strip (Bs.get_text element))
        | [] => None
        end in
      (MkClinicData data_name site None None address contact
         (footer_provider soup), S clock)
  | None => (clinic_data, S clock)
  end.

(** Lines 231-249 on the links of the search results: [None] for a result
    without a link. *)
Fixpoint process_search_results_from (links : list (option str))
  (processed_data : list Scrapper.Prospect) (clock : nat)
  : list Scrapper.Prospect * nat :=
  match links with
  | [] => (processed_data, clock)
  | Some (c :: s) :: links' =>
      let '(clinic_data, clock) := extract_clinic_data (c :: s) clock in
      if negb (is_corporate_clinic (name clinic_data))
      then
        let vertical := categorize_by_vertical (name clinic_data) in
        process_search_results_from links'
          (processed_data ++
           [Scrapper.MkProspect (name clinic_data) (url clinic_data)
              (provider_name clinic_data) (credentials clinic_data)
              (city_state clinic_data) (contact_info clinic_data)
              (website_provider clinic_data) vertical])
          clock
      else process_search_results_from links' processed_data clock
  | _ :: links' => process_search_results_from links' processed_data clock
  end.

Definition process_search_results (links : list (option str)) (clock : nat)
  : list Scrapper.Prospect * nat :=
  process_search_results_from links [] clock.

End ClinicProspectingAgent.

End Agent.

(** * Facts *)

(** ** Strings *)

Module StrFacts.
Import Str.

Lemma eqc_eq a b : eqc a b = true <-> a = b.
Proof. apply Ascii.eqb_eq. Qed.

Lemma startswith_prefix p s :
  startswith p s = true <-> exists t, s = p ++ t.
Proof.
  revert s. induction p as [|a p IH]; intros s; simpl.
  - split; [intros _; by exists s | done].
  - destruct s as [|b s]; simpl.
    + split; [done | intros [t Ht]; discriminate].
    + rewrite andb_true_iff, eqc_eq, IH. split.
      * intros [-> [t ->]]. by exists t.
      * intros [t Ht]. injection Ht as -> ->. eauto.
Qed.

Lemma contains_unfold n h :
  contains n h =
  startswith n h || match h with [] => false | _ :: t => contains n t end.
Proof. by destruct h. Qed.

Lemma contains_substring n h : contains n h = true <-> substring n h.
Proof.
  unfold substring. induction h as [|c h IH]; rewrite contains_unfold.
  - rewrite orb_false_r, startswith_prefix. split.
    + intros [t Ht]. by exists [], t.
    + intros [a [b H]]. destruct a; [by exists b | discriminate].
  - rewrite orb_true_iff, startswith_prefix, IH. split.
    + intros [[t Ht] | [a [b Hab]]].
      * by exists [], t.
      * exists (c :: a), b. by rewrite Hab.
    + intros [a [b Hab]]. destruct a as [|c' a].
      * left. by exists b.
      * right. injection Hab as _ ->. by exists a, b.
Qed.

Lemma substring_refl a : substring a a.
Proof. exists [], []. simpl. by rewrite app_nil_r. Qed.

Lemma substring_trans a b c : substring a b -> substring b c -> substring a c.
Proof.
  intros [p [q ->]] [p' [q' ->]]. exists (p' ++ p), (q ++ q').
  by rewrite <- !app_assoc.
Qed.

Lemma lower_from_app before p s :
  exists p', lower_from before (p ++ s) = p' ++ lower_from (rev p ++ before) s.
Proof.
  revert before. induction p as [|c p IH]; intros before.
  - by exists [].
  - destruct (IH (c :: before)) as [p' Hp'].
    eexists (_ :: p'). cbn [app lower_from rev]. by rewrite Hp', <- app_assoc.
Qed.

Lemma lower_from_plain before s t :
  has capital_sigma s = false ->
  lower_from before (s ++ t) = map lower_char s ++ lower_from (rev s ++ before) t.
Proof.
  revert before. induction s as [|c s IH]; intros before Hs; [done|].
  cbn [app lower_from rev map]. unfold has in Hs. cbn [existsb] in Hs.
  apply orb_false_iff in Hs as [Hc Hs].
  assert (eqc c capital_sigma = false) as ->.
  { destruct (eqc c capital_sigma) eqn:E; [|done].
    apply eqc_eq in E as ->.
    assert (eqc capital_sigma capital_sigma = true) by (by apply eqc_eq).
    congruence. }
  by rewrite IH, <- app_assoc.
Qed.

Lemma lower_plain s : has capital_sigma s = false -> lower s = map lower_char s.
Proof.
  intros Hs. unfold lower. rewrite <- (app_nil_r s) at 1.
  rewrite lower_from_plain by done. apply app_nil_r.
Qed.

(** Lower-casing keeps a run that holds no capital sigma in its place:
    only a capital sigma is lower-cased by its neighbours. *)
Lemma substring_lower a b :
  has capital_sigma a = false -> substring a b ->
  substring (lower a) (lower b).
Proof.
  intros Ha [p [q ->]]. rewrite (lower_plain a Ha). unfold lower.
  destruct (lower_from_app [] p (a ++ q)) as [p' ->].
  rewrite lower_from_plain by done. by eexists _, _.
Qed.

(** The neighbours of a run decide at most which small sigma a capital
    sigma of the run becomes. *)
Lemma lower_from_alike a before1 before2 after1 after2 :
  exists a1 a2,
    lower_from before1 (a ++ after1) =
      a1 ++ lower_from (rev a ++ before1) after1 /\
    lower_from before2 (a ++ after2) =
      a2 ++ lower_from (rev a ++ before2) after2 /\
    Forall2 alike a1 a2.
Proof.
  revert before1 before2. induction a as [|c a IH]; intros before1 before2.
  - exists [], []. by repeat split.
  - destruct (IH (c :: before1) (c :: before2)) as (a1 & a2 & H1 & H2 & Ha).
    cbn [app lower_from rev]. rewrite H1, H2, <- !app_assoc.
    eexists (_ :: a1), (_ :: a2). repeat split. constructor; [|done].
    destruct (eqc c capital_sigma); [|by left]. right.
    by split; destruct (_ && _).
Qed.

Lemma alike_sigma_free v w :
  sigma_free v = true -> Forall2 alike v w -> w = v.
Proof.
  intros Hv H. induction H as [|x y v w Hxy _ IH]; [done|].
  cbn [sigma_free forallb] in Hv. apply andb_true_iff in Hv as [Hx Hv].
  rewrite (IH Hv). destruct Hxy as [->|[Hs _]]; [done|].
  by rewrite Hs in Hx.
Qed.

(** A string without small sigma that occurs in the lower-cased run
    occurs in the lower-cased whole. *)
Lemma substring_lower_sigma_free v a b :
  sigma_free v = true -> substring a b ->
  substring v (lower a) -> substring v (lower b).
Proof.
  intros Hv [p [q ->]] [x [y Hxy]]. unfold lower in *.
  destruct (lower_from_app [] p (a ++ q)) as [p' ->].
  destruct (lower_from_alike a [] (rev p ++ []) [] q)
    as (a1 & a2 & H1 & H2 & Ha).
  rewrite app_nil_r in H1. cbn [lower_from] in H1. rewrite app_nil_r in H1.
  rewrite H1 in Hxy. subst a1. rewrite H2.
  apply Forall2_app_inv_l in Ha as (x2 & k & _ & Hk & ->).
  apply Forall2_app_inv_l in Hk as (v2 & y2 & Hv2 & _ & ->).
  rewrite (alike_sigma_free v v2 Hv Hv2).
  exists (p' ++ x2), (y2 ++ lower_from (rev a ++ rev p ++ []) q).
  by rewrite <- !app_assoc.
Qed.

Lemma lower_cons c s : exists c' s', lower (c :: s) = c' :: s'.
Proof. by eexists _, _. Qed.

Lemma contains_trans a b c :
  contains a b = true -> substring b c -> contains a c = true.
Proof.
  rewrite !contains_substring. apply substring_trans.
Qed.

End StrFacts.

(** ** Trees *)

Module BsFacts.
Import Bs.

Lemma flat_map_get_text_member (c : node) cs :
  In c cs -> Str.substring (get_text c) (flat_map get_text cs).
Proof.
  intros Hin. apply in_split in Hin as [l1 [l2 ->]].
  rewrite flat_map_app. simpl.
  by exists (flat_map get_text l1), (flat_map get_text l2).
Qed.

Lemma get_text_below n d :
  In d (self_and_descendants n) -> Str.substring (get_text d) (get_text n).
Proof.
  induction n as [s|s|name attrs cs IH] using node_nested_ind; simpl.
  - intros [<-|[]]. apply StrFacts.substring_refl.
  - intros [<-|[]]. apply StrFacts.substring_refl.
  - intros [<-|Hin].
    + apply StrFacts.substring_refl.
    + apply in_flat_map in Hin as [c [Hc Hd]].
      rewrite Forall_forall in IH.
      apply StrFacts.substring_trans with (get_text c).
      * apply IH; [by apply list_elem_of_In | done].
      * by apply flat_map_get_text_member.
Qed.

Lemma get_text_descendant root d :
  In d (descendants root) -> Str.substring (get_text d) (get_text root).
Proof.
  unfold descendants. destruct root as [s|s|name attrs cs]; simpl; try done.
  intros Hin. apply in_flat_map in Hin as [c [Hc Hd]].
  apply StrFacts.substring_trans with (get_text c).
  - by apply get_text_below.
  - by apply flat_map_get_text_member.
Qed.

Lemma find_descendant name root f :
  find name root = Some f -> In f (descendants root).
Proof.
  unfold find, find_all. intros H.
  assert (In f (List.filter (name_in [name]) (descendants root))) as Hin.
  { destruct (List.filter _ _); simplify_eq/=. by left. }
  by apply filter_In in Hin as [? _].
Qed.

Lemma find_get_text name root f :
  find name root = Some f -> Str.substring (get_text f) (get_text root).
Proof. intros H. eapply get_text_descendant, find_descendant, H. Qed.

End BsFacts.

(** ** The signature matcher *)

Module MatcherFacts.

Section Matcher.
Variable BeautifulSoup : str -> Bs.node.
Variable competitors : list str.

Let cs := Py.self_competitors competitors.

(** The test of the first loop and the test of the second one, which is
    not run on a page without footer. *)
Let general (text : str) (competitor : str) : bool :=
  Str.contains competitor (Str.lower (Bs.get_text (BeautifulSoup text))) ||
  Str.contains competitor (Str.lower text).
Let in_footer (text : str) (competitor : str) : bool :=
  match Bs.find "footer" (BeautifulSoup text) with
  | Some footer => Str.contains competitor (Str.lower (Bs.get_text footer))
  | None => false
  end.

Lemma general_scan_page text competitor :
  general text competitor = true <->
  Py.vendor_in_page BeautifulSoup text competitor.
Proof.
  unfold general, Py.vendor_in_page. cbv zeta.
  by rewrite orb_true_iff, !StrFacts.contains_substring.
Qed.

Lemma footer_scan_footer text competitor :
  in_footer text competitor = true <->
  Py.vendor_in_footer BeautifulSoup text competitor.
Proof.
  unfold in_footer, Py.vendor_in_footer. cbv zeta.
  destruct (Bs.find "footer" _) as [footer|].
  - rewrite StrFacts.contains_substring. split.
    + intros H. by exists footer.
    + by intros [f [[= <-] H]].
  - split; [done | by intros [f [? _]]].
Qed.


Lemma find_never {A} (l : list A) : List.find (fun _ => false) l = None.
Proof. by induction l. Qed.

(** The two loops of the matcher, one after the other. *)
Lemma match_document_scans text :
  Py.match_document BeautifulSoup competitors text =
  match List.find (general text) cs with
  | Some competitor => (true, Some competitor)
  | None =>
      match List.find (in_footer text) cs with
      | Some competitor => (true, Some competitor)
      | None => (false, None)
      end
  end.
Proof.
  unfold Py.match_document, in_footer. cbv zeta. fold cs.
  change (List.find _ cs) with (List.find (general text) cs) at 1.
  destruct (List.find (general text) cs); [done|].
  destruct (Bs.find "footer" _) as [footer|]; [done|].
  by rewrite find_never.
Qed.

(** A vendor found in the footer is a vendor in the visible text of the
    page when the text of the footer holds no capital sigma, and when the
    name of the vendor holds no small sigma. *)
Lemma footer_in_page text competitor :
  (forall footer, Bs.find "footer" (BeautifulSoup text) = Some footer ->
     Str.has Str.capital_sigma (Bs.get_text footer) = false) \/
  Str.sigma_free competitor = true ->
  Py.vendor_in_footer BeautifulSoup text competitor ->
  Py.vendor_in_page BeautifulSoup text competitor.
Proof.
  intros Hplain [footer [Hf H]]. left.
  pose proof (BsFacts.find_get_text _ _ _ Hf) as Hsub.
  destruct Hplain as [Hplain|Hfree].
  - eapply StrFacts.substring_trans; [exact H|].
    apply StrFacts.substring_lower; [by apply Hplain | done].
  - by apply (StrFacts.substring_lower_sigma_free _ (Bs.get_text footer)).
Qed.

Lemma general_scan_occurs text competitor :
  (forall footer, Bs.find "footer" (BeautifulSoup text) = Some footer ->
     Str.has Str.capital_sigma (Bs.get_text footer) = false) \/
  Str.sigma_free competitor = true ->
  general text competitor = true <->
  Py.vendor_occurs BeautifulSoup text competitor.
Proof.
  intros Hplain. rewrite general_scan_page. split.
  - intros [H|H]; [by left | by right; left].
  - intros [H|[H|H]]; [by left | by right |].
    by apply footer_in_page.
Qed.

Lemma footer_scan_adds_nothing text :
  (forall footer, Bs.find "footer" (BeautifulSoup text) = Some footer ->
     Str.has Str.capital_sigma (Bs.get_text footer) = false) \/
  (forall competitor, In competitor cs -> Str.sigma_free competitor = true) ->
  List.find (general text) cs = None ->
  List.find (in_footer text) cs = None.
Proof.
  intros Hplain Hnone.
  destruct (List.find (in_footer text) cs) as [c|] eqn:E; [|done].
  apply find_some in E as [Hin Hc].
  pose proof (find_none _ _ Hnone _ Hin) as Hg.
  assert (general text c = true) as Ht; [|congruence].
  apply general_scan_page, footer_in_page; [|by apply footer_scan_footer].
  destruct Hplain as [H|H]; [by left | right; by apply H].
Qed.

Lemma match_document_general text :
  (forall footer, Bs.find "footer" (BeautifulSoup text) = Some footer ->
     Str.has Str.capital_sigma (Bs.get_text footer) = false) \/
  (forall competitor, In competitor cs -> Str.sigma_free competitor = true) ->
  Py.match_document BeautifulSoup competitors text =
  match List.find (general text) cs with
  | Some competitor => (true, Some competitor)
  | None => (false, None)
  end.
Proof.
  intros Hplain. rewrite match_document_scans.
  destruct (List.find (general text) cs) eqn:E1; [done|].
  by rewrite (footer_scan_adds_nothing text Hplain E1).
Qed.

Lemma find_first {A} (f : A -> bool) pre x post :
  (forall y, In y pre -> f y = false) -> f x = true ->
  List.find f (pre ++ x :: post) = Some x.
Proof.
  intros Hpre Hx. induction pre as [|y pre IH]; simpl.
  - by rewrite Hx.
  - rewrite (Hpre y) by (by left). apply IH. intros z Hz. apply Hpre. by right.
Qed.

End Matcher.
End MatcherFacts.

(** ** The matcher against what a pattern denotes *)

Module ReFacts.
Import Re ReSem.

Lemma rmatch_sound r : forall st k res,
  rmatch r st k = Some res ->
  exists st', steps r st st' /\ k st' = Some res.
Proof.
  induction r as [|p|r1 IH1 r2 IH2|r1 IH1 r2 IH2|r1 IH1|n r1 IH1|];
    intros st k res H; simpl in H.
  - by exists st.
  - destruct st as [pv [|c t] cp]; simpl in *; [done|].
    destruct (p c) eqn:Hp; [|done].
    exists (MState (Some c) t cp). split; [|done]. by exists c.
  - apply IH1 in H as [mid [H1 H]]. apply IH2 in H as [st' [H2 H]].
    exists st'. split; [|done]. by exists mid.
  - destruct (rmatch r1 st k) eqn:E.
    + apply IH1 in E as [st' [H1 E]]. exists st'. split; [by left | congruence].
    + apply IH2 in H as [st' [H2 H]]. exists st'. split; [by right | done].
  - revert H. generalize (length (rest st)). intros fuel. revert st.
    induction fuel as [|fuel IHf]; intros st H.
    + exists st. split; [apply rtc_refl | done].
    + destruct (rmatch r1 st _) eqn:E.
      * injection H as ->. apply IH1 in E as [st1 [H1 E]].
        destruct (advances st st1); [|done].
        apply IHf in E as [st' [Hrt E]].
        exists st'. split; [|done]. by eapply rtc_l.
      * exists st. split; [apply rtc_refl | done].
  - apply IH1 in H as [mid [H1 H]]. eexists. split; [|exact H]. by exists mid.
  - destruct (word_boundary st) eqn:E; [|done]. by exists st.
Qed.

Lemma steps_groupless r : forall st st',
  groupless r = true -> steps r st st' -> caps st' = caps st.
Proof.
  induction r as [|p|r1 IH1 r2 IH2|r1 IH1 r2 IH2|r1 IH1|n r1 IH1|];
    intros st st' Hg H; simpl in *.
  - by subst.
  - by destruct H as [c (_ & _ & _ & ?)].
  - apply andb_true_iff in Hg as [? ?]. destruct H as [mid [? ?]].
    rewrite (IH2 mid st'), (IH1 st mid); done.
  - apply andb_true_iff in Hg as [? ?]. destruct H; eauto.
  - induction H as [a|a b c Hab _ IH]; [done|].
    rewrite IH. by apply IH1.
  - done.
  - by destruct H as [-> _].
Qed.

(** A successful search comes from one pass through the pattern that
    starts with no group set. *)
Lemma search_from_sound r : forall s p pos m,
  search_from r p s pos = Some m ->
  exists st st', caps st = [] /\ steps r st st' /\ m_groups m = caps st'.
Proof.
  induction s as [|c s IH]; intros p pos m H; simpl in H.
  - unfold match_here in H. destruct (rmatch r _ Some) as [st'|] eqn:E; [|done].
    apply rmatch_sound in E as [st2 [Hs E]]. simplify_eq.
    by exists (MState p [] []), st'.
  - unfold match_here in H. destruct (rmatch r _ Some) as [st'|] eqn:E.
    + apply rmatch_sound in E as [st2 [Hs E]]. simplify_eq.
      by exists (MState p (c :: s) []), st'.
    + by apply IH in H.
Qed.

Lemma search_sound r s m :
  search r s = Some m ->
  exists st st', caps st = [] /\ steps r st st' /\ m_groups m = caps st'.
Proof. apply search_from_sound. Qed.

(** [re.sub] with one character class and an empty replacement removes the
    characters of the class. *)
Lemma match_nonempty_set p pv c t :
  match_nonempty (Set_ p) pv (c :: t) = if p c then Some 1 else None.
Proof.
  unfold match_nonempty, advances. cbn [rmatch rest caps].
  destruct (p c); [|done]. cbn [rest length].
  assert ((length t <? S (length t)) = true) as -> by (apply Nat.ltb_lt; lia).
  f_equal. cbn [rest]. lia.
Qed.

Lemma sub_from_set p s : forall pv,
  sub_from (Set_ p) [] pv s 0 = List.filter (fun c => negb (p c)) s.
Proof.
  induction s as [|c t IH]; intros pv; [done|].
  cbn [sub_from]. rewrite match_nonempty_set. simpl.
  destruct (p c); simpl; by rewrite IH.
Qed.

Lemma sub_set p s : sub (Set_ p) [] s = List.filter (fun c => negb (p c)) s.
Proof. apply sub_from_set. Qed.

End ReFacts.

Module ReComplete.
Import Re ReSem ReFacts.

Lemma steps_length r : forall st st',
  steps r st st' ->
  length (rest st') <= length (rest st) /\
  (consuming r = true -> length (rest st') < length (rest st)).
Proof.
  induction r as [|p|r1 IH1 r2 IH2|r1 IH1 r2 IH2|r1 IH1|n r1 IH1|];
    intros st st' H; simpl in *.
  - subst. split; [lia | done].
  - destruct H as [c (Hr & _)]. rewrite Hr. simpl. split; lia.
  - destruct H as [mid [H1 H2]]. apply IH1 in H1 as [? ?].
    apply IH2 in H2 as [? ?]. split; [lia|].
    intros [?|?]%orb_true_iff; [specialize (H0 H3) | specialize (H2 H3)]; lia.
  - destruct H as [H|H]; [apply IH1 in H | apply IH2 in H];
      destruct H as [? Hc]; (split; [lia|]);
      intros [? ?]%andb_true_iff; apply Hc; done.
  - split; [|done]. induction H as [a|a b c Hab _ IH]; [lia|].
    apply IH1 in Hab as [? _]. lia.
  - destruct H as [mid [H ->]]. apply IH1 in H as [? ?]. done.
  - destruct H as [-> _]. split; [lia | done].
Qed.

Lemma rmatch_complete r : well_formed r = true ->
  forall st st' k,
    steps r st st' -> is_Some (k st') -> is_Some (rmatch r st k).
Proof.
  induction r as [|p|r1 IH1 r2 IH2|r1 IH1 r2 IH2|r1 IH1|n r1 IH1|];
    intros Hwf st st' k H Hk; simpl in *.
  - by subst.
  - destruct H as [c (Hr & Hp & Hv & Hc)]. rewrite Hr, Hp.
    destruct st' as [pv' t' cp']. simpl in *. by subst.
  - apply andb_true_iff in Hwf as [Hw1 Hw2]. destruct H as [mid [H1 H2]].
    eapply IH1; [done | exact H1 |]. by eapply IH2.
  - apply andb_true_iff in Hwf as [Hw1 Hw2].
    destruct H as [H|H].
    + destruct (IH1 Hw1 st st' k H Hk) as [x ->]. by exists x.
    + destruct (rmatch r1 st k); [by eexists|]. by eapply IH2.
  - apply andb_true_iff in Hwf as [Hc Hw].
    assert (forall fuel, length (rest st) <= fuel ->
      is_Some ((fix loop (fuel : nat) (st0 : mstate) {struct fuel} :=
         match fuel with
         | 0 => k st0
         | S fuel' =>
             match rmatch r1 st0
                     (fun st1 => if advances st0 st1 then loop fuel' st1
                                 else None) with
             | Some res => Some res
             | None => k st0
             end
         end) fuel st)) as Hloop; [|by apply Hloop].
    induction H as [a|a b c Hab Hbc IH]; intros fuel Hfuel.
    + destruct fuel; [done|]. by destruct (rmatch r1 a _); [eexists|].
    + pose proof (steps_length r1 a b Hab) as [_ Hlt]. specialize (Hlt Hc).
      destruct fuel as [|fuel]; [lia|].
      match goal with
      | |- is_Some (match ?e with _ => _ end) =>
          assert (is_Some e) as [x ->]; [|by eexists]
      end.
      eapply IH1; [done | exact Hab |]. unfold advances.
      assert ((length (rest b) <? length (rest a)) = true) as ->
        by (apply Nat.ltb_lt; lia).
      apply IH; [done | lia].
  - destruct H as [mid [H ->]]. by eapply IH1.
  - destruct H as [-> ->]. done.
Qed.

Lemma search_from_complete r s :
  (forall p, is_Some (match_here r p s)) ->
  forall before p pos, is_Some (search_from r p (before ++ s) pos).
Proof.
  intros Hs before. induction before as [|c t IH]; intros p pos.
  - simpl. destruct s; simpl; destruct (Hs p) as [x Hx];
      unfold match_here in *; rewrite Hx; by eexists.
  - simpl. destruct (match_here r p (c :: t ++ s)); [by eexists | apply IH].
Qed.

Lemma search_complete r needle text :
  (forall p after, is_Some (match_here r p (needle ++ after))) ->
  Str.substring needle text -> is_Some (search r text).
Proof.
  intros Hs [before [after ->]]. apply search_from_complete.
  intros p. apply Hs.
Qed.

Lemma steps_set_intro (p : ascii -> bool) pv c t cp :
  p c = true -> steps (Set_ p) (MState pv (c :: t) cp) (MState (Some c) t cp).
Proof. intros H. by exists c. Qed.

End ReComplete.

(** ** Loops *)

Module LoopFacts.
Import Batch.

Section Loop.
Context {A R : Type}.
Variable step : A -> nat -> list R * nat.

#[local] Abbreviation loop_from := (Batch.loop_from step).
#[local] Abbreviation loop := (Batch.loop step).

Lemma loop_from_acc xs acc clock :
  loop_from xs acc clock = (acc ++ fst (loop xs clock), snd (loop xs clock)).
Proof.
  unfold Batch.loop. revert acc clock.
  induction xs as [|x xs IH]; intros acc clock; simpl.
  - by rewrite app_nil_r.
  - rewrite (IH (acc ++ _)), (IH (fst (step x clock))). simpl.
    by rewrite app_assoc.
Qed.

Lemma loop_cons x xs clock :
  loop (x :: xs) clock =
  (fst (step x clock) ++ fst (loop xs (snd (step x clock))),
   snd (loop xs (snd (step x clock)))).
Proof. unfold Batch.loop at 1. simpl. by rewrite loop_from_acc. Qed.

Lemma loop_app xs ys clock :
  loop (xs ++ ys) clock =
  (fst (loop xs clock) ++ fst (loop ys (snd (loop xs clock))),
   snd (loop ys (snd (loop xs clock)))).
Proof.
  revert clock. induction xs as [|x xs IH]; intros clock.
  - simpl. by destruct (loop ys clock).
  - rewrite <- app_comm_cons, !loop_cons, IH. simpl. by rewrite app_assoc.
Qed.

Lemma loop_step xs i x clock :
  xs !! i = Some x ->
  fst (loop (take (S i) xs) clock) =
  fst (loop (take i xs) clock) ++ fst (step x (snd (loop (take i xs) clock))).
Proof.
  intros Hi. rewrite (take_S_r _ _ _ Hi), loop_app, loop_cons. simpl.
  by rewrite app_nil_r.
Qed.

Lemma loop_prefix xs i clock :
  exists later, fst (loop xs clock) = fst (loop (take i xs) clock) ++ later.
Proof.
  exists (fst (loop (drop i xs) (snd (loop (take i xs) clock)))).
  by rewrite <- (take_drop i xs) at 1; rewrite loop_app.
Qed.

Lemma loop_length xs clock :
  (forall x c, length (fst (step x c)) <= 1) ->
  length (fst (loop xs clock)) <= length xs.
Proof.
  intros Hstep. revert clock. induction xs as [|x xs IH]; intros clock.
  - simpl. lia.
  - rewrite loop_cons. simpl. rewrite length_app.
    specialize (Hstep x clock). specialize (IH (snd (step x clock))). lia.
Qed.

Lemma loop_elem xs clock r :
  In r (fst (loop xs clock)) <->
  exists i x, xs !! i = Some x /\
    In r (fst (step x (snd (loop (take i xs) clock)))).
Proof.
  induction xs as [|x xs IH] using rev_ind.
  - simpl. split; [done|]. intros [i [x [Hi _]]]. by destruct i.
  - rewrite loop_app, loop_cons. simpl.
    rewrite app_nil_r, in_app_iff, IH. split.
    + intros [[i [y [Hi Hr]]] | Hr].
      * exists i, y. split; [by apply lookup_app_l_Some|].
        rewrite take_app_le; [done|]. apply lookup_lt_Some in Hi. lia.
      * exists (length xs), x. split.
        { by rewrite list_lookup_middle. }
        { by rewrite take_app_length. }
    + intros [i [y [Hi Hr]]].
      destruct (decide (i < length xs)) as [Hlt|Hge].
      * left. exists i, y. rewrite lookup_app_l in Hi by done.
        split; [done|]. rewrite take_app_le in Hr by lia. done.
      * right. rewrite lookup_app_r in Hi by lia.
        assert (i = length xs) as ->.
        { apply lookup_lt_Some in Hi. simpl in Hi. lia. }
        rewrite Nat.sub_diag in Hi. simpl in Hi. injection Hi as <-.
        by rewrite take_app_length in Hr.
Qed.

End Loop.
End LoopFacts.

(** ** The record assembler of py.py *)

Module AssemblerFacts.
Import Py.

Lemma same_site_refl d : same_site d d.
Proof. by split. Qed.

Lemma same_site_trans d1 d2 d3 :
  same_site d1 d2 -> same_site d2 d3 -> same_site d1 d3.
Proof. intros [? ?] [? ?]. split; congruence. Qed.

Lemma format_contact_info_site phones emails d :
  same_site d (format_contact_info phones emails d).
Proof.
  unfold format_contact_info.
  destruct phones, emails; simpl; by split.
Qed.

Lemma search_doctor_site patterns text d :
  same_site d (search_doctor patterns text d).
Proof.
  induction patterns as [|p ps IH]; simpl; [by split|].
  destruct (Re.search p text); [|done].
  destruct (Re.search credentials_pattern _); by split.
Qed.

Lemma search_about_sections_site sections d :
  same_site d (search_about_sections sections d).
Proof.
  revert d. induction sections as [|s ss IH]; intros d; simpl; [by split|].
  pose proof (search_doctor_site doctor_patterns (Bs.get_text s) d) as H.
  destruct (Str.truthy _); [done|].
  eapply same_site_trans; [exact H | apply IH].
Qed.

Lemma extract_provider_site soup d : same_site d (extract_provider soup d).
Proof.
  unfold extract_provider.
  set (d1 := search_about_sections _ d).
  assert (same_site d d1) by apply search_about_sections_site.
  destruct (negb _); [|done].
  eapply same_site_trans; [eassumption | apply search_doctor_site].
Qed.

Lemma search_city_state_site patterns text d :
  same_site d (search_city_state patterns text d).
Proof.
  induction patterns as [|p ps IH]; simpl; [by split|].
  destruct (Re.search p text); [by split | done].
Qed.

Lemma search_address_elements_site elements d :
  same_site d (search_address_elements elements d).
Proof.
  revert d. induction elements as [|e es IH]; intros d; simpl; [by split|].
  pose proof (search_city_state_site city_state_patterns (Bs.get_text e) d) as H.
  destruct (Str.truthy _); [done|].
  eapply same_site_trans; [exact H | apply IH].
Qed.

Lemma extract_location_site soup d : same_site d (extract_location soup d).
Proof.
  unfold extract_location.
  set (d1 := search_address_elements _ d).
  assert (same_site d d1) by apply search_address_elements_site.
  destruct (negb _); [|done].
  eapply same_site_trans; [eassumption | apply search_city_state_site].
Qed.

Lemma extract_contact_site soup d : same_site d (extract_contact soup d).
Proof. unfold extract_contact. apply format_contact_info_site. Qed.

Section Assembler.
Variable requests_get : nat -> str -> option str.
Variable BeautifulSoup : str -> Bs.node.
Variable competitors : list str.

Lemma clean_clinic_name_site d : same_site d (clean_clinic_name competitors d).
Proof. unfold clean_clinic_name. destruct (Str.truthy _); by split. Qed.

Lemma extract_clinic_name_site soup d d' :
  extract_clinic_name soup d = Some d' -> same_site d d'.
Proof.
  unfold extract_clinic_name. intros H.
  destruct (Bs.find "title" soup).
  - destruct (Bs.string_ _); simplify_eq. by split.
  - destruct (Bs.find_all _ _); simplify_eq; by split.
Qed.

Lemma extract_clinic_data_site url competitor clock :
  same_site (Clinic "" "" "" url "" "" competitor)
    (fst (extract_clinic_data requests_get BeautifulSoup competitors
            url competitor clock)).
Proof.
  unfold extract_clinic_data.
  destruct (requests_get clock url) as [text|]; [|by split].
  destruct (extract_clinic_name _ _) as [d|] eqn:E; [|by split]. simpl.
  apply extract_clinic_name_site in E.
  eapply same_site_trans; [exact E|].
  eapply same_site_trans; [apply clean_clinic_name_site|].
  eapply same_site_trans; [apply extract_provider_site|].
  eapply same_site_trans; [apply extract_location_site|].
  apply extract_contact_site.
Qed.

Lemma extract_clinic_data_clock url competitor clock :
  snd (extract_clinic_data requests_get BeautifulSoup competitors
         url competitor clock) = S clock.
Proof.
  unfold extract_clinic_data.
  destruct (requests_get clock url); [|done].
  by destruct (extract_clinic_name _ _).
Qed.

End Assembler.
End AssemblerFacts.

(** ** The batch loop *)

Module BatchFacts.
Import Batch LoopFacts.

Section Generic.
Context {R : Type}.
Variable check : str -> nat -> (bool * option str) * nat.
Variable extract : str -> option str -> nat -> R * nat.
Variable site_of : str -> str.
Variable url_of : R -> str.
Variable provider_of : R -> option str.
Variable run : list str -> nat -> list R * nat.

#[local] Abbreviation turn := (Batch.turn check extract site_of).

Hypothesis check_vendor : forall url clock,
  (fst (fst (check url clock)) = true /\
   exists v, snd (fst (check url clock)) = Some v) \/
  fst (check url clock) = (false, None).

Hypothesis extract_site : forall url competitor clock,
  url_of (fst (extract url competitor clock)) = url /\
  provider_of (fst (extract url competitor clock)) = competitor.

Hypothesis run_loop : forall urls clock, run urls clock = loop turn urls clock.

Lemma turn_emits url clock :
  fst (turn url clock) =
  if fst (fst (check (site_of url) clock))
  then [fst (extract (site_of url) (snd (fst (check (site_of url) clock)))
               (snd (check (site_of url) clock)))]
  else [].
Proof. unfold Batch.turn. by destruct (fst (fst _)). Qed.

Lemma loop_emits_iff_matched urls clock :
  emits_iff_matched check extract site_of url_of provider_of run urls clock.
Proof.
  unfold emits_iff_matched. cbv zeta. repeat split.
  - rewrite run_loop. apply loop_length. intros x c. rewrite turn_emits.
    destruct (fst (fst _)); simpl; lia.
  - intros i url Hi. rewrite !run_loop, (loop_step _ _ _ _ _ Hi).
    by rewrite turn_emits.
  - intros record Hin. rewrite run_loop in Hin.
    apply loop_elem in Hin as [i [url [Hi Hin]]].
    rewrite turn_emits in Hin. rewrite <- run_loop in Hin.
    remember (snd (run (take i urls) clock)) as reached eqn:Hreached.
    destruct (check_vendor (site_of url) reached) as [[Hf [v Hv]]|Hnone].
    + rewrite Hf in Hin. destruct Hin as [<-|[]].
      exists i, url, v. split; [done|]. rewrite <- Hreached.
      destruct (extract_site (site_of url) (snd (fst (check (site_of url) reached)))
                  (snd (check (site_of url) reached))) as [Hu Hp].
      split; [|split; [done | by rewrite Hp]].
      clear Hu Hp. destruct (check (site_of url) reached) as [[f o] c].
      simpl in *. congruence.
    + rewrite Hnone in Hin. destruct Hin.
  - intros i url Hi Hf.
    remember (snd (run (take i urls) clock)) as reached eqn:Hreached.
    exists (fst (extract (site_of url) (snd (fst (check (site_of url) reached)))
                   (snd (check (site_of url) reached)))).
    split; [|apply extract_site].
    rewrite run_loop. apply loop_elem. exists i, url. split; [done|].
    rewrite turn_emits, <- run_loop, <- Hreached, Hf. by left.
Qed.

End Generic.

Section Py.
Variable requests_get : nat -> str -> option str.
Variable BeautifulSoup : str -> Bs.node.
Variable competitors : list str.

Let check := Py.check_competitor_presence requests_get BeautifulSoup competitors.
Let extract := Py.extract_clinic_data requests_get BeautifulSoup competitors.
Let run := Py.process_urls requests_get BeautifulSoup competitors.

#[local] Abbreviation py_turn := (Batch.turn check extract Py.fix_url).

Lemma py_process_urls_from_loop urls results clock :
  Py.process_urls_from requests_get BeautifulSoup competitors urls results clock
  = loop_from py_turn urls results clock.
Proof.
  revert results clock. induction urls as [|url urls IH]; intros results clock.
  - done.
  - simpl. fold check extract. rewrite <- IH. unfold Batch.turn.
    destruct (check (Py.fix_url url) clock) as [[has competitor] clock1]. simpl.
    destruct has; simpl.
    + by destruct (extract _ _ _) as [d clock2].
    + by rewrite app_nil_r.
Qed.

Lemma py_process_urls_loop urls clock : run urls clock = loop py_turn urls clock.
Proof. apply py_process_urls_from_loop. Qed.

Lemma match_document_vendor text found vendor :
  Py.match_document BeautifulSoup competitors text = (found, vendor) ->
  (found = true /\ exists v, vendor = Some v) \/ (found = false /\ vendor = None).
Proof.
  unfold Py.match_document. cbv zeta. intros H.
  repeat match type of H with
  | context [match ?x with _ => _ end] => destruct x
  end; simplify_eq; eauto.
Qed.

Lemma check_vendor url clock :
  (fst (fst (check url clock)) = true /\
   exists v, snd (fst (check url clock)) = Some v) \/
  fst (check url clock) = (false, None).
Proof.
  unfold check, Py.check_competitor_presence.
  destruct (requests_get clock url) as [text|]; simpl; [|by right].
  destruct (Py.match_document _ _ text) as [found vendor] eqn:E.
  apply match_document_vendor in E as [[-> [v ->]]|[-> ->]]; eauto.
Qed.

Lemma check_clock url clock : snd (check url clock) = S clock.
Proof.
  unfold check, Py.check_competitor_presence.
  by destruct (requests_get clock url).
Qed.

Lemma py_turn_fetch_fails url clock :
  requests_get clock (Py.fix_url url) = None -> py_turn url clock = ([], S clock).
Proof.
  intros H. unfold Batch.turn, check, Py.check_competitor_presence. by rewrite H.
Qed.

Lemma py_turn_length url clock : length (fst (py_turn url clock)) <= 1.
Proof. unfold Batch.turn. destruct (fst (fst _)); simpl; lia. Qed.

End Py.
End BatchFacts.

(** ** Scrap.py *)

Module ScrapFacts.
Import Scrap Batch.

Section Batch.
Variable requests_get : nat -> str -> option str.
Variable BeautifulSoup : str -> Bs.node.
Variable competitors : list str.

Let check := check_competitor_presence requests_get BeautifulSoup competitors.
Let extract := extract_clinic_data requests_get BeautifulSoup.

Lemma scrap_match_document_same text :
  match_document BeautifulSoup competitors text =
  Py.match_document BeautifulSoup competitors text.
Proof. reflexivity. Qed.

Lemma scrap_check_same url clock :
  check url clock =
  Py.check_competitor_presence requests_get BeautifulSoup competitors url clock.
Proof. reflexivity. Qed.

Lemma scrap_search_about_sections_site sections d :
  website_url (search_about_sections sections d) = website_url d /\
  website_provider (search_about_sections sections d) = website_provider d.
Proof.
  induction sections as [|s ss IH]; simpl; [done|].
  destruct (Re.search credentials_pattern _); [|done].
  by destruct (Re.search name_pattern _).
Qed.

Lemma scrap_search_address_elements_site elements d :
  website_url (search_address_elements elements d) = website_url d /\
  website_provider (search_address_elements elements d) = website_provider d.
Proof.
  induction elements as [|e es IH]; simpl; [done|].
  by destruct (Re.search city_state_pattern _).
Qed.

Lemma scrap_extract_clinic_name_site soup d :
  website_url (extract_clinic_name soup d) = website_url d /\
  website_provider (extract_clinic_name soup d) = website_provider d.
Proof.
  unfold extract_clinic_name.
  destruct (match Bs.find "title" soup with Some t => _ | None => _ end)
    as [[|c s]|]; try done; by destruct (Bs.find "h1" soup).
Qed.

Lemma scrap_extract_contact_site text d :
  website_url (extract_contact text d) = website_url d /\
  website_provider (extract_contact text d) = website_provider d.
Proof.
  unfold extract_contact. by destruct (_ ++ _).
Qed.

Lemma scrap_extract_clinic_data_site url competitor clock :
  website_url (fst (extract url competitor clock)) = url /\
  website_provider (fst (extract url competitor clock)) = competitor.
Proof.
  unfold extract, extract_clinic_data.
  destruct (requests_get clock url) as [text|]; [|done]. simpl.
  destruct (scrap_extract_contact_site text
    (search_address_elements
       (Bs.find_all_attr ["address"; "div"; "p"] "class"
          (Py.class_has ["address"; "location"]) (BeautifulSoup text))
       (search_about_sections
          (Bs.find_all_attr ["div"; "section"] "class"
             (Py.class_has ["about"; "doctor"; "team"]) (BeautifulSoup text))
          (extract_clinic_name (BeautifulSoup text)
             (Clinic None None None url None None competitor))))) as [-> ->].
  destruct (scrap_search_address_elements_site
    (Bs.find_all_attr ["address"; "div"; "p"] "class"
          (Py.class_has ["address"; "location"]) (BeautifulSoup text))
       (search_about_sections
          (Bs.find_all_attr ["div"; "section"] "class"
             (Py.class_has ["about"; "doctor"; "team"]) (BeautifulSoup text))
          (extract_clinic_name (BeautifulSoup text)
             (Clinic None None None url None None competitor)))) as [-> ->].
  destruct (scrap_search_about_sections_site
          (Bs.find_all_attr ["div"; "section"] "class"
             (Py.class_has ["about"; "doctor"; "team"]) (BeautifulSoup text))
          (extract_clinic_name (BeautifulSoup text)
             (Clinic None None None url None None competitor))) as [-> ->].
  by destruct (scrap_extract_clinic_name_site (BeautifulSoup text)
             (Clinic None None None url None None competitor)) as [-> ->].
Qed.

Lemma scrap_process_urls_from_loop urls results clock :
  process_urls_from requests_get BeautifulSoup competitors urls results clock
  = loop_from (Batch.turn check extract id) urls results clock.
Proof.
  revert results clock. induction urls as [|url urls IH]; intros results clock.
  - done.
  - simpl. fold check extract. rewrite <- IH. unfold Batch.turn, id.
    destruct (check url clock) as [[has competitor] clock1]. simpl.
    destruct has; simpl.
    + by destruct (extract _ _ _) as [d clock2].
    + by rewrite app_nil_r.
Qed.

End Batch.
End ScrapFacts.

(** ** Duplicates *)

Module DedupFacts.
Import Scrapper.

Lemma remove_duplicates_from_acc all acc seen :
  remove_duplicates_from all acc seen =
  acc ++ remove_duplicates_from all [] seen.
Proof.
  revert acc seen. induction all as [|p all IH]; intros acc seen; simpl.
  - by rewrite app_nil_r.
  - case_bool_decide; [apply IH|].
    rewrite (IH (acc ++ [p])), (IH ([] ++ [p])). by rewrite <- app_assoc.
Qed.

Lemma remove_duplicates_from_cons p all seen :
  remove_duplicates_from (p :: all) [] seen =
  if bool_decide (url p ∈ seen)
  then remove_duplicates_from all [] seen
  else p :: remove_duplicates_from all [] ({[url p]} ∪ seen).
Proof.
  simpl. case_bool_decide; [done|]. by rewrite remove_duplicates_from_acc.
Qed.

Lemma remove_duplicates_from_elem all : forall seen p,
  In p (remove_duplicates_from all [] seen) <->
  exists i, all !! i = Some p /\ (url p ∉ seen) /\
    forall j q, j < i -> all !! j = Some q -> url q <> url p.
Proof.
  induction all as [|a all IH]; intros seen p.
  - simpl. split; [done|]. by intros [i [Hi _]].
  - rewrite remove_duplicates_from_cons. case_bool_decide as Ha.
    + rewrite IH. split.
      * intros [i (Hi & Hs & Hfirst)]. exists (S i). repeat split; [done..|].
        intros [|j] q Hj Hq; simpl in Hq.
        { injection Hq as <-. intros Heq. apply Hs. by rewrite <- Heq. }
        { apply (Hfirst j); [lia | done]. }
      * intros [[|i] (Hi & Hs & Hfirst)]; simpl in Hi.
        { injection Hi as <-. done. }
        { exists i. repeat split; [done..|].
          intros j q Hj Hq. apply (Hfirst (S j)); [lia | done]. }
    + simpl. rewrite IH. split.
      * intros [<- | [i (Hi & Hs & Hfirst)]].
        { exists 0. repeat split; [done..|]. intros j q Hj. lia. }
        { rewrite not_elem_of_union, not_elem_of_singleton in Hs.
          destruct Hs as [Hne Hs].
          exists (S i). repeat split; [done..|].
          intros [|j] q Hj Hq; simpl in Hq.
          - injection Hq as <-. congruence.
          - apply (Hfirst j); [lia | done]. }
      * intros [[|i] (Hi & Hs & Hfirst)]; simpl in Hi.
        { injection Hi as <-. by left. }
        { right. exists i. repeat split; [done| |].
          - assert (url a <> url p) by (apply (Hfirst 0); [lia | done]).
            rewrite not_elem_of_union, not_elem_of_singleton. split; congruence.
          - intros j q Hj Hq. apply (Hfirst (S j)); [lia | done]. }
Qed.

Lemma remove_duplicates_from_fresh all seen p :
  In p (remove_duplicates_from all [] seen) -> url p ∉ seen.
Proof. rewrite remove_duplicates_from_elem. by intros [i (_ & ? & _)]. Qed.

Lemma remove_duplicates_from_NoDup all : forall seen,
  NoDup (map url (remove_duplicates_from all [] seen)).
Proof.
  induction all as [|a all IH]; intros seen.
  - constructor.
  - rewrite remove_duplicates_from_cons. case_bool_decide; [apply IH|].
    simpl. constructor; [|apply IH].
    rewrite list_elem_of_In, in_map_iff. intros [q [Heq Hq]].
    apply remove_duplicates_from_fresh in Hq.
    rewrite not_elem_of_union, not_elem_of_singleton in Hq. by destruct Hq.
Qed.

Lemma remove_duplicates_from_sublist all : forall seen,
  sublist (remove_duplicates_from all [] seen) all.
Proof.
  induction all as [|a all IH]; intros seen.
  - constructor.
  - rewrite remove_duplicates_from_cons. case_bool_decide.
    + apply sublist_cons, IH.
    + apply sublist_skip, IH.
Qed.

End DedupFacts.

(** ** Contact details *)

Module ContactFacts.
Import Py.

Lemma digits_only phone :
  Re.sub non_digit "" phone = List.filter Str.is_digit phone.
Proof.
  unfold non_digit. rewrite ReFacts.sub_set.
  induction phone as [|c t IH]; [done|]. simpl.
  rewrite negb_involutive, IH. done.
Qed.

End ContactFacts.

(** ** City and state *)

Module LocationFacts.
Import Re ReSem ReFacts Py.

Lemma steps_set p st st' :
  steps (Set_ p) st st' ->
  exists c, rest st = c :: rest st' /\ p c = true /\ caps st' = caps st.
Proof. intros [c (? & ? & _ & ?)]. eauto. Qed.

Lemma steps_group_caps n r st st' :
  groupless r = true -> steps (Group n r) st st' ->
  exists mid, steps r st mid /\ caps st' = (n, consumed st mid) :: caps st.
Proof.
  intros Hg [mid [Hs ->]]. exists mid. split; [done|]. simpl.
  by rewrite (steps_groupless r st mid Hg Hs).
Qed.

Lemma steps_state_group st st' :
  steps state_group st st' ->
  exists a b, caps st' = (2, [a; b]) :: caps st /\
    Str.is_upper a = true /\ Str.is_upper b = true.
Proof.
  intros H. apply steps_group_caps in H as [mid [Hs Hc]]; [|done].
  destruct Hs as [x [Ha [y [Hb ->]]]].
  apply steps_set in Ha as [a (Hra & Hua & _)].
  apply steps_set in Hb as [b (Hrb & Hub & _)].
  exists a, b. split; [|done]. rewrite Hc. unfold consumed.
  rewrite Hra, Hrb. simpl.
  replace (S (S (length (rest y))) - length (rest y)) with 2 by lia. done.
Qed.

Lemma city_state_zip_groups st st' :
  caps st = [] -> steps city_state_zip_pattern st st' ->
  exists city a b, caps st' = [(2, [a; b]); (1, city)] /\
    Str.is_upper a = true /\ Str.is_upper b = true.
Proof.
  intros H0 (m1 & H1 & m2 & H2 & m3 & H3 & m4 & H4 & m5 & H5 & H6).
  apply steps_group_caps in H1 as [mid [_ Hc1]]; [|done].
  apply steps_groupless in H2; [|done]. apply steps_groupless in H3; [|done].
  apply steps_state_group in H4 as (a & b & Hc4 & Ha & Hb).
  apply steps_groupless in H5; [|done]. apply steps_groupless in H6; [|done].
  exists (consumed st mid), a, b. split; [|done]. congruence.
Qed.

Lemma city_state_groups st st' :
  caps st = [] -> steps city_state_pattern st st' ->
  exists city a b, caps st' = [(2, [a; b]); (1, city)] /\
    Str.is_upper a = true /\ Str.is_upper b = true.
Proof.
  intros H0 (m1 & H1 & m2 & H2 & m3 & H3 & H4).
  apply steps_group_caps in H1 as [mid [_ Hc1]]; [|done].
  apply steps_groupless in H2; [|done]. apply steps_groupless in H3; [|done].
  apply steps_state_group in H4 as (a & b & Hc4 & Ha & Hb).
  exists (consumed st mid), a, b. split; [|done]. congruence.
Qed.

Lemma search_state_group pattern text m :
  In pattern city_state_patterns -> search pattern text = Some m ->
  exists a b, group 2 m = [a; b] /\
    Str.is_upper a = true /\ Str.is_upper b = true.
Proof.
  intros Hin Hs. apply search_sound in Hs as (st & st' & H0 & Hsteps & Hg).
  assert (exists city a b, caps st' = [(2, [a; b]); (1, city)] /\
            Str.is_upper a = true /\ Str.is_upper b = true)
    as (city & a & b & Hc & Ha & Hb).
  { destruct Hin as [<-|[<-|[]]];
      [by eapply city_state_zip_groups | by eapply city_state_groups]. }
  exists a, b. split; [|done]. unfold group. by rewrite Hg, Hc.
Qed.

Lemma format_city_state_truthy m : Str.truthy (format_city_state m) = true.
Proof. unfold format_city_state. by destruct (Str.strip _). Qed.

Lemma search_city_state_unfold text d :
  search_city_state city_state_patterns text d =
  match search city_state_zip_pattern text with
  | Some m => set_city_state (format_city_state m) d
  | None =>
      match search city_state_pattern text with
      | Some m => set_city_state (format_city_state m) d
      | None => d
      end
  end.
Proof. reflexivity. Qed.

Lemma search_city_state_none text d :
  found_in city_state_patterns text = false ->
  search_city_state city_state_patterns text d = d.
Proof.
  rewrite search_city_state_unfold. unfold found_in, city_state_patterns.
  cbn [existsb].
  destruct (search city_state_zip_pattern text); [done|].
  by destruct (search city_state_pattern text).
Qed.

Lemma search_city_state_some text d :
  found_in city_state_patterns text = true ->
  Str.truthy (city_state (search_city_state city_state_patterns text d)) = true.
Proof.
  rewrite search_city_state_unfold. unfold found_in, city_state_patterns.
  cbn [existsb].
  destruct (search city_state_zip_pattern text);
    [intros _; apply format_city_state_truthy|].
  destruct (search city_state_pattern text);
    [intros _; apply format_city_state_truthy | done].
Qed.

Lemma search_address_elements_first before element after d :
  Str.truthy (city_state d) = false ->
  (forall e, In e before ->
     found_in city_state_patterns (Bs.get_text e) = false) ->
  found_in city_state_patterns (Bs.get_text element) = true ->
  search_address_elements (before ++ element :: after) d =
  search_city_state city_state_patterns (Bs.get_text element) d.
Proof.
  intros Hd Hbefore He.
  induction before as [|e es IH]; cbn [app search_address_elements].
  - by rewrite search_city_state_some.
  - rewrite search_city_state_none by (apply Hbefore; by left).
    rewrite Hd. apply IH. intros e' He'. apply Hbefore. by right.
Qed.

Lemma search_address_elements_none elements d :
  Str.truthy (city_state d) = false ->
  (forall e, In e elements ->
     found_in city_state_patterns (Bs.get_text e) = false) ->
  search_address_elements elements d = d.
Proof.
  intros Hd Hnone.
  induction elements as [|e es IH]; cbn [search_address_elements]; [done|].
  rewrite search_city_state_none by (apply Hnone; by left).
  rewrite Hd. apply IH. intros e' He'. apply Hnone. by right.
Qed.

Lemma search_city_state_format text d :
  search_city_state city_state_patterns text d = d \/
  exists city a b,
    city_state (search_city_state city_state_patterns text d) =
    city ++ ", " ++ [a; b] /\
    Str.is_upper a = true /\ Str.is_upper b = true.
Proof.
  rewrite search_city_state_unfold.
  destruct (search city_state_zip_pattern text) as [m|] eqn:E1.
  - right. apply search_state_group in E1 as (a & b & Hg & Ha & Hb);
      [|by left].
    exists (Str.strip (group 1 m)), a, b. simpl. unfold format_city_state.
    by rewrite Hg.
  - destruct (search city_state_pattern text) as [m|] eqn:E2; [|by left].
    right. apply search_state_group in E2 as (a & b & Hg & Ha & Hb);
      [|by right; left].
    exists (Str.strip (group 1 m)), a, b. simpl. unfold format_city_state.
    by rewrite Hg.
Qed.

Lemma find_first_split {A} (f : A -> bool) l :
  existsb f l = true ->
  exists before x after, l = before ++ x :: after /\
    (forall y, In y before -> f y = false) /\ f x = true.
Proof.
  induction l as [|a l IH]; simpl; [done|].
  destruct (f a) eqn:Ha.
  - intros _. exists [], a, l. by repeat split.
  - simpl. intros H. apply IH in H as (before & x & after & -> & Hb & Hx).
    exists (a :: before), x, after. repeat split; [|done].
    intros y [<-|Hy]; [done | by apply Hb].
Qed.

Lemma extract_location_format soup d :
  city_state d = [] ->
  city_state (extract_location soup d) = [] \/
  exists city a b,
    city_state (extract_location soup d) = city ++ ", " ++ [a; b] /\
    Str.is_upper a = true /\ Str.is_upper b = true.
Proof.
  intros Hd. unfold extract_location.
  destruct (existsb (fun e => found_in city_state_patterns (Bs.get_text e))
              (address_elements soup)) eqn:E.
  - apply find_first_split in E as (before & x & after & -> & Hb & Hx).
    rewrite search_address_elements_first; [|by rewrite Hd|done..].
    rewrite (search_city_state_some _ _ Hx). cbn [negb].
    destruct (search_city_state_format (Bs.get_text x) d) as [Heq|H]; [|by right].
    pose proof (search_city_state_some _ d Hx) as Ht. rewrite Heq, Hd in Ht.
    done.
  - rewrite search_address_elements_none; [|by rewrite Hd|].
    + rewrite Hd. cbn [negb Str.truthy].
      destruct (search_city_state_format (Bs.get_text soup) d) as [->|H];
        [by left | by right].
    + intros e He. destruct (found_in _ (Bs.get_text e)) eqn:Ef; [|done].
      assert (existsb (fun e => found_in city_state_patterns (Bs.get_text e))
                (address_elements soup) = true); [|congruence].
      apply existsb_exists. eauto.
Qed.

End LocationFacts.

Module ZipExample.
Import Re ReSem ReFacts ReComplete Py.

Ltac run_set := apply steps_set_intro; reflexivity.
Ltac run_star :=
  first [ eapply rtc_l; [run_set|]; run_star | apply rtc_refl ].

Lemma zip_match_here p after :
  is_Some (match_here city_state_zip_pattern p ("Somewhere, CA 92101" ++ after)).
Proof.
  unfold match_here.
  eapply (rmatch_complete city_state_zip_pattern eq_refl); [|by eexists].
  cbn [app]. unfold city_state_zip_pattern, city_group, state_group.
  cbn [Seq Rep Plus steps].
  eexists. split.
  { eexists. split; [|reflexivity].
    eexists. split; [run_set|]. eexists. split; [run_set|]. run_star. }
  eexists. split; [run_set|].
  eexists. split; [run_star|].
  eexists. split.
  { eexists. split; [|reflexivity].
    eexists. split; [run_set|]. eexists. split; [run_set|]. reflexivity. }
  eexists. split; [run_star|].
  eexists. split; [run_set|]. eexists. split; [run_set|].
  eexists. split; [run_set|]. eexists. split; [run_set|].
  eexists. split; [run_set|]. reflexivity.
Qed.

Lemma zip_found text :
  Str.substring "Somewhere, CA 92101" text ->
  is_Some (search city_state_zip_pattern text).
Proof. apply search_complete. intros p after. apply zip_match_here. Qed.

End ZipExample.

(** ** Provider name and credentials *)

Module ProviderFacts.
Import Re ReSem ReFacts ReComplete Py.

Lemma consumed_nonempty st mid :
  length (rest mid) < length (rest st) -> Str.truthy (consumed st mid) = true.
Proof.
  unfold consumed. intros Hlt.
  destruct (rest st) as [|c t] eqn:E; simpl in *; [lia|].
  destruct (S (length t) - length (rest mid)) eqn:En; [lia | done].
Qed.

Lemma steps_name_group st st' :
  steps (Group 1 first_last) st st' ->
  exists name, caps st' = (1, name) :: caps st /\ Str.truthy name = true.
Proof.
  intros H. apply LocationFacts.steps_group_caps in H as [mid [Hs Hc]]; [|done].
  exists (consumed st mid). split; [done|]. apply consumed_nonempty.
  by apply (steps_length first_last st mid Hs).
Qed.

Lemma doctor_pattern_groups pattern st st' :
  In pattern doctor_patterns -> caps st = [] -> steps pattern st st' ->
  exists name, caps st' = [(1, name)] /\ Str.truthy name = true.
Proof.
  intros [<-|[<-|[<-|[]]]] H0.
  - intros (m1 & H1 & m2 & H2 & H3).
    apply steps_groupless in H1; [|done]. apply steps_groupless in H2; [|done].
    apply steps_name_group in H3 as (name & Hc & Hn).
    exists name. split; [congruence | done].
  - intros (m1 & H1 & m2 & H2 & m3 & H3 & H4).
    apply steps_name_group in H1 as (name & Hc & Hn).
    apply steps_groupless in H2; [|done]. apply steps_groupless in H3; [|done].
    apply steps_groupless in H4; [|done].
    exists name. split; [congruence | done].
  - intros (m1 & H1 & m2 & H2 & H3).
    apply steps_name_group in H1 as (name & Hc & Hn).
    apply steps_groupless in H2; [|done]. apply steps_groupless in H3; [|done].
    exists name. split; [congruence | done].
Qed.

Lemma doctor_name_truthy pattern text m :
  In pattern doctor_patterns -> search pattern text = Some m ->
  Str.truthy (group 1 m) = true.
Proof.
  intros Hin Hs. apply search_sound in Hs as (st & st' & H0 & Hsteps & Hg).
  destruct (doctor_pattern_groups pattern st st' Hin H0 Hsteps)
    as (name & Hc & Hn).
  unfold group. by rewrite Hg, Hc.
Qed.

Lemma search_doctor_none patterns text d :
  found_in patterns text = false -> search_doctor patterns text d = d.
Proof.
  induction patterns as [|p ps IH]; cbn [found_in existsb search_doctor];
    [done|].
  destruct (search p text); [done|]. apply IH.
Qed.

Lemma search_doctor_some patterns text d :
  (forall p, In p patterns -> In p doctor_patterns) ->
  found_in patterns text = true ->
  Str.truthy (provider_name (search_doctor patterns text d)) = true.
Proof.
  intros Hsub.
  induction patterns as [|p ps IH]; cbn [found_in existsb search_doctor];
    [done|].
  destruct (search p text) as [m|] eqn:E.
  - intros _. assert (Str.truthy (group 1 m) = true) as Hn.
    { eapply doctor_name_truthy; [|exact E]. apply Hsub. by left. }
    by destruct (search credentials_pattern _).
  - apply IH. intros q Hq. apply Hsub. by right.
Qed.

Lemma search_about_sections_first before section after d :
  Str.truthy (provider_name d) = false ->
  (forall s, In s before -> found_in doctor_patterns (Bs.get_text s) = false) ->
  found_in doctor_patterns (Bs.get_text section) = true ->
  search_about_sections (before ++ section :: after) d =
  search_doctor doctor_patterns (Bs.get_text section) d.
Proof.
  intros Hd Hbefore Hs.
  induction before as [|s ss IH]; cbn [app search_about_sections].
  - by rewrite search_doctor_some.
  - rewrite search_doctor_none by (apply Hbefore; by left).
    rewrite Hd. apply IH. intros s' Hs'. apply Hbefore. by right.
Qed.

Lemma search_about_sections_none sections d :
  Str.truthy (provider_name d) = false ->
  (forall s, In s sections -> found_in doctor_patterns (Bs.get_text s) = false) ->
  search_about_sections sections d = d.
Proof.
  intros Hd Hnone.
  induction sections as [|s ss IH]; cbn [search_about_sections]; [done|].
  rewrite search_doctor_none by (apply Hnone; by left).
  rewrite Hd. apply IH. intros s' Hs'. apply Hnone. by right.
Qed.

(** The order of the provider search: the first about section in which a
    name pattern is found decides; the page text is searched, once, when no
    about section has a match; when nothing matches the record is left as
    it was. *)
Lemma provider_search_order soup d :
  provider_name d = [] ->
  (forall before section after,
     about_sections soup = before ++ section :: after ->
     (forall s, In s before ->
        found_in doctor_patterns (Bs.get_text s) = false) ->
     found_in doctor_patterns (Bs.get_text section) = true ->
     extract_provider soup d =
     search_doctor doctor_patterns (Bs.get_text section) d) /\
  ((forall s, In s (about_sections soup) ->
      found_in doctor_patterns (Bs.get_text s) = false) ->
   extract_provider soup d =
   search_doctor doctor_patterns (Bs.get_text soup) d) /\
  ((forall s, In s (about_sections soup) ->
      found_in doctor_patterns (Bs.get_text s) = false) ->
   found_in doctor_patterns (Bs.get_text soup) = false ->
   extract_provider soup d = d).
Proof.
  intros Hd. repeat split.
  - intros before section after Hsplit Hb Hs. unfold extract_provider.
    rewrite Hsplit, search_about_sections_first; [|by rewrite Hd|done..].
    by rewrite search_doctor_some.
  - intros Hnone. unfold extract_provider.
    rewrite search_about_sections_none; [|by rewrite Hd|done].
    by rewrite Hd.
  - intros Hnone Hpage. unfold extract_provider.
    rewrite search_about_sections_none; [|by rewrite Hd|done].
    rewrite Hd. cbn [negb Str.truthy]. by apply search_doctor_none.
Qed.

End ProviderFacts.

(** * The properties *)



(** C2. For both variants of process_urls: the batch holds no more records
    than there are URLs; the turn for a URL appends one record when the
    matcher found a vendor there and nothing otherwise; every record of the
    result carries the URL of a matching site and the vendor found on it;
    every matching site has its record. *)
Theorem batch_emits_iff_matched (requests_get : nat -> str -> option str)
  (BeautifulSoup : str -> Bs.node) (competitors urls : list str) (clock : nat) :
  Batch.emits_iff_matched
    (Py.check_competitor_presence requests_get BeautifulSoup competitors)
    (Py.extract_clinic_data requests_get BeautifulSoup competitors)
    Py.fix_url Py.website_url Py.website_provider
    (Py.process_urls requests_get BeautifulSoup competitors) urls clock /\
  Batch.emits_iff_matched
    (Scrap.check_competitor_presence requests_get BeautifulSoup competitors)
    (Scrap.extract_clinic_data requests_get BeautifulSoup)
    id Scrap.website_url Scrap.website_provider
    (Scrap.process_urls requests_get BeautifulSoup competitors) urls clock.
Proof.
  split; apply BatchFacts.loop_emits_iff_matched.
  - apply BatchFacts.check_vendor.
  - intros url competitor c.
    apply (AssemblerFacts.extract_clinic_data_site requests_get BeautifulSoup
             competitors url competitor c).
  - intros us c. apply BatchFacts.py_process_urls_from_loop.
  - apply BatchFacts.check_vendor.
  - apply ScrapFacts.scrap_extract_clinic_data_site.
  - intros us c. apply ScrapFacts.scrap_process_urls_from_loop.
Qed.

Lemma batch_emits_iff_matched_witness :
  exists record,
    In record (fst (Py.process_urls Samples.network Samples.parser
                      Samples.competitors
                      ["http://a.example.com"; "b.example.com"] 0)) /\
    Py.website_url record = "http://b.example.com" /\
    Py.website_provider record = Some "tebra".
Proof.
  destruct (batch_emits_iff_matched Samples.network Samples.parser
              Samples.competitors ["http://a.example.com"; "b.example.com"] 0)
    as [(_ & _ & _ & H) _].
  destruct (H 1 "b.example.com") as [record (Hin & Hurl & Hprov)].
  - reflexivity.
  - vm_compute. reflexivity.
  - exists record. split; [exact Hin|]. split.
    + rewrite Hurl. reflexivity.
    + rewrite Hprov. vm_compute. reflexivity.
Defined.




(** C4. The first phone number found is reduced to its digits; with exactly
    ten digits it is stored as (AAA) BBB-CCCC, with any other count the text
    found is stored as it is; the stored contact information starts with
    this phone. *)
Theorem phone_normalization (phone : str) :
  let digits := List.filter Str.is_digit phone in
  (length digits = 10 ->
   Py.format_phone phone =
   "(" ++ take 3 digits ++ ") " ++ take 3 (drop 3 digits) ++ "-" ++ drop 6 digits) /\
  (length digits <> 10 -> Py.format_phone phone = phone) /\
  (forall more emails d,
     Py.contact_info (Py.format_contact_info (phone :: more) emails d) =
     Str.join " | " (Py.format_phone phone :: take 1 emails)) /\
  Py.format_phone "619.555.1234" = "(619) 555-1234" /\
  Py.format_phone "555-1234" = "555-1234".
Proof.
  cbv zeta. unfold Py.format_phone. rewrite ContactFacts.digits_only.
  repeat split.
  - intros ->. simpl. unfold Str.slice. simpl. by rewrite drop_0.
  - intros Hn. by apply Nat.eqb_neq in Hn as ->.
  - intros more emails d. unfold Py.format_contact_info.
    rewrite <- ContactFacts.digits_only. fold (Py.format_phone phone).
    by destruct emails.
Qed.

Lemma phone_normalization_witness :
  Py.format_phone "(619) 555 1234" =
  "(" ++ "619" ++ ") " ++ "555" ++ "-" ++ "1234".
Proof.
  apply (proj1 (phone_normalization "(619) 555 1234")). reflexivity.
Defined.

(** C5. On one text the ZIP-qualified pattern is tried before the plain
    one, so a text that holds Somewhere, CA 92101 gets its output from the
    ZIP-qualified match; among the address elements the first one in which
    a pattern is found decides and the later ones are not looked at; the
    text of the whole page is searched only when no address element has a
    match; the output, when set, is a city, a comma and a blank, and two
    upper-case letters. *)
Theorem location_priority (soup : Bs.node) (d : Py.ClinicRecord) :
  Py.city_state d = [] ->
  (forall text m,
     Re.search Py.city_state_zip_pattern text = Some m ->
     Py.search_city_state Py.city_state_patterns text d =
     Py.set_city_state (Py.format_city_state m) d) /\
  (forall text,
     Re.search Py.city_state_zip_pattern text = None ->
     Py.search_city_state Py.city_state_patterns text d =
     match Re.search Py.city_state_pattern text with
     | Some m => Py.set_city_state (Py.format_city_state m) d
     | None => d
     end) /\
  (forall text,
     Str.substring "Somewhere, CA 92101" text ->
     exists m, Re.search Py.city_state_zip_pattern text = Some m /\
       Py.search_city_state Py.city_state_patterns text d =
       Py.set_city_state (Py.format_city_state m) d) /\
  (forall before element after,
     Py.address_elements soup = before ++ element :: after ->
     (forall e, In e before ->
        Py.found_in Py.city_state_patterns (Bs.get_text e) = false) ->
     Py.found_in Py.city_state_patterns (Bs.get_text element) = true ->
     Py.extract_location soup d =
     Py.search_city_state Py.city_state_patterns (Bs.get_text element) d) /\
  ((forall e, In e (Py.address_elements soup) ->
      Py.found_in Py.city_state_patterns (Bs.get_text e) = false) ->
   Py.extract_location soup d =
   Py.search_city_state Py.city_state_patterns (Bs.get_text soup) d) /\
  (Py.city_state (Py.extract_location soup d) = [] \/
   exists city a b,
     Py.city_state (Py.extract_location soup d) = city ++ ", " ++ [a; b] /\
     Str.is_upper a = true /\ Str.is_upper b = true).
Proof.
  intros Hd. repeat split.
  - intros text m H. rewrite LocationFacts.search_city_state_unfold. by rewrite H.
  - intros text H. rewrite LocationFacts.search_city_state_unfold. by rewrite H.
  - intros text Hsub. destruct (ZipExample.zip_found text Hsub) as [m Hm].
    exists m. split; [done|].
    rewrite LocationFacts.search_city_state_unfold. by rewrite Hm.
  - intros before element after Hsplit Hb He. unfold Py.extract_location.
    rewrite Hsplit, LocationFacts.search_address_elements_first;
      [|by rewrite Hd|done..].
    by rewrite (LocationFacts.search_city_state_some _ _ He).
  - intros Hnone. unfold Py.extract_location.
    rewrite LocationFacts.search_address_elements_none; [|by rewrite Hd|done].
    by rewrite Hd.
  - by apply LocationFacts.extract_location_format.
Qed.

Lemma location_priority_witness :
  Py.city_state
    (Py.extract_location Samples.clinic_soup
       (Py.Clinic "" "" "" "http://b.example.com" "" "" (Some "tebra")))
  = "Somewhere, CA".
Proof.
  pose proof (location_priority Samples.clinic_soup
                (Py.Clinic "" "" "" "http://b.example.com" "" "" (Some "tebra"))
                eq_refl) as (_ & _ & _ & H & _).
  rewrite (H [] (Bs.Tag "address" [("class", "address")]
                   [Bs.NavigableString "12 Main St, Somewhere, CA 92101"]) []);
    [vm_compute; reflexivity | reflexivity | intros e [] | reflexivity].
Defined.

(** C6 at a page whose about section reads: Meet Jane Doe, DDS is a dentist
    in Tulsa.  The name is found by the second pattern, whose match runs to
    the end of DDS; the credential search starts there, passes over the
    degree that follows the name and stores the letter T. *)
Theorem credentials_window_skips_degree :
  let text := "Meet Jane Doe, DDS is a dentist in Tulsa." in
  let blank := Py.Clinic "" "" "" "http://b.example.com" "" "" (Some "tebra") in
  let found := Py.search_doctor Py.doctor_patterns text blank in
  Py.provider_name found = "Jane Doe" /\
  Py.credentials found = "T" /\
  Str.slice text 5 13 = "Jane Doe" /\
  Str.slice text 13 63 = ", DDS is a dentist in Tulsa." /\
  Re.group 1 <$> Re.search Py.credentials_pattern (Str.slice text 13 63)
  = Some "DDS" /\
  Re.m_end <$> Re.search (Re.Seq [Re.Group 1 Py.first_last; Re.Chr ",";
                                  Re.Plus Re.space; Py.degree]) text
  = Some 18 /\
  Str.slice text 18 68 = " is a dentist in Tulsa." /\
  Py.credentials
    (fst (Py.extract_clinic_data Samples.network Samples.parser
            Samples.competitors "http://b.example.com" (Some "tebra") 0))
  = "T".
Proof. vm_compute. repeat split. Qed.

(** C7. extract_clinic_data always returns a record with the URL and the
    competitor it was given; when the request fails, or when reading the
    title raises, the record has these two fields and every other field
    empty; in the batch a site whose request fails adds no record and the
    sites after it are processed. *)
Theorem record_assembler_total (requests_get : nat -> str -> option str)
  (BeautifulSoup : str -> Bs.node) (competitors : list str)
  (url : str) (competitor : option str) (clock : nat) :
  let extract := Py.extract_clinic_data requests_get BeautifulSoup competitors in
  let run := Py.process_urls requests_get BeautifulSoup competitors in
  let blank := Py.Clinic "" "" "" url "" "" competitor in
  let record := fst (extract url competitor clock) in
  (Py.website_url record = url /\ Py.website_provider record = competitor) /\
  (requests_get clock url = None -> record = blank) /\
  (forall text, requests_get clock url = Some text ->
     Py.extract_clinic_name (BeautifulSoup text) blank = None ->
     record = blank) /\
  (forall earlier failing later start,
     requests_get (snd (run earlier start)) (Py.fix_url failing) = None ->
     fst (run (earlier ++ failing :: later) start) =
     fst (run earlier start) ++ fst (run later (S (snd (run earlier start))))).
Proof.
  cbv zeta. repeat split.
  - apply (AssemblerFacts.extract_clinic_data_site requests_get BeautifulSoup
             competitors url competitor clock).
  - apply (AssemblerFacts.extract_clinic_data_site requests_get BeautifulSoup
             competitors url competitor clock).
  - intros H. unfold Py.extract_clinic_data. by rewrite H.
  - intros text H E. unfold Py.extract_clinic_data. by rewrite H, E.
  - intros earlier failing later start H.
    rewrite !BatchFacts.py_process_urls_loop in *.
    rewrite LoopFacts.loop_app, LoopFacts.loop_cons.
    by rewrite (BatchFacts.py_turn_fetch_fails _ _ _ _ _ H).
Qed.

Lemma record_assembler_total_witness :
  fst (Py.extract_clinic_data Samples.network Samples.parser Samples.competitors
         "http://c.example.com" (Some "tebra") 0)
  = Py.Clinic "" "" "" "http://c.example.com" "" "" (Some "tebra").
Proof.
  apply (record_assembler_total Samples.network Samples.parser
           Samples.competitors "http://c.example.com" (Some "tebra") 0).
  reflexivity.
Defined.

(** C8, as amended. load_urls_from_csv strips the first field of a row and
    puts http:// in front of it unless the field starts with http;
    process_urls puts http:// in front of a URL that does not start with
    http, without stripping, and leaves any other URL as it is; so
    b.example.com becomes http://b.example.com. *)
Theorem url_scheme_normalization (field : str) (more : list str) (url : str) :
  (Str.startswith "http" field = false ->
   Scrap.load_row (field :: more) = ["http://" ++ Str.strip field]) /\
  (Str.startswith "http" field = true ->
   Scrap.load_row (field :: more) = [Str.strip field]) /\
  (Str.startswith "http" url = false -> Py.fix_url url = "http://" ++ url) /\
  (Str.startswith "http" url = true -> Py.fix_url url = url) /\
  Str.startswith "http" (Py.fix_url url) = true /\
  Scrap.load_urls_from_csv (Some [["http://a.example.com"]; ["b.example.com"]])
  = ["http://a.example.com"; "http://b.example.com"] /\
  Py.fix_url "b.example.com" = "http://b.example.com".
Proof.
  unfold Scrap.load_row, Py.fix_url. repeat split.
  - by intros ->.
  - by intros ->.
  - by intros ->.
  - by intros ->.
  - by destruct (Str.startswith "http" url) eqn:E.
Qed.

Lemma url_scheme_normalization_witness :
  Scrap.load_row [" b.example.com "; "Tulsa"] = ["http://b.example.com"].
Proof.
  apply (proj1 (url_scheme_normalization " b.example.com " ["Tulsa"] "")).
  reflexivity.
Defined.

(** C8 as stated fails in both variants: the CSV loader changes a field
    that starts with http when blanks follow it, and process_urls puts the
    scheme in front of the string as it is, not of the stripped string. *)
Lemma url_not_kept_unchanged :
  Str.startswith "http" "http://a.example.com " = true /\
  Scrap.load_urls_from_csv (Some [["http://a.example.com "]])
  <> ["http://a.example.com "] /\
  Str.startswith "http" " b.example.com" = false /\
  Py.fix_url " b.example.com" <> "http://" ++ Str.strip " b.example.com".
Proof. vm_compute. repeat split; discriminate. Qed.

(** C9, as amended. The text of the footer is a run of the visible text
    of the page.  When the text of the footer holds no capital sigma, and
    also when no stored vendor name holds a small sigma, the footer scan
    never finds a vendor that the general scan missed: the matcher and the
    matcher without the footer scan return the same result. *)
Theorem footer_scan_redundant (BeautifulSoup : str -> Bs.node)
  (competitors : list str) (text : str) :
  (forall footer, Bs.find "footer" (BeautifulSoup text) = Some footer ->
     Str.substring (Bs.get_text footer) (Bs.get_text (BeautifulSoup text))) /\
  ((forall footer, Bs.find "footer" (BeautifulSoup text) = Some footer ->
      Str.has Str.capital_sigma (Bs.get_text footer) = false) ->
   Py.match_document BeautifulSoup competitors text =
   Py.match_document_without_footer BeautifulSoup competitors text) /\
  ((forall competitor, In competitor (Py.self_competitors competitors) ->
      Str.sigma_free competitor = true) ->
   Py.match_document BeautifulSoup competitors text =
   Py.match_document_without_footer BeautifulSoup competitors text).
Proof.
  split; [|split].
  - intros footer. apply BsFacts.find_get_text.
  - intros Hplain. rewrite MatcherFacts.match_document_general; [done|].
    by left.
  - intros Hfree. rewrite MatcherFacts.match_document_general; [done|].
    by right.
Qed.

Lemma footer_scan_redundant_witness :
  Py.match_document Samples.parser Samples.competitors Samples.two_vendor_page
  = Py.match_document_without_footer Samples.parser Samples.competitors
      Samples.two_vendor_page.
Proof.
  apply (proj2 (proj2 (footer_scan_redundant Samples.parser
                         Samples.competitors Samples.two_vendor_page))).
  intros competitor Hin. vm_compute in Hin.
  repeat (destruct Hin as [<-|Hin]; [reflexivity|]). destruct Hin.
Defined.

(** C9 as stated fails on a page whose footer ends with a capital sigma
    while the page goes on with a letter: the text of the footer is a run
    of the visible text, the footer scan finds the vendor and the general
    scan does not. *)
Lemma footer_scan_finds_more :
  Py.match_document Samples.parser [Samples.sigma_vendor] Samples.sigma_page
  = (true, Some Samples.sigma_vendor_stored) /\
  Py.match_document_without_footer Samples.parser [Samples.sigma_vendor]
    Samples.sigma_page = (false, None) /\
  Py.match_document Samples.parser [Samples.sigma_vendor] Samples.sigma_page
  <> Py.match_document_without_footer Samples.parser [Samples.sigma_vendor]
       Samples.sigma_page.
Proof. vm_compute. repeat split. discriminate. Qed.

(** C10. The list returned by run_prospecting_campaign is the collected
    list without its duplicates: no URL occurs twice, a record is kept
    exactly when no earlier record has its URL, and the records kept are in
    the order in which they were collected. *)
Theorem deduplication_keeps_first (all_prospects : list Scrapper.Prospect) :
  let unique_prospects := Scrapper.remove_duplicates all_prospects in
  NoDup (map Scrapper.url unique_prospects) /\
  (forall p, In p unique_prospects <->
     exists i, all_prospects !! i = Some p /\
       forall j q, j < i -> all_prospects !! j = Some q ->
         Scrapper.url q <> Scrapper.url p) /\
  sublist unique_prospects all_prospects /\
  (forall SearchResult search_clinics search_by_copyright process_search_results
          verticals locations website_providers clock,
     fst (@Scrapper.run_prospecting_campaign SearchResult search_clinics
            search_by_copyright process_search_results
            verticals locations website_providers clock) =
     Scrapper.remove_duplicates
       (fst (Scrapper.collect_prospects SearchResult search_clinics
               search_by_copyright process_search_results
               verticals locations website_providers clock))).
Proof.
  cbv zeta. unfold Scrapper.remove_duplicates. repeat split.
  - apply DedupFacts.remove_duplicates_from_NoDup.
  - rewrite DedupFacts.remove_duplicates_from_elem.
    intros [i (Hi & _ & Hfirst)]. eauto.
  - intros [i [Hi Hfirst]]. apply DedupFacts.remove_duplicates_from_elem.
    exists i. repeat split; [done | apply not_elem_of_empty | done].
  - apply DedupFacts.remove_duplicates_from_sublist.
  - intros. unfold Scrapper.run_prospecting_campaign.
    by destruct (Scrapper.collect_prospects _ _ _ _ _ _ _ _).
Qed.

(** * Further facts *)

Module LowerFacts.
Import Str.

Lemma lower_char_idem c : lower_char (lower_char c) = lower_char c.
Proof. destruct c as [[] [] [] [] [] [] [] []]; reflexivity. Qed.

Lemma lower_char_no_capital_sigma c :
  eqc (lower_char c) capital_sigma = false.
Proof. destruct c as [[] [] [] [] [] [] [] []]; reflexivity. Qed.

(** What [lower] returns holds no capital sigma, and each of its
    characters is its own lower-case letter. *)
Lemma lower_from_lowered before s :
  has capital_sigma (lower_from before s) = false /\
  map lower_char (lower_from before s) = lower_from before s.
Proof.
  revert before. induction s as [|c s IH]; intros before; [done|].
  destruct (IH (c :: before)) as [Hs Hm]. unfold has in *.
  cbn [lower_from map existsb]. rewrite Hs, Hm.
  destruct (eqc c capital_sigma).
  - by destruct (_ && _).
  - rewrite lower_char_idem. split; [|done].
    rewrite orb_false_r. destruct (eqc capital_sigma _) eqn:E; [|done].
    apply StrFacts.eqc_eq in E.
    pose proof (lower_char_no_capital_sigma c) as H. rewrite <- E in H.
    assert (eqc capital_sigma capital_sigma = true)
      by (by apply StrFacts.eqc_eq).
    congruence.
Qed.

Lemma lower_idem s : lower (lower s) = lower s.
Proof.
  destruct (lower_from_lowered [] s) as [Hs Hm].
  by rewrite (StrFacts.lower_plain (lower s) Hs).
Qed.

Lemma lower_truthy s : truthy (lower s) = truthy s.
Proof. by destruct s. Qed.

End LowerFacts.

Module MatchResultFacts.

Section Matcher.
Variable requests_get : nat -> str -> option str.
Variable BeautifulSoup : str -> Bs.node.
Variable competitors : list str.

Lemma self_competitors_lower v :
  In v (Py.self_competitors competitors) -> Str.lower v = v.
Proof.
  unfold Py.self_competitors. intros [x [<- _]]%in_map_iff.
  apply LowerFacts.lower_idem.
Qed.

Lemma match_document_member text :
  Py.match_document BeautifulSoup competitors text = (false, None) \/
  exists v, Py.match_document BeautifulSoup competitors text = (true, Some v) /\
    In v (Py.self_competitors competitors).
Proof.
  rewrite MatcherFacts.match_document_scans.
  destruct (List.find _ _) as [v|] eqn:E1.
  { right. exists v. split; [done|]. by apply find_some in E1 as [? _]. }
  match goal with
  | |- context [List.find ?f ?l] => destruct (List.find f l) as [v|] eqn:E2
  end; [|by left].
  right. exists v. split; [done|]. by apply find_some in E2 as [? _].
Qed.

End Matcher.
End MatchResultFacts.

Module PhoneFacts.
Import Py.

Lemma filter_digits_all (d : str) :
  Forall (fun c => Str.is_digit c = true) d -> List.filter Str.is_digit d = d.
Proof.
  induction 1 as [|c d Hc _ IH]; [done|]. simpl. by rewrite Hc, IH.
Qed.

Lemma digits_are_digits (p : str) :
  Forall (fun c => Str.is_digit c = true) (List.filter Str.is_digit p).
Proof.
  apply Forall_forall. intros c Hc. apply list_elem_of_In in Hc.
  by apply filter_In in Hc as [_ ?].
Qed.

Lemma format_phone_unfold p :
  format_phone p =
  let d := List.filter Str.is_digit p in
  if length d =? 10
  then "(" ++ take 3 d ++ ") " ++ take 3 (drop 3 d) ++ "-" ++ drop 6 d
  else p.
Proof.
  unfold format_phone. rewrite ContactFacts.digits_only. cbv zeta.
  destruct (_ =? 10); [|done]. unfold Str.slice. simpl. by rewrite drop_0.
Qed.

Lemma format_phone_digits p :
  List.filter Str.is_digit (format_phone p) = List.filter Str.is_digit p.
Proof.
  rewrite format_phone_unfold. cbv zeta.
  destruct (_ =? 10) eqn:E; [|done].
  pose proof (digits_are_digits p) as Hd.
  set (d := List.filter Str.is_digit p) in *.
  rewrite !List.filter_app.
  rewrite (filter_digits_all (take 3 d)) by (by apply Forall_take).
  rewrite (filter_digits_all (take 3 (drop 3 d)))
    by (by apply Forall_take, Forall_drop).
  rewrite (filter_digits_all (drop 6 d)) by (by apply Forall_drop).
  change (List.filter Str.is_digit "(") with ([] : str).
  change (List.filter Str.is_digit ") ") with ([] : str).
  change (List.filter Str.is_digit "-") with ([] : str).
  cbn [app].
  replace (drop 6 d) with (drop 3 (drop 3 d)) by (by rewrite drop_drop).
  by rewrite (take_drop 3 (drop 3 d)), (take_drop 3 d).
Qed.

Lemma format_phone_idem p : format_phone (format_phone p) = format_phone p.
Proof.
  rewrite (format_phone_unfold (format_phone p)). cbv zeta.
  rewrite format_phone_digits.
  destruct (_ =? 10) eqn:E; [|done].
  rewrite (format_phone_unfold p). cbv zeta. by rewrite E.
Qed.

End PhoneFacts.

Module RequestFacts.
Import Batch LoopFacts.

Section Count.
Context {A R : Type}.
Variable step : A -> nat -> list R * nat.

Hypothesis step_requests : forall x clock,
  snd (step x clock) = clock + 1 + length (fst (step x clock)).

Lemma loop_requests xs clock :
  snd (loop step xs clock) =
  clock + length xs + length (fst (loop step xs clock)).
Proof.
  revert clock. induction xs as [|x xs IH]; intros clock.
  - simpl. lia.
  - rewrite loop_cons. simpl. rewrite IH, step_requests, length_app. lia.
Qed.

End Count.

Lemma turn_length {R} check (extract : str -> option str -> nat -> R * nat)
  site_of url clock :
  length (fst (Batch.turn check extract site_of url clock)) <= 1.
Proof. unfold Batch.turn. destruct (fst (fst _)); simpl; lia. Qed.

Section Scrapers.
Variable requests_get : nat -> str -> option str.
Variable BeautifulSoup : str -> Bs.node.
Variable competitors : list str.

Lemma scrap_extract_clock url competitor clock :
  snd (Scrap.extract_clinic_data requests_get BeautifulSoup
         url competitor clock) = S clock.
Proof.
  unfold Scrap.extract_clinic_data. by destruct (requests_get clock url).
Qed.

Lemma py_turn_requests url clock :
  let turn :=
    Batch.turn
      (Py.check_competitor_presence requests_get BeautifulSoup competitors)
      (Py.extract_clinic_data requests_get BeautifulSoup competitors)
      Py.fix_url in
  snd (turn url clock) = clock + 1 + length (fst (turn url clock)).
Proof.
  cbv zeta. unfold Batch.turn.
  pose proof (BatchFacts.check_clock requests_get BeautifulSoup competitors
                (Py.fix_url url) clock) as Hc.
  destruct (Py.check_competitor_presence _ _ _ _ _) as [[has v] c1].
  simpl in *. subst c1. destruct has; simpl; [|lia].
  rewrite AssemblerFacts.extract_clinic_data_clock. lia.
Qed.

Lemma scrap_turn_requests url clock :
  let turn :=
    Batch.turn
      (Scrap.check_competitor_presence requests_get BeautifulSoup competitors)
      (Scrap.extract_clinic_data requests_get BeautifulSoup)
      id in
  snd (turn url clock) = clock + 1 + length (fst (turn url clock)).
Proof.
  cbv zeta. unfold Batch.turn, id.
  pose proof (BatchFacts.check_clock requests_get BeautifulSoup competitors
                url clock) as Hc.
  change (Py.check_competitor_presence requests_get BeautifulSoup competitors)
    with (Scrap.check_competitor_presence requests_get BeautifulSoup
            competitors) in Hc.
  destruct (Scrap.check_competitor_presence _ _ _ _ _) as [[has v] c1].
  simpl in *. subst c1. destruct has; simpl; [|lia].
  rewrite scrap_extract_clock. lia.
Qed.

End Scrapers.
End RequestFacts.

Module AgentFacts.
Import Agent.

Lemma keyword_scan name entry :
  existsb (fun keyword => Str.contains keyword (Str.lower name)) (snd entry)
  = true <-> keyword_occurs name entry.
Proof.
  unfold keyword_occurs. rewrite existsb_exists.
  split; intros [k [Hin Hk]]; exists k; split; try done;
    by apply StrFacts.contains_substring.
Qed.

Lemma categorize_unfold c s :
  categorize_by_vertical (Some (c :: s)) =
  match List.find (fun entry =>
                     existsb (fun keyword =>
                                Str.contains keyword (Str.lower (c :: s)))
                       (snd entry)) verticals with
  | Some (vertical, _) => vertical
  | None => "other specialty"
  end.
Proof. reflexivity. Qed.

Lemma corporate_scan c s :
  is_corporate_clinic (Some (c :: s)) = true <->
  exists signal, In signal corporate_signals /\
    Str.substring signal (Str.lower (c :: s)).
Proof.
  unfold is_corporate_clinic. rewrite existsb_exists. split.
  - intros [x [Hin Hx]]. exists x. split; [done|].
    apply StrFacts.contains_substring.
    assert (Str.lower x = x) as <-; [|done].
    simpl in Hin. repeat (destruct Hin as [<-|Hin]; [reflexivity|]). done.
  - intros [x [Hin Hx]]. exists x. split; [done|].
    apply StrFacts.contains_substring.
    assert (Str.lower x = x) as ->; [|done].
    simpl in Hin. repeat (destruct Hin as [<-|Hin]; [reflexivity|]). done.
Qed.

Section Agent.
Variable requests_get : nat -> str -> option str.
Variable BeautifulSoup : str -> Bs.node.

#[local] Abbreviation extract := (extract_clinic_data requests_get BeautifulSoup).
#[local] Abbreviation process_from :=
  (process_search_results_from requests_get BeautifulSoup).
#[local] Abbreviation process :=
  (process_search_results requests_get BeautifulSoup).

Lemma extract_url site clock : url (fst (extract site clock)) = site.
Proof.
  unfold extract_clinic_data. by destruct (requests_get clock site).
Qed.

Lemma extract_clock site clock : snd (extract site clock) = S clock.
Proof.
  unfold extract_clinic_data. by destruct (requests_get clock site).
Qed.

Lemma extract_provider_unset site clock :
  provider_name (fst (extract site clock)) = None /\
  credentials (fst (extract site clock)) = None.
Proof.
  unfold extract_clinic_data. by destruct (requests_get clock site).
Qed.

Lemma processed_mono links link p :
  processed links p -> processed (link :: links) p.
Proof.
  intros (H1 & H2 & H3 & H4 & H5 & H6). repeat split; try done. by right.
Qed.

Lemma process_from_spec links : forall acc clock,
  exists new,
    fst (process_from links acc clock) = acc ++ new /\
    Forall (processed links) new /\
    length new <= length (List.filter followed links) /\
    snd (process_from links acc clock) =
    clock + length (List.filter followed links).
Proof.
  induction links as [|link links IH]; intros acc clock.
  - exists []. simpl. rewrite app_nil_r. repeat split; [constructor | lia | lia].
  - destruct link as [[|c s]|].
    + destruct (IH acc clock) as (new & H1 & H2 & H3 & H4).
      exists new. cbn [process_search_results_from List.filter followed].
      repeat split; [done| |done..].
      eapply Forall_impl; [exact H2|]. intros p. apply processed_mono.
    + cbn [process_search_results_from List.filter followed].
      pose proof (extract_url (c :: s) clock) as Hu.
      pose proof (extract_clock (c :: s) clock) as Hc.
      pose proof (extract_provider_unset (c :: s) clock) as [Hp Hcr].
      destruct (extract (c :: s) clock) as [d clock1]. simpl in Hu, Hc, Hp, Hcr.
      subst clock1.
      destruct (is_corporate_clinic (name d)) eqn:Ecorp; cbn [negb].
      * destruct (IH acc (S clock)) as (new & H1 & H2 & H3 & H4).
        exists new. repeat split; [done| |simpl; lia|simpl; lia].
        eapply Forall_impl; [exact H2|]. intros p. apply processed_mono.
      * destruct (IH (acc ++ [Scrapper.MkProspect (name d) (url d)
                 (provider_name d) (credentials d) (city_state d)
                 (contact_info d) (website_provider d)
                 (categorize_by_vertical (name d))]) (S clock))
          as (new & H1 & H2 & H3 & H4).
        eexists (_ :: new). rewrite H1, <- app_assoc. split; [done|].
        split; [|simpl; lia].
        constructor.
        { repeat split; simpl; try done; [left; by rewrite Hu | by rewrite Hu]. }
        eapply Forall_impl; [exact H2|]. intros p. apply processed_mono.
    + destruct (IH acc clock) as (new & H1 & H2 & H3 & H4).
      exists new. cbn [process_search_results_from List.filter followed].
      repeat split; [done| |done..].
      eapply Forall_impl; [exact H2|]. intros p. apply processed_mono.
Qed.

End Agent.
End AgentFacts.

Module CampaignFacts.
Import Scrapper.

Section Campaign.
Variable SearchResult : Type.
Variable search_clinics : nat -> str -> str -> option str -> list SearchResult.
Variable search_by_copyright : nat -> str -> list SearchResult.
Variable process_search_results : nat -> list SearchResult -> list Prospect.

(** The prospect was in the list already or came out of a call of
    [process_search_results]. *)
#[local] Abbreviation from_processing acc p :=
  (In p acc \/ exists n results, In p (process_search_results n results)).

Lemma from_processing_app acc n results p :
  from_processing (acc ++ process_search_results n results) p ->
  from_processing acc p.
Proof.
  intros [[H|H]%in_app_iff|H]; [by left | right; eauto | by right].
Qed.

Lemma search_providers_from vertical location providers : forall acc clock p,
  In p (fst (search_providers SearchResult search_clinics
               process_search_results vertical location providers acc clock)) ->
  from_processing acc p.
Proof.
  induction providers as [|pr prs IH]; intros acc clock p; simpl.
  - by left.
  - intros H. apply IH in H. by apply from_processing_app in H.
Qed.

Lemma search_locations_from vertical locations providers : forall acc clock p,
  In p (fst (search_locations SearchResult search_clinics
               process_search_results vertical locations providers acc clock)) ->
  from_processing acc p.
Proof.
  induction locations as [|l ls IH]; intros acc clock p; simpl.
  - by left.
  - destruct providers as [|pr prs].
    + intros H. apply IH in H. by apply from_processing_app in H.
    + destruct (search_providers _ _ _ _ _ (pr :: prs) acc clock)
        as [acc1 clock1] eqn:E.
      intros H. apply IH in H. destruct H as [H|H]; [|by right].
      apply (search_providers_from vertical l (pr :: prs) acc clock).
      by rewrite E.
Qed.

Lemma search_verticals_from verticals locations providers : forall acc clock p,
  In p (fst (search_verticals SearchResult search_clinics
               process_search_results verticals locations providers acc clock)) ->
  from_processing acc p.
Proof.
  induction verticals as [|v vs IH]; intros acc clock p; simpl.
  - by left.
  - destruct (search_locations _ _ _ v locations providers acc clock)
      as [acc1 clock1] eqn:E.
    intros H. apply IH in H. destruct H as [H|H]; [|by right].
    apply (search_locations_from v locations providers acc clock).
    by rewrite E.
Qed.

Lemma search_copyrights_from providers : forall acc clock p,
  In p (fst (search_copyrights SearchResult search_by_copyright
               process_search_results providers acc clock)) ->
  from_processing acc p.
Proof.
  induction providers as [|pr prs IH]; intros acc clock p; simpl.
  - by left.
  - intros H. apply IH in H. by apply from_processing_app in H.
Qed.

Lemma collect_prospects_from verticals locations providers clock p :
  In p (fst (collect_prospects SearchResult search_clinics search_by_copyright
               process_search_results verticals locations providers clock)) ->
  exists n results, In p (process_search_results n results).
Proof.
  unfold collect_prospects.
  destruct (search_verticals _ _ _ verticals locations providers [] clock)
    as [acc1 clock1] eqn:E.
  intros H. apply search_copyrights_from in H as [H|H]; [|done].
  assert (from_processing [] p) as [[]|Hp]; [|done].
  apply (search_verticals_from verticals locations providers [] clock).
  by rewrite E.
Qed.

End Campaign.

Lemma remove_duplicates_from_urls all p : forall seen,
  In p all ->
  url p ∈ seen \/
  exists q, In q (remove_duplicates_from all [] seen) /\ url q = url p.
Proof.
  induction all as [|a all IH]; intros seen Hin; [done|].
  rewrite DedupFacts.remove_duplicates_from_cons.
  destruct Hin as [->|Hin].
  - case_bool_decide; [by left|]. right. exists p. split; [by left | done].
  - case_bool_decide.
    + by apply IH.
    + destruct (IH ({[url a]} ∪ seen) Hin) as [Hs|[q [Hq Hu]]].
      * apply elem_of_union in Hs as [Hs|Hs]; [|by left].
        apply elem_of_singleton in Hs. right. exists a.
        split; [by left | done].
      * right. exists q. split; [by right | done].
Qed.

Lemma remove_duplicates_urls all p :
  In p all -> exists q, In q (remove_duplicates all) /\ url q = url p.
Proof.
  intros Hin. destruct (remove_duplicates_from_urls all p ∅ Hin) as [H|H];
    [|done].
  by apply not_elem_of_empty in H.
Qed.

Lemma remove_duplicates_subset all p :
  In p (remove_duplicates all) -> In p all.
Proof.
  unfold remove_duplicates. rewrite <- !list_elem_of_In. intros H.
  eapply elem_of_sublist; [exact H|].
  apply DedupFacts.remove_duplicates_from_sublist.
Qed.

End CampaignFacts.

Module RunFacts.

Lemma load_row_length row : length (Scrap.load_row row) <= 1.
Proof.
  unfold Scrap.load_row. destruct row as [|f r]; [simpl; lia|].
  destruct (Str.startswith "http" f); simpl; lia.
Qed.

Lemma load_urls_length rows :
  length (Scrap.load_urls_from_csv (Some rows)) =
  length (List.filter (fun row => negb (bool_decide (row = []))) rows).
Proof.
  unfold Scrap.load_urls_from_csv.
  induction rows as [|row rows IH]; [done|].
  cbn [flat_map List.filter]. rewrite length_app, IH.
  destruct row as [|f r]; [done|]. unfold Scrap.load_row.
  by destruct (Str.startswith "http" f).
Qed.

End RunFacts.

Module JsonFacts.
Import Json.

Lemma collect_urls_acc items : forall urls,
  collect_urls items urls = (fun new => urls ++ new) <$> collect_urls items [].
Proof.
  induction items as [|item items IH]; intros urls; simpl.
  - by rewrite app_nil_r.
  - destruct (item_turn item) as [| |url]; [done | apply IH |].
    rewrite (IH (urls ++ [url])), (IH [url]).
    destruct (collect_urls items []); simpl; [|done].
    by rewrite <- app_assoc.
Qed.

Lemma collect_urls_raises items item urls :
  In item items -> item_turn item = Raises -> collect_urls items urls = None.
Proof.
  revert urls. induction items as [|x items IH]; intros urls Hin Hr; [done|].
  simpl. destruct Hin as [->|Hin]; [by rewrite Hr|].
  destruct (item_turn x); [done | by apply IH | by apply IH].
Qed.

Lemma collect_urls_length items : forall urls new,
  collect_urls items urls = Some new ->
  length new <= length urls + length items.
Proof.
  induction items as [|x items IH]; intros urls new; simpl.
  - intros [= <-]. lia.
  - destruct (item_turn x); [done| |].
    + intros H. apply IH in H. lia.
    + intros H. apply IH in H. rewrite length_app in H. simpl in H. lia.
Qed.

Lemma collect_urls_objects items :
  Forall (fun item => exists members, item = JObject members) items ->
  collect_urls items [] =
  Some (omap (fun item =>
                match item with
                | JObject members => obj_get "url" members
                | _ => None
                end) items).
Proof.
  induction 1 as [|item items [members ->] _ IH]; [done|].
  simpl. destruct (obj_get "url" members) as [url|]; [|done].
  rewrite collect_urls_acc, IH. done.
Qed.

End JsonFacts.

Module StripFacts.
Import Str.

Lemma lstrip_split s :
  exists w, s = w ++ lstrip s /\ Forall (fun c => is_space c = true) w.
Proof.
  induction s as [|c t IH]; [by exists []|]. simpl.
  destruct (is_space c) eqn:E.
  - destruct IH as [w [Hw Hs]]. exists (c :: w). split.
    + simpl. by rewrite <- Hw.
    + by constructor.
  - by exists [].
Qed.

Lemma lstrip_cons_nonspace c t : is_space c = false -> lstrip (c :: t) = c :: t.
Proof. intros H. simpl. by rewrite H. Qed.

Lemma lstrip_idem s : lstrip (lstrip s) = lstrip s.
Proof.
  induction s as [|c t IH]; [done|]. simpl.
  destruct (is_space c) eqn:E; [done|]. by apply lstrip_cons_nonspace.
Qed.

Lemma lstrip_length s : length (lstrip s) <= length s.
Proof.
  destruct (lstrip_split s) as [w [Hw _]]. rewrite Hw at 2.
  rewrite length_app. lia.
Qed.

Lemma rstrip_snoc s c :
  rstrip (s ++ [c]) = if is_space c then rstrip s else s ++ [c].
Proof.
  unfold rstrip. rewrite rev_app_distr. simpl.
  destruct (is_space c); [done|]. simpl. by rewrite rev_involutive.
Qed.

Lemma rstrip_split s :
  exists w, s = rstrip s ++ w /\ Forall (fun c => is_space c = true) w.
Proof.
  unfold rstrip. destruct (lstrip_split (rev s)) as [w [Hw Hs]].
  exists (rev w). split.
  - rewrite <- rev_app_distr, <- Hw. by rewrite rev_involutive.
  - by apply Forall_rev.
Qed.

Lemma rstrip_length s : length (rstrip s) <= length s.
Proof.
  unfold rstrip. rewrite length_rev. etransitivity; [apply lstrip_length|].
  by rewrite length_rev.
Qed.

Lemma rstrip_idem s : rstrip (rstrip s) = rstrip s.
Proof. unfold rstrip. by rewrite rev_involutive, lstrip_idem. Qed.

Lemma rstrip_app_nonspace p c t :
  is_space c = false -> rstrip ((p ++ [c]) ++ t) = (p ++ [c]) ++ rstrip t.
Proof.
  intros Hc. induction t as [|x t IH] using rev_ind.
  - rewrite app_nil_r. change (rstrip []) with ([] : str).
    rewrite app_nil_r, rstrip_snoc. by rewrite Hc.
  - rewrite app_assoc, !rstrip_snoc. destruct (is_space x); [done|].
    by rewrite app_assoc.
Qed.

(** Stripping on the right what was stripped on the right stays stripped
    after stripping on the left. *)
Lemma rstrip_lstrip s : rstrip s = s -> rstrip (lstrip s) = lstrip s.
Proof.
  intros Hs. destruct (lstrip_split s) as [w [Hw _]].
  destruct (lstrip s) as [|a l] eqn:E; [done|].
  rewrite <- E. rewrite <- E in Hw. clear E.
  destruct (lstrip s) as [|y ys _] using rev_ind; [done|].
  rewrite rstrip_snoc. destruct (is_space y) eqn:Ey; [|done].
  exfalso. rewrite Hw, app_assoc, rstrip_snoc, Ey in Hs.
  pose proof (rstrip_length (w ++ ys)) as Hl. rewrite Hs in Hl.
  rewrite !length_app in Hl. simpl in Hl. lia.
Qed.

Lemma strip_idem s : strip (strip s) = strip s.
Proof.
  unfold strip. rewrite (rstrip_lstrip (rstrip s)) by apply rstrip_idem.
  apply lstrip_idem.
Qed.

Lemma strip_fixed s : strip s = s -> rstrip s = s.
Proof.
  unfold strip. intros H.
  pose proof (rstrip_lstrip (rstrip s) (rstrip_idem s)) as Hr.
  rewrite H in Hr. done.
Qed.

Lemma strip_elem c s : In c (strip s) -> In c s.
Proof.
  unfold strip. intros H.
  destruct (lstrip_split (rstrip s)) as [w [Hw _]].
  destruct (rstrip_split s) as [v [Hv _]].
  rewrite Hv, Hw. apply in_app_iff. left. apply in_app_iff. by right.
Qed.

Lemma before_sep_no_sep sep s : ~ In sep (before_sep sep s).
Proof.
  induction s as [|c t IH]; simpl; [by intros []|].
  destruct (eqc c sep) eqn:E; [by intros []|]. intros [->|H]; [|done].
  unfold eqc in E. by rewrite Ascii.eqb_refl in E.
Qed.

(** A string that starts with http is only stripped on the right, and
    putting http:// in front of a stripped string leaves it stripped. *)
Lemma strip_http t : strip ("http" ++ t) = "http" ++ rstrip t.
Proof.
  unfold strip.
  change ("http" ++ t) with (("htt" ++ ["p"%char]) ++ t).
  rewrite rstrip_app_nonspace by done. done.
Qed.

Lemma strip_scheme s : strip ("http://" ++ strip s) = "http://" ++ strip s.
Proof.
  unfold strip at 1.
  change ("http://" ++ strip s) with (("http:/" ++ ["/"%char]) ++ strip s).
  rewrite rstrip_app_nonspace by done.
  rewrite (strip_fixed (strip s)) by apply strip_idem. done.
Qed.

Lemma startswith_http s :
  startswith "http" s = true -> exists t, s = "http" ++ t.
Proof. apply StrFacts.startswith_prefix. Qed.

End StripFacts.

Module CsvFacts.

Lemma load_row_normal row url :
  In url (Scrap.load_row row) ->
  Str.startswith "http" url = true /\ Str.strip url = url.
Proof.
  unfold Scrap.load_row. destruct row as [|field more]; [done|].
  destruct (Str.startswith "http" field) eqn:E.
  - intros [<-|[]]. apply StripFacts.startswith_http in E as [t ->].
    rewrite StripFacts.strip_http. split; [done|].
    rewrite StripFacts.strip_http. by rewrite StripFacts.rstrip_idem.
  - intros [<-|[]]. split; [done|]. apply StripFacts.strip_scheme.
Qed.

End CsvFacts.

Module WordFacts.
Import Re ReSem ReFacts ReComplete.

Lemma steps_suffix r : forall st st',
  steps r st st' -> exists w, rest st = w ++ rest st'.
Proof.
  induction r as [|p|r1 IH1 r2 IH2|r1 IH1 r2 IH2|r1 IH1|n r1 IH1|];
    intros st st' H; simpl in *.
  - subst. by exists [].
  - destruct H as [c (Hr & _)]. by exists [c].
  - destruct H as [mid [H1 H2]]. apply IH1 in H1 as [w1 H1].
    apply IH2 in H2 as [w2 H2]. exists (w1 ++ w2).
    by rewrite H1, H2, app_assoc.
  - destruct H as [H|H]; eauto.
  - induction H as [a|a b c Hab _ [w2 IH]]; [by exists []|].
    apply IH1 in Hab as [w1 Hab]. exists (w1 ++ w2).
    by rewrite Hab, IH, app_assoc.
  - destruct H as [mid [H ->]]. by apply IH1 in H.
  - destruct H as [-> _]. by exists [].
Qed.

Lemma consumed_word st st' w : rest st = w ++ rest st' -> consumed st st' = w.
Proof.
  unfold consumed. intros ->. rewrite length_app.
  replace (length w + length (rest st') - length (rest st')) with (length w)
    by lia.
  by rewrite take_app_length.
Qed.

Lemma steps_set_word p st st' :
  steps (Set_ p) st st' -> exists c, rest st = [c] ++ rest st' /\ p c = true.
Proof. intros [c (? & ? & _)]. by exists c. Qed.

Lemma steps_star_set_word p st st' :
  steps (Star (Set_ p)) st st' ->
  exists w, rest st = w ++ rest st' /\ Forall (fun c => p c = true) w.
Proof.
  simpl. induction 1 as [a|a b c Hab _ (w & Hw & Hp)]; [by exists []|].
  apply steps_set_word in Hab as (x & Hx & Hpx).
  exists (x :: w). split; [by rewrite Hx, Hw | by constructor].
Qed.

Lemma steps_plus_set_word p st st' :
  steps (Plus (Set_ p)) st st' ->
  exists w, w <> [] /\ rest st = w ++ rest st' /\
    Forall (fun c => p c = true) w.
Proof.
  intros [mid [H1 H2]]. apply steps_set_word in H1 as (x & Hx & Hpx).
  apply steps_star_set_word in H2 as (w & Hw & Hp).
  exists (x :: w). repeat split; [done | by rewrite Hx, Hw | by constructor].
Qed.

(** A match that has to start at the beginning of [s], if there is one,
    comes from a pass through the pattern. *)
Lemma match_nonempty_sound r p s n :
  match_nonempty r p s = Some n ->
  exists st', steps r (MState p s []) st'.
Proof.
  unfold match_nonempty. intros H.
  destruct (rmatch r _ _) as [st'|] eqn:E; [|done].
  apply rmatch_sound in E as [st2 [Hs _]]. eauto.
Qed.

Lemma sub_from_sublist r : forall s p skip,
  sublist (sub_from r [] p s skip) s.
Proof.
  induction s as [|c t IH]; intros p skip; [constructor|].
  cbn [sub_from]. destruct skip as [|n].
  - destruct (match_nonempty r p (c :: t)) as [len|].
    + apply sublist_cons, IH.
    + apply sublist_skip, IH.
  - apply sublist_cons, IH.
Qed.

Lemma sub_from_unmatched r repl : forall s p,
  (forall before t q, s = before ++ t -> match_nonempty r q t = None) ->
  sub_from r repl p s 0 = s.
Proof.
  induction s as [|c t IH]; intros p Hnone; [done|].
  cbn [sub_from]. rewrite (Hnone [] (c :: t) p eq_refl). f_equal.
  apply IH. intros before u q ->. by apply (Hnone (c :: before) u q).
Qed.

End WordFacts.

Module CleanFacts.
Import Re ReSem ReFacts WordFacts Py.

Lemma steps_bar st st' : steps (Chr "|") st st' -> In "|"%char (rest st).
Proof.
  intros [c (Hr & Hc & _)]. rewrite Hr. left. symmetry.
  by apply Ascii.eqb_eq.
Qed.

Lemma steps_then_bar r st mid st' :
  steps r st mid -> steps (Chr "|") mid st' -> In "|"%char (rest st).
Proof.
  intros H1 H2. apply steps_suffix in H1 as [w ->].
  apply in_app_iff. right. by eapply steps_bar.
Qed.

Lemma home_pattern_bar st st' :
  steps home_pattern st st' -> In "|"%char (rest st).
Proof.
  intros [H|H].
  - destruct H as (x & (m1 & H1 & m2 & H2 & m3 & H3 & _) & _).
    assert (steps (Cat (Lit "Home") (Star space)) st m2) as H12
      by (by exists m1).
    by eapply steps_then_bar.
  - destruct H as (x & (m1 & H1 & m2 & H2 & _) & _).
    by eapply steps_then_bar.
Qed.

Lemma competitor_suffix_bar comp st st' :
  steps (competitor_suffix_pattern comp) st st' -> In "|"%char (rest st).
Proof.
  unfold competitor_suffix_pattern. cbn [Seq].
  intros (m1 & H1 & m2 & H2 & _). by eapply steps_then_bar.
Qed.

Lemma sub_without_bar r s :
  (forall st st', steps r st st' -> In "|"%char (rest st)) ->
  ~ In "|"%char s -> sub r "" s = s.
Proof.
  intros Hbar Hs. apply sub_from_unmatched. intros before t q -> .
  destruct (match_nonempty r q t) as [n|] eqn:E; [|done].
  apply match_nonempty_sound in E as [st' Hst]. apply Hbar in Hst.
  destruct Hs. apply in_app_iff. by right.
Qed.

Lemma clean_sublist competitors d :
  sublist (clinic_name (clean_clinic_name competitors d)) (clinic_name d).
Proof.
  unfold clean_clinic_name. destruct (Str.truthy _); [|done]. simpl.
  assert (forall cs n, sublist n (clinic_name d) ->
            sublist (fold_left
                       (fun name comp =>
                          sub (competitor_suffix_pattern comp) "" name) cs n)
              (clinic_name d)) as Hfold.
  { induction cs as [|c cs IH]; intros n Hn; [done|]. simpl. apply IH.
    etransitivity; [apply sub_from_sublist | exact Hn]. }
  apply Hfold. apply sub_from_sublist.
Qed.

Lemma clean_without_bar competitors d :
  ~ In "|"%char (clinic_name d) -> clean_clinic_name competitors d = d.
Proof.
  intros Hbar. unfold clean_clinic_name. destruct (Str.truthy _); [|done].
  rewrite (sub_without_bar home_pattern) by (eauto using home_pattern_bar).
  assert (forall cs,
            fold_left (fun name comp =>
                         sub (competitor_suffix_pattern comp) "" name) cs
              (clinic_name d) = clinic_name d) as ->.
  { induction cs as [|c cs IH]; [done|]. simpl.
    rewrite (sub_without_bar (competitor_suffix_pattern c));
      eauto using competitor_suffix_bar. }
  by destruct d.
Qed.

End CleanFacts.

Module FrameFacts.
Import Py.

Section Frame.
Context {X : Type}.
Variable f : ClinicRecord -> X.

Section Provider.
Hypothesis keeps_name : forall v d, f (set_provider_name v d) = f d.
Hypothesis keeps_credentials : forall v d, f (set_credentials v d) = f d.

Lemma search_doctor_keeps patterns text d :
  f (search_doctor patterns text d) = f d.
Proof.
  induction patterns as [|p ps IH]; simpl; [done|].
  destruct (Re.search p text); [|done].
  destruct (Re.search credentials_pattern _);
    by rewrite ?keeps_credentials, ?keeps_name.
Qed.

Lemma search_about_sections_keeps sections : forall d,
  f (search_about_sections sections d) = f d.
Proof.
  induction sections as [|s ss IH]; intros d;
    cbn [search_about_sections]; [done|].
  destruct (Str.truthy _); [apply search_doctor_keeps|].
  by rewrite IH, search_doctor_keeps.
Qed.

Lemma extract_provider_keeps soup d : f (extract_provider soup d) = f d.
Proof.
  unfold extract_provider. destruct (negb _).
  - by rewrite search_doctor_keeps, search_about_sections_keeps.
  - apply search_about_sections_keeps.
Qed.

End Provider.

Section Location.
Hypothesis keeps_city_state : forall v d, f (set_city_state v d) = f d.

Lemma search_city_state_keeps patterns text d :
  f (search_city_state patterns text d) = f d.
Proof.
  induction patterns as [|p ps IH]; simpl; [done|].
  by destruct (Re.search p text).
Qed.

Lemma search_address_elements_keeps elements : forall d,
  f (search_address_elements elements d) = f d.
Proof.
  induction elements as [|e es IH]; intros d;
    cbn [search_address_elements]; [done|].
  destruct (Str.truthy _); [apply search_city_state_keeps|].
  by rewrite IH, search_city_state_keeps.
Qed.

Lemma extract_location_keeps soup d : f (extract_location soup d) = f d.
Proof.
  unfold extract_location. destruct (negb _).
  - by rewrite search_city_state_keeps, search_address_elements_keeps.
  - apply search_address_elements_keeps.
Qed.

End Location.

Section Contact.
Hypothesis keeps_contact_info : forall v d, f (set_contact_info v d) = f d.

Lemma extract_contact_keeps soup d : f (extract_contact soup d) = f d.
Proof.
  unfold extract_contact.
  match goal with
  | |- f (format_contact_info ?ps ?es d) = _ =>
      generalize ps; generalize es
  end.
  intros es ps. unfold format_contact_info.
  destruct ps, es; simpl; by rewrite ?keeps_contact_info.
Qed.

End Contact.

Section Name.
Hypothesis keeps_clinic_name : forall v d, f (set_clinic_name v d) = f d.

Lemma clean_clinic_name_keeps competitors d :
  f (clean_clinic_name competitors d) = f d.
Proof. unfold clean_clinic_name. by destruct (Str.truthy _). Qed.

Lemma extract_clinic_name_keeps soup d d' :
  extract_clinic_name soup d = Some d' -> f d' = f d.
Proof.
  unfold extract_clinic_name. intros H.
  destruct (Bs.find "title" soup).
  - destruct (Bs.string_ _); by simplify_eq.
  - destruct (Bs.find_all _ _); by simplify_eq.
Qed.

End Name.
End Frame.

(** The record that [extract_clinic_data] returns when the page is read
    and the title does not raise. *)
Lemma extract_clinic_data_steps requests_get BeautifulSoup competitors
  url competitor clock text named :
  requests_get clock url = Some text ->
  extract_clinic_name (BeautifulSoup text)
    (Clinic "" "" "" url "" "" competitor) = Some named ->
  fst (extract_clinic_data requests_get BeautifulSoup competitors
         url competitor clock) =
  extract_contact (BeautifulSoup text)
    (extract_location (BeautifulSoup text)
       (extract_provider (BeautifulSoup text)
          (clean_clinic_name competitors named))).
Proof. intros H1 H2. unfold extract_clinic_data. by rewrite H1, H2. Qed.

End FrameFacts.

Module NameFacts.
Import Re ReSem ReFacts WordFacts Py Shape.

Lemma capitalised_intro c l :
  Str.is_upper c = true -> l <> [] ->
  Forall (fun x => Str.is_lower x = true) l -> capitalised (c :: l).
Proof. intros. by exists c, l. Qed.

Lemma first_last_name_truthy name :
  first_last_name name -> Str.truthy name = true.
Proof.
  intros (first & gap & last & -> & (c & l & -> & _) & _). done.
Qed.

Lemma first_last_word st mid :
  steps first_last st mid -> first_last_name (consumed st mid).
Proof.
  intros (m1 & H1 & m2 & H2 & m3 & H3 & m4 & H4 & H5).
  apply steps_set_word in H1 as (c1 & Hr1 & Hc1).
  apply steps_plus_set_word in H2 as (l1 & Hn1 & Hr2 & Hl1).
  apply steps_plus_set_word in H3 as (gap & Hng & Hr3 & Hgap).
  apply steps_set_word in H4 as (c2 & Hr4 & Hc2).
  apply steps_plus_set_word in H5 as (l2 & Hn2 & Hr5 & Hl2).
  rewrite (consumed_word st mid ((c1 :: l1) ++ gap ++ (c2 :: l2))).
  - exists (c1 :: l1), gap, (c2 :: l2).
    repeat split; [by apply capitalised_intro..|done|done].
  - rewrite Hr1, Hr2, Hr3, Hr4, Hr5. simpl. by rewrite <- !app_assoc.
Qed.

Lemma steps_name_group_word st st' :
  steps (Group 1 first_last) st st' ->
  exists name, caps st' = (1, name) :: caps st /\ first_last_name name.
Proof.
  intros H. apply LocationFacts.steps_group_caps in H as [mid [Hs Hc]]; [|done].
  exists (consumed st mid). split; [done|]. by apply first_last_word.
Qed.

Lemma doctor_pattern_name pattern st st' :
  In pattern doctor_patterns -> caps st = [] -> steps pattern st st' ->
  exists name, caps st' = [(1, name)] /\ first_last_name name.
Proof.
  intros [<-|[<-|[<-|[]]]] H0.
  - intros (m1 & H1 & m2 & H2 & H3).
    apply steps_groupless in H1; [|done]. apply steps_groupless in H2; [|done].
    apply steps_name_group_word in H3 as (name & Hc & Hn).
    exists name. split; [congruence | done].
  - intros (m1 & H1 & m2 & H2 & m3 & H3 & H4).
    apply steps_name_group_word in H1 as (name & Hc & Hn).
    apply steps_groupless in H2; [|done]. apply steps_groupless in H3; [|done].
    apply steps_groupless in H4; [|done].
    exists name. split; [congruence | done].
  - intros (m1 & H1 & m2 & H2 & H3).
    apply steps_name_group_word in H1 as (name & Hc & Hn).
    apply steps_groupless in H2; [|done]. apply steps_groupless in H3; [|done].
    exists name. split; [congruence | done].
Qed.

Lemma doctor_name_shape pattern text m :
  In pattern doctor_patterns -> search pattern text = Some m ->
  first_last_name (group 1 m).
Proof.
  intros Hin Hs. apply search_sound in Hs as (st & st' & H0 & Hsteps & Hg).
  destruct (doctor_pattern_name pattern st st' Hin H0 Hsteps)
    as (name & Hc & Hn).
  unfold group. by rewrite Hg, Hc.
Qed.

Lemma search_doctor_cases patterns text d :
  (forall p, In p patterns -> In p doctor_patterns) ->
  search_doctor patterns text d = d \/
  first_last_name (provider_name (search_doctor patterns text d)).
Proof.
  intros Hsub. induction patterns as [|p ps IH]; cbn [search_doctor];
    [by left|].
  destruct (search p text) as [m|] eqn:E.
  - right. assert (first_last_name (group 1 m)) as Hn.
    { eapply doctor_name_shape; [|exact E]. apply Hsub. by left. }
    by destruct (search credentials_pattern _).
  - apply IH. intros q Hq. apply Hsub. by right.
Qed.

Lemma search_about_sections_cases sections : forall d,
  search_about_sections sections d = d \/
  first_last_name (provider_name (search_about_sections sections d)).
Proof.
  induction sections as [|s ss IH]; intros d; cbn [search_about_sections];
    [by left|].
  destruct (search_doctor_cases doctor_patterns (Bs.get_text s) d) as [->|Hn];
    [done| |].
  - destruct (Str.truthy _); [by left | apply IH].
  - rewrite (first_last_name_truthy _ Hn). by right.
Qed.

Lemma extract_provider_cases soup d :
  extract_provider soup d = d \/
  first_last_name (provider_name (extract_provider soup d)).
Proof.
  unfold extract_provider.
  destruct (search_about_sections_cases (about_sections soup) d) as [->|Hn].
  - destruct (negb _); [|by left].
    by apply search_doctor_cases.
  - rewrite (first_last_name_truthy _ Hn). by right.
Qed.

End NameFacts.

Module ScrapRecordFacts.
Import Re ReSem ReFacts WordFacts Scrap.

Section Frame.
Context {X : Type}.
Variable f : ClinicRecord -> X.

Lemma scrap_extract_clinic_name_keeps soup d :
  (forall v d, f (set_clinic_name v d) = f d) ->
  f (extract_clinic_name soup d) = f d.
Proof.
  intros H. unfold extract_clinic_name.
  destruct (match Bs.find "title" soup with Some t => _ | None => _ end)
    as [[|c s]|]; try done; by destruct (Bs.find "h1" soup).
Qed.

Lemma scrap_search_about_sections_keeps sections d :
  (forall n c d, f (set_provider n c d) = f d) ->
  f (search_about_sections sections d) = f d.
Proof.
  intros H. induction sections as [|s ss IH]; cbn [search_about_sections];
    [done|].
  destruct (search credentials_pattern _); [|done].
  by destruct (search name_pattern _).
Qed.

Lemma scrap_search_address_elements_keeps elements d :
  (forall v d, f (set_city_state v d) = f d) ->
  f (search_address_elements elements d) = f d.
Proof.
  intros H. induction elements as [|e es IH]; cbn [search_address_elements];
    [done|].
  by destruct (search city_state_pattern _).
Qed.

Lemma scrap_extract_contact_keeps text d :
  (forall v d, f (set_contact_info v d) = f d) ->
  f (extract_contact text d) = f d.
Proof. intros H. unfold extract_contact. by destruct (_ ++ _). Qed.

End Frame.

Lemma scrap_city_groups st st' :
  caps st = [] -> steps city_state_pattern st st' ->
  exists c w a b, caps st' = [(2, [a; b]); (1, c :: w)] /\
    Str.is_upper c = true /\ w <> [] /\
    Forall (fun x => Str.is_alpha x || Str.is_space x = true) w /\
    Str.is_upper a = true /\ Str.is_upper b = true.
Proof.
  intros H0 (m1 & H1 & m2 & H2 & m3 & H3 & H4).
  apply LocationFacts.steps_group_caps in H1 as [mid [Hs Hc1]]; [|done].
  destruct Hs as (x & Hu & Hp).
  apply steps_set_word in Hu as (c & Hrc & Hc).
  apply steps_plus_set_word in Hp as (w & Hnw & Hrw & Hw).
  rewrite (consumed_word st mid (c :: w)) in Hc1
    by (rewrite Hrc, Hrw; done).
  apply steps_groupless in H2; [|done]. apply steps_groupless in H3; [|done].
  apply LocationFacts.steps_state_group in H4 as (a & b & Hc4 & Ha & Hb).
  exists c, w, a, b. repeat split; try done. congruence.
Qed.

Lemma scrap_city_search text m :
  search city_state_pattern text = Some m ->
  exists c w a b, group 1 m = c :: w /\ group 2 m = [a; b] /\
    Str.is_upper c = true /\ w <> [] /\
    Forall (fun x => Str.is_alpha x || Str.is_space x = true) w /\
    Str.is_upper a = true /\ Str.is_upper b = true.
Proof.
  intros Hs. apply search_sound in Hs as (st & st' & H0 & Hsteps & Hg).
  destruct (scrap_city_groups st st' H0 Hsteps)
    as (c & w & a & b & Hc & H).
  exists c, w, a, b. unfold group. rewrite Hg, Hc. by split.
Qed.

Lemma scrap_address_cases elements d :
  search_address_elements elements d = d \/
  exists m, city_state (search_address_elements elements d) =
            Some (group 1 m ++ ", " ++ group 2 m) /\
    exists text, search city_state_pattern text = Some m.
Proof.
  induction elements as [|e es IH]; cbn [search_address_elements];
    [by left|].
  destruct (search city_state_pattern (Bs.get_text e)) as [m|] eqn:E;
    [|done].
  right. exists m. split; [done|]. eauto.
Qed.

Lemma scrap_name_groups st st' :
  caps st = [] -> steps name_pattern st st' ->
  exists name, caps st' = [(1, name)] /\ Shape.first_last_name name.
Proof.
  intros H0 (m1 & H1 & m2 & H2 & H3).
  apply NameFacts.steps_name_group_word in H1 as (name & Hc & Hn).
  apply steps_groupless in H2; [|done]. apply steps_groupless in H3; [|done].
  exists name. split; [congruence | done].
Qed.

Lemma scrap_about_cases sections d :
  search_about_sections sections d = d \/
  exists name creds,
    provider_name (search_about_sections sections d) = Some name /\
    credentials (search_about_sections sections d) = Some creds /\
    Shape.first_last_name name.
Proof.
  induction sections as [|s ss IH]; cbn [search_about_sections]; [by left|].
  destruct (search credentials_pattern _) as [cm|]; [|done].
  destruct (search name_pattern _) as [m|] eqn:E; [|by left].
  right. eexists _, _. split; [done|]. split; [done|].
  apply search_sound in E as (st & st' & H0 & Hsteps & Hg).
  destruct (scrap_name_groups st st' H0 Hsteps) as (name & Hc & Hn).
  unfold group. by rewrite Hg, Hc.
Qed.

Lemma scrap_about_stops before section after d :
  (forall s, In s before ->
     search credentials_pattern (Bs.get_text s) = None) ->
  is_Some (search credentials_pattern (Bs.get_text section)) ->
  search_about_sections (before ++ section :: after) d =
  search_about_sections [section] d.
Proof.
  intros Hb [cm Hs]. induction before as [|s ss IH];
    cbn [app search_about_sections].
  - by rewrite Hs.
  - rewrite (Hb s) by (by left). apply IH. intros x Hx. apply Hb. by right.
Qed.

End ScrapRecordFacts.

(** * Further properties *)

(** X1: check_competitor_presence makes exactly one request and returns
    either (False, None) or (True, vendor) with vendor one of the stored,
    lower-cased competitor names; a failed request gives (False, None); the
    method of Scrap.py returns the same pair as the method of py.py. *)
Theorem match_result_invariant (requests_get : nat -> str -> option str)
  (BeautifulSoup : str -> Bs.node) (competitors : list str)
  (url : str) (clock : nat) :
  let found :=
    Py.check_competitor_presence requests_get BeautifulSoup competitors
      url clock in
  snd found = S clock /\
  (fst found = (false, None) \/
   exists vendor, fst found = (true, Some vendor) /\
     In vendor (Py.self_competitors competitors) /\
     Str.lower vendor = vendor) /\
  (requests_get clock url = None -> fst found = (false, None)) /\
  Scrap.check_competitor_presence requests_get BeautifulSoup competitors
    url clock = found.
Proof.
  cbv zeta.
  unfold Py.check_competitor_presence, Scrap.check_competitor_presence.
  destruct (requests_get clock url) as [text|]; simpl.
  - split; [done|]. split; [|by split].
    destruct (MatchResultFacts.match_document_member BeautifulSoup competitors
                text) as [H|[v [H Hin]]]; [by left|].
    right. exists v. repeat split; [done..|].
    by eapply MatchResultFacts.self_competitors_lower.
  - split; [done|]. split; [by left|]. by split.
Qed.

Lemma match_result_invariant_witness :
  fst (Py.check_competitor_presence Samples.network Samples.parser
         Samples.competitors "http://c.example.com" 0) = (false, None).
Proof.
  apply (match_result_invariant Samples.network Samples.parser
           Samples.competitors "http://c.example.com" 0).
  reflexivity.
Defined.

(** X2: load_urls_from_json on a JSON list: when every item is an
    object, the result is the list of the "url" values of the objects that
    have the key, in order; one item on which the test or the subscript
    raises (a number, a boolean, null, a string containing "url", a list
    holding "url") makes the result empty, whatever was collected before;
    the result is never longer than the list; an unreadable file, or data
    that is not a list, gives the empty list. *)
Theorem json_urls_all_or_nothing (items : list Json.json) :
  let loaded := Json.load_urls_from_json (Some (Json.JArray items)) in
  (Forall (fun item => exists members, item = Json.JObject members) items ->
   loaded =
   omap (fun item =>
           match item with
           | Json.JObject members => Json.obj_get "url" members
           | _ => None
           end) items) /\
  (forall item, In item items -> Json.item_turn item = Json.Raises ->
     loaded = []) /\
  length loaded <= length items /\
  Json.load_urls_from_json None = [] /\
  (forall data, (forall xs, data <> Json.JArray xs) ->
     Json.load_urls_from_json (Some data) = []).
Proof.
  cbv zeta. unfold Json.load_urls_from_json. repeat split.
  - intros H. by rewrite JsonFacts.collect_urls_objects.
  - intros item Hin Hr. by rewrite (JsonFacts.collect_urls_raises _ _ _ Hin Hr).
  - destruct (Json.collect_urls items []) as [new|] eqn:E; simpl; [|lia].
    apply JsonFacts.collect_urls_length in E. simpl in E. lia.
  - intros data Hd. destruct data; try done. by destruct (Hd items0).
Qed.

Lemma json_urls_all_or_nothing_witness :
  Json.load_urls_from_json
    (Some (Json.JArray
             [Json.JObject [("url", Json.JString "http://a.example.com")];
              Json.JNumber "7";
              Json.JObject [("url", Json.JString "http://b.example.com")]]))
  = [].
Proof.
  apply (proj1 (proj2 (json_urls_all_or_nothing _)) (Json.JNumber "7")).
  - right. left. reflexivity.
  - reflexivity.
Defined.

(** X3: every URL that load_urls_from_csv returns starts with "http" and
    has no blank at either end; loading a row that holds it returns it
    unchanged, and the scheme fix of process_urls in py.py leaves it
    unchanged. *)
Theorem loaded_urls_normal (rows : option (list (list str))) (url : str) :
  In url (Scrap.load_urls_from_csv rows) ->
  Str.startswith "http" url = true /\
  Str.strip url = url /\
  Scrap.load_urls_from_csv (Some [[url]]) = [url] /\
  Py.fix_url url = url.
Proof.
  intros Hin.
  assert (Str.startswith "http" url = true /\ Str.strip url = url) as [Hs Ht].
  { destruct rows as [rows|]; [|done]. simpl in Hin.
    apply in_flat_map in Hin as [row [_ Hrow]].
    by apply CsvFacts.load_row_normal in Hrow. }
  repeat split; [done..| |].
  - unfold Scrap.load_urls_from_csv, Scrap.load_row.
    cbn [flat_map]. rewrite Hs, Ht. done.
  - unfold Py.fix_url. by rewrite Hs.
Qed.

Lemma loaded_urls_normal_witness :
  Str.strip "http://b.example.com" = "http://b.example.com".
Proof.
  apply (loaded_urls_normal (Some [[" b.example.com "; "Tulsa"]])
           "http://b.example.com").
  left. reflexivity.
Defined.

(** X4: the phone formatting of extract_clinic_data never changes the
    digits of a number or their order; formatting a formatted number changes
    nothing; a number with ten digits becomes a string of 14 characters. *)
Theorem format_phone_keeps_digits (phone : str) :
  List.filter Str.is_digit (Py.format_phone phone) =
  List.filter Str.is_digit phone /\
  Py.format_phone (Py.format_phone phone) = Py.format_phone phone /\
  (length (List.filter Str.is_digit phone) = 10 ->
   length (Py.format_phone phone) = 14).
Proof.
  split; [apply PhoneFacts.format_phone_digits|].
  split; [apply PhoneFacts.format_phone_idem|].
  intros H. rewrite PhoneFacts.format_phone_unfold. cbv zeta.
  replace (length (List.filter Str.is_digit phone) =? 10) with true
    by (by rewrite H).
  rewrite !length_app, !length_take, !length_drop, H. simpl. lia.
Qed.

Lemma format_phone_keeps_digits_witness :
  length (Py.format_phone "619-555-1234 x") = 14.
Proof.
  apply (format_phone_keeps_digits "619-555-1234 x"). reflexivity.
Defined.

(** X5: when the page answers and its title has a single string,
    the clinic_name that extract_clinic_data of py.py stores is made of
    characters of the stripped title string, in their order (cleaning only
    removes text), and is the stripped title string itself when the title
    holds no vertical bar. *)
Theorem clinic_name_cleaning (requests_get : nat -> str -> option str)
  (BeautifulSoup : str -> Bs.node) (competitors : list str)
  (url : str) (competitor : option str) (clock : nat)
  (text : str) (title : Bs.node) (s : str) :
  requests_get clock url = Some text ->
  Bs.find "title" (BeautifulSoup text) = Some title ->
  Bs.string_ title = Some s ->
  let record :=
    fst (Py.extract_clinic_data requests_get BeautifulSoup competitors
           url competitor clock) in
  sublist (Py.clinic_name record) (Str.strip s) /\
  (~ In "|"%char s -> Py.clinic_name record = Str.strip s).
Proof.
  intros Hr Ht Hs. cbv zeta.
  rewrite (FrameFacts.extract_clinic_data_steps _ _ _ _ _ _ text
             (Py.set_clinic_name (Str.strip s)
                (Py.Clinic "" "" "" url "" "" competitor)) Hr)
    by (unfold Py.extract_clinic_name; by rewrite Ht, Hs).
  rewrite (FrameFacts.extract_contact_keeps Py.clinic_name) by done.
  rewrite (FrameFacts.extract_location_keeps Py.clinic_name) by done.
  rewrite (FrameFacts.extract_provider_keeps Py.clinic_name) by done.
  split.
  - apply (CleanFacts.clean_sublist competitors
             (Py.set_clinic_name (Str.strip s)
                (Py.Clinic "" "" "" url "" "" competitor))).
  - intros Hbar. rewrite CleanFacts.clean_without_bar; [done|].
    simpl. intros Hin. apply Hbar. by apply StripFacts.strip_elem.
Qed.

Lemma clinic_name_cleaning_witness :
  sublist
    (Py.clinic_name
       (fst (Py.extract_clinic_data Samples.network Samples.parser
               Samples.competitors "http://b.example.com" (Some "tebra") 0)))
    (Str.strip "Smile Dental | Tebra").
Proof.
  apply (clinic_name_cleaning Samples.network Samples.parser Samples.competitors
           "http://b.example.com" (Some "tebra") 0 Samples.clinic_page
           (Bs.Tag "title" [] [Bs.NavigableString "Smile Dental | Tebra"])
           "Smile Dental | Tebra"); reflexivity.
Defined.

(** X6: process_urls of py.py and of Scrap.py make one request for every
    URL and one more for every record they return, so never more than two
    requests per URL. *)
Theorem requests_per_batch (requests_get : nat -> str -> option str)
  (BeautifulSoup : str -> Bs.node) (competitors urls : list str) (clock : nat) :
  let py := Py.process_urls requests_get BeautifulSoup competitors urls clock in
  let scrap :=
    Scrap.process_urls requests_get BeautifulSoup competitors urls clock in
  snd py = clock + length urls + length (fst py) /\
  snd scrap = clock + length urls + length (fst scrap) /\
  snd py <= clock + 2 * length urls /\
  snd scrap <= clock + 2 * length urls.
Proof.
  cbv zeta.
  assert (snd (Py.process_urls requests_get BeautifulSoup competitors urls clock)
          = clock + length urls +
            length (fst (Py.process_urls requests_get BeautifulSoup competitors
                           urls clock))) as Hpy.
  { rewrite BatchFacts.py_process_urls_loop. apply RequestFacts.loop_requests.
    intros x c. apply RequestFacts.py_turn_requests. }
  assert (snd (Scrap.process_urls requests_get BeautifulSoup competitors urls
                 clock)
          = clock + length urls +
            length (fst (Scrap.process_urls requests_get BeautifulSoup
                           competitors urls clock))) as Hscrap.
  { unfold Scrap.process_urls. rewrite ScrapFacts.scrap_process_urls_from_loop.
    apply (RequestFacts.loop_requests _). intros x c.
    apply RequestFacts.scrap_turn_requests. }
  assert (length (fst (Py.process_urls requests_get BeautifulSoup competitors
                         urls clock)) <= length urls) as Hl1.
  { rewrite BatchFacts.py_process_urls_loop. apply LoopFacts.loop_length.
    intros x c. apply RequestFacts.turn_length. }
  assert (length (fst (Scrap.process_urls requests_get BeautifulSoup
                         competitors urls clock)) <= length urls) as Hl2.
  { unfold Scrap.process_urls. rewrite ScrapFacts.scrap_process_urls_from_loop.
    apply (LoopFacts.loop_length _). intros x c. apply RequestFacts.turn_length. }
  repeat split; [done | done | lia | lia].
Qed.

(** X7: in the record of extract_clinic_data of py.py, either
    provider_name and credentials are both empty, or provider_name is two
    capitalised words (an upper-case letter followed by one or more
    lower-case letters) separated by blanks. *)
Theorem provider_name_shape (requests_get : nat -> str -> option str)
  (BeautifulSoup : str -> Bs.node) (competitors : list str)
  (url : str) (competitor : option str) (clock : nat) :
  let record :=
    fst (Py.extract_clinic_data requests_get BeautifulSoup competitors
           url competitor clock) in
  (Py.provider_name record = [] /\ Py.credentials record = []) \/
  Shape.first_last_name (Py.provider_name record).
Proof.
  cbv zeta. unfold Py.extract_clinic_data.
  destruct (requests_get clock url) as [text|]; [|by left].
  destruct (Py.extract_clinic_name _ _) as [named|] eqn:E; [|by left].
  cbn [fst].
  rewrite (FrameFacts.extract_contact_keeps Py.provider_name) by done.
  rewrite (FrameFacts.extract_contact_keeps Py.credentials) by done.
  rewrite (FrameFacts.extract_location_keeps Py.provider_name) by done.
  rewrite (FrameFacts.extract_location_keeps Py.credentials) by done.
  destruct (NameFacts.extract_provider_cases (BeautifulSoup text)
              (Py.clean_clinic_name competitors named)) as [->|Hn];
    [|by right].
  left.
  rewrite (FrameFacts.clean_clinic_name_keeps Py.provider_name) by done.
  rewrite (FrameFacts.clean_clinic_name_keeps Py.credentials) by done.
  rewrite (FrameFacts.extract_clinic_name_keeps Py.provider_name
             (fun _ _ => eq_refl) _ _ _ E).
  rewrite (FrameFacts.extract_clinic_name_keeps Py.credentials
             (fun _ _ => eq_refl) _ _ _ E).
  done.
Qed.

(** X8: in the record of extract_clinic_data of Scrap.py, city_state is
    either unset or "City, ST": an upper-case letter, one or more letters or
    blanks, a comma and a blank, and two upper-case letters. *)
Theorem scrap_city_state_shape (requests_get : nat -> str -> option str)
  (BeautifulSoup : str -> Bs.node) (url : str) (competitor : option str)
  (clock : nat) :
  let record :=
    fst (Scrap.extract_clinic_data requests_get BeautifulSoup
           url competitor clock) in
  Scrap.city_state record = None \/
  exists c w a b,
    Scrap.city_state record = Some ((c :: w) ++ ", " ++ [a; b]) /\
    Str.is_upper c = true /\ w <> [] /\
    Forall (fun x => Str.is_alpha x || Str.is_space x = true) w /\
    Str.is_upper a = true /\ Str.is_upper b = true.
Proof.
  cbv zeta. unfold Scrap.extract_clinic_data.
  destruct (requests_get clock url) as [text|]; [|by left]. cbn [fst].
  rewrite (ScrapRecordFacts.scrap_extract_contact_keeps Scrap.city_state)
    by done.
  match goal with
  | |- context [Scrap.search_address_elements ?es ?d] =>
      destruct (ScrapRecordFacts.scrap_address_cases es d)
        as [->|(m & -> & t & Hm)]
  end.
  - left.
    rewrite (ScrapRecordFacts.scrap_search_about_sections_keeps
               Scrap.city_state) by done.
    by rewrite (ScrapRecordFacts.scrap_extract_clinic_name_keeps
                  Scrap.city_state).
  - right. apply ScrapRecordFacts.scrap_city_search in Hm
      as (c & w & a & b & -> & -> & H).
    by exists c, w, a, b.
Qed.

(** X9: in the record of extract_clinic_data of Scrap.py,
    provider_name and credentials are unset together or set together, and a
    provider_name that is set is two capitalised words separated by blanks.
    The search of the about sections is decided by the first section that
    holds a credential token: the sections after it are never read, and
    when that section has no "First Last token" name nothing is stored. *)
Theorem scrap_provider_search (requests_get : nat -> str -> option str)
  (BeautifulSoup : str -> Bs.node) (url : str) (competitor : option str)
  (clock : nat) :
  let record :=
    fst (Scrap.extract_clinic_data requests_get BeautifulSoup
           url competitor clock) in
  ((Scrap.provider_name record = None /\ Scrap.credentials record = None) \/
   exists name creds,
     Scrap.provider_name record = Some name /\
     Scrap.credentials record = Some creds /\
     Shape.first_last_name name) /\
  (forall before section after d,
     (forall s, In s before ->
        Re.search Scrap.credentials_pattern (Bs.get_text s) = None) ->
     is_Some (Re.search Scrap.credentials_pattern (Bs.get_text section)) ->
     Scrap.search_about_sections (before ++ section :: after) d =
     Scrap.search_about_sections [section] d /\
     (Re.search Scrap.name_pattern (Bs.get_text section) = None ->
      Scrap.search_about_sections (before ++ section :: after) d = d)).
Proof.
  cbv zeta. split.
  - unfold Scrap.extract_clinic_data.
    destruct (requests_get clock url) as [text|]; [|by left]. cbn [fst].
    rewrite (ScrapRecordFacts.scrap_extract_contact_keeps Scrap.provider_name),
      (ScrapRecordFacts.scrap_extract_contact_keeps Scrap.credentials) by done.
    rewrite (ScrapRecordFacts.scrap_search_address_elements_keeps
               Scrap.provider_name),
      (ScrapRecordFacts.scrap_search_address_elements_keeps Scrap.credentials)
      by done.
    match goal with
    | |- context [Scrap.search_about_sections ?ss ?d] =>
        destruct (ScrapRecordFacts.scrap_about_cases ss d) as [->|H]
    end; [|by right].
    left.
    by rewrite (ScrapRecordFacts.scrap_extract_clinic_name_keeps
                  Scrap.provider_name),
      (ScrapRecordFacts.scrap_extract_clinic_name_keeps Scrap.credentials).
  - intros before section after d Hb Hs.
    rewrite (ScrapRecordFacts.scrap_about_stops before section after d Hb Hs).
    split; [done|]. intros Hn. cbn [Scrap.search_about_sections].
    destruct Hs as [cm ->]. by rewrite Hn.
Qed.

Lemma scrap_provider_search_witness :
  Scrap.search_about_sections
    ([] ++ Bs.Tag "div" [("class", "about")]
             [Bs.NavigableString "Meet Jane Doe, DDS is a dentist in Tulsa."]
        :: [Bs.Tag "div" [("class", "team")]
              [Bs.NavigableString "Jane Doe DDS"]])
    (Scrap.Clinic None None None "http://b.example.com" None None None)
  = Scrap.Clinic None None None "http://b.example.com" None None None.
Proof.
  apply (proj2 (scrap_provider_search Samples.network Samples.parser
                  "http://b.example.com" None 0)).
  - intros s [].
  - vm_compute. eauto.
  - vm_compute. reflexivity.
Defined.

(** X10: when the page answers and its title has a single non-empty
    string, extract_clinic_data of Scrap.py stores the stripped text before
    the first vertical bar of the title; such a text holds no vertical bar
    and no blank at either end; the name that extract_clinic_data of
    Scrapper.py stores is always of this kind. *)
Theorem title_name_has_no_bar (requests_get : nat -> str -> option str)
  (BeautifulSoup : str -> Bs.node) (url : str) (competitor : option str)
  (clock : nat) :
  (forall text title c s,
     requests_get clock url = Some text ->
     Bs.find "title" (BeautifulSoup text) = Some title ->
     Bs.string_ title = Some (c :: s) ->
     Scrap.clinic_name
       (fst (Scrap.extract_clinic_data requests_get BeautifulSoup
               url competitor clock))
     = Some (Str.strip (Str.before_sep "|" (c :: s)))) /\
  (forall s, ~ In "|"%char (Str.strip (Str.before_sep "|" s)) /\
     Str.strip (Str.strip (Str.before_sep "|" s)) =
     Str.strip (Str.before_sep "|" s)) /\
  (forall name,
     Agent.name
       (fst (Agent.extract_clinic_data requests_get BeautifulSoup url clock))
     = Some name ->
     ~ In "|"%char name /\ Str.strip name = name).
Proof.
  assert (forall s, ~ In "|"%char (Str.strip (Str.before_sep "|" s)) /\
            Str.strip (Str.strip (Str.before_sep "|" s)) =
            Str.strip (Str.before_sep "|" s)) as Hshape.
  { intros s. split; [|apply StripFacts.strip_idem].
    intros H. apply StripFacts.strip_elem in H.
    by apply StripFacts.before_sep_no_sep in H. }
  split; [|split; [exact Hshape|]].
  - intros text title c s Hr Ht Hs. unfold Scrap.extract_clinic_data.
    rewrite Hr. cbn [fst].
    rewrite (ScrapRecordFacts.scrap_extract_contact_keeps Scrap.clinic_name),
      (ScrapRecordFacts.scrap_search_address_elements_keeps Scrap.clinic_name),
      (ScrapRecordFacts.scrap_search_about_sections_keeps Scrap.clinic_name)
      by done.
    unfold Scrap.extract_clinic_name. by rewrite Ht, Hs.
  - intros name. unfold Agent.extract_clinic_data.
    destruct (requests_get clock url) as [text|]; [|done].
    destruct (match Bs.find "title" (BeautifulSoup text) with
              | Some t => _ | None => _ end) as [[|c s]|]; try done.
    intros [= <-]. apply (Hshape (c :: s)).
Qed.

Lemma title_name_has_no_bar_witness :
  Scrap.clinic_name
    (fst (Scrap.extract_clinic_data Samples.network Samples.parser
            "http://b.example.com" (Some "tebra") 0))
  = Some "Smile Dental".
Proof.
  rewrite (proj1 (title_name_has_no_bar Samples.network Samples.parser
                    "http://b.example.com" (Some "tebra") 0)
             Samples.clinic_page
             (Bs.Tag "title" [] [Bs.NavigableString "Smile Dental | Tebra"])
             "S"%char "mile Dental | Tebra"); reflexivity.
Defined.

(** X11: categorize_by_vertical on a non-empty name returns the first
    vertical of the dictionary, in its order, one of whose keywords occurs
    in the lower-cased name, and "other specialty" when no keyword of any
    vertical occurs; the result does not depend on the case of the name and
    is one of the seven verticals or "other specialty". *)
Theorem vertical_first_keyword (name : str) :
  name <> [] ->
  (forall before vertical keywords after,
     Agent.verticals = before ++ (vertical, keywords) :: after ->
     Agent.keyword_occurs name (vertical, keywords) ->
     (forall entry, In entry before -> ~ Agent.keyword_occurs name entry) ->
     Agent.categorize_by_vertical (Some name) = vertical) /\
  ((forall entry, In entry Agent.verticals ->
      ~ Agent.keyword_occurs name entry) ->
   Agent.categorize_by_vertical (Some name) = "other specialty") /\
  Agent.categorize_by_vertical (Some (Str.lower name)) =
  Agent.categorize_by_vertical (Some name) /\
  In (Agent.categorize_by_vertical (Some name))
    ("other specialty" :: map fst Agent.verticals).
Proof.
  intros Hne. destruct name as [|c s]; [done|]. repeat split.
  - intros before vertical keywords after Hsplit Hocc Hbefore.
    rewrite AgentFacts.categorize_unfold, Hsplit.
    rewrite (MatcherFacts.find_first _ before (vertical, keywords) after);
      [done| |by apply AgentFacts.keyword_scan].
    intros entry Hin.
    destruct (existsb _ (snd entry)) eqn:E; [|done].
    apply AgentFacts.keyword_scan in E. by destruct (Hbefore entry Hin).
  - intros Hnone. rewrite AgentFacts.categorize_unfold.
    destruct (List.find _ _) as [[v kws]|] eqn:E; [|done].
    apply find_some in E as [Hin E]. apply AgentFacts.keyword_scan in E.
    by destruct (Hnone _ Hin).
  - destruct (StrFacts.lower_cons c s) as (c' & s' & E). rewrite E.
    rewrite !AgentFacts.categorize_unfold.
    by rewrite <- E, LowerFacts.lower_idem.
  - rewrite AgentFacts.categorize_unfold.
    destruct (List.find _ _) as [[v kws]|] eqn:E; [|by left].
    apply find_some in E as [Hin _]. right.
    apply in_map_iff. by exists (v, kws).
Qed.

Lemma vertical_first_keyword_witness :
  Agent.categorize_by_vertical (Some "Carpet Dental Spa") = "veterinary".
Proof.
  apply (proj1 (vertical_first_keyword "Carpet Dental Spa" ltac:(discriminate))
           [] "veterinary" ["vet"; "animal"; "pet"; "dvm"; "vmd"]
           (tl Agent.verticals)).
  - reflexivity.
  - apply AgentFacts.keyword_scan. vm_compute. reflexivity.
  - intros entry [].
Defined.

(** X12: every record that process_search_results returns is not
    corporate, carries the vertical that categorize_by_vertical gives its
    name, has the non-empty link of one of the search results as its url,
    and has no provider name and no credentials; there is at most one
    record, and exactly one request, for every result with a non-empty
    link. *)
Theorem search_results_processed (requests_get : nat -> str -> option str)
  (BeautifulSoup : str -> Bs.node) (links : list (option str)) (clock : nat) :
  let run := Agent.process_search_results requests_get BeautifulSoup in
  Forall (Agent.processed links) (fst (run links clock)) /\
  length (fst (run links clock)) <= length (List.filter Agent.followed links) /\
  snd (run links clock) = clock + length (List.filter Agent.followed links).
Proof.
  cbv zeta. unfold Agent.process_search_results.
  destruct (AgentFacts.process_from_spec requests_get BeautifulSoup links [] clock)
    as (new & H1 & H2 & H3 & H4).
  rewrite H1, H4. simpl. done.
Qed.

(** X13: the website_provider that extract_clinic_data of Scrapper.py
    stores is the first name of its provider list that occurs in the
    lower-cased text of the first footer; it is unset exactly when the page
    has no footer or no name of the list occurs in it. *)
Theorem footer_provider_first (soup : Bs.node) :
  (forall provider,
     Agent.footer_provider soup = Some provider ->
     exists footer before after,
       Bs.find "footer" soup = Some footer /\
       Agent.website_providers = before ++ provider :: after /\
       Str.substring provider (Str.lower (Bs.get_text footer)) /\
       forall earlier, In earlier before ->
         ~ Str.substring earlier (Str.lower (Bs.get_text footer))) /\
  (Agent.footer_provider soup = None <->
   forall footer, Bs.find "footer" soup = Some footer ->
     forall provider, In provider Agent.website_providers ->
       ~ Str.substring provider (Str.lower (Bs.get_text footer))) /\
  (forall requests_get BeautifulSoup site clock text,
     requests_get clock site = Some text ->
     BeautifulSoup text = soup ->
     Agent.website_provider
       (fst (Agent.extract_clinic_data requests_get BeautifulSoup site clock))
     = Agent.footer_provider soup).
Proof.
  unfold Agent.footer_provider. repeat split.
  - intros provider H. destruct (Bs.find "footer" soup) as [footer|]; [|done].
    exists footer. apply find_some in H as Hin. destruct Hin as [Hin Hp].
    destruct (LocationFacts.find_first_split
                (fun p => Str.contains p (Str.lower (Bs.get_text footer)))
                Agent.website_providers) as (before & x & after & Hs & Hb & Hx).
    { apply existsb_exists. eauto. }
    assert (x = provider) as ->.
    { rewrite Hs, (MatcherFacts.find_first _ before x after Hb Hx) in H.
      congruence. }
    exists before, after. repeat split; [done| |].
    + by apply StrFacts.contains_substring.
    + intros earlier He Hsub. apply StrFacts.contains_substring in Hsub.
      rewrite (Hb earlier He) in Hsub. done.
  - intros H footer Hf provider Hin Hsub. rewrite Hf in H.
    apply (find_none _ _ H) in Hin.
    apply StrFacts.contains_substring in Hsub. congruence.
  - intros H. destruct (Bs.find "footer" soup) as [footer|]; [|done].
    destruct (List.find _ _) as [p|] eqn:E; [|done].
    apply find_some in E as [Hin Hp].
    apply StrFacts.contains_substring in Hp. by destruct (H footer eq_refl p Hin).
  - intros requests_get BeautifulSoup site clock text Hr Hs.
    unfold Agent.extract_clinic_data. rewrite Hr, Hs. done.
Qed.

Lemma footer_provider_first_witness :
  Agent.website_provider
    (fst (Agent.extract_clinic_data Samples.network Samples.parser
            "http://b.example.com" 0))
  = Some "tebra".
Proof.
  rewrite (proj2 (proj2 (footer_provider_first Samples.clinic_soup))
             Samples.network Samples.parser "http://b.example.com" 0
             Samples.clinic_page); reflexivity.
Defined.

(** X14: every prospect that run_prospecting_campaign returns was
    returned by some call of process_search_results; every URL of a
    collected prospect is the URL of a returned prospect; the returned list
    is not longer than the collected one. *)
Theorem campaign_returns_processed (SearchResult : Type)
  (search_clinics : nat -> str -> str -> option str -> list SearchResult)
  (search_by_copyright : nat -> str -> list SearchResult)
  (process_search_results : nat -> list SearchResult -> list Scrapper.Prospect)
  (verticals locations website_providers : list str) (clock : nat) :
  let collected :=
    fst (Scrapper.collect_prospects SearchResult search_clinics
           search_by_copyright process_search_results
           verticals locations website_providers clock) in
  let returned :=
    fst (Scrapper.run_prospecting_campaign SearchResult search_clinics
           search_by_copyright process_search_results
           verticals locations website_providers clock) in
  (forall p, In p returned ->
     exists n results, In p (process_search_results n results)) /\
  (forall p, In p collected ->
     exists q, In q returned /\ Scrapper.url q = Scrapper.url p) /\
  length returned <= length collected.
Proof.
  cbv zeta. unfold Scrapper.run_prospecting_campaign.
  destruct (Scrapper.collect_prospects _ _ _ _ _ _ _ _) as [all clock1] eqn:E.
  simpl. repeat split.
  - intros p Hp. apply CampaignFacts.remove_duplicates_subset in Hp.
    apply (CampaignFacts.collect_prospects_from SearchResult search_clinics
             search_by_copyright process_search_results
             verticals locations website_providers clock).
    by rewrite E.
  - apply CampaignFacts.remove_duplicates_urls.
  - apply sublist_length, DedupFacts.remove_duplicates_from_sublist.
Qed.

(** X15: run of Scrap.py returns what process_urls returns on the URLs
    loaded from the CSV file; without URLs, and for a file that cannot be
    read, it returns no results and makes no request; the number of URLs is
    the number of non-empty rows, and there are never more results than
    rows. *)
Theorem run_on_csv (requests_get : nat -> str -> option str)
  (BeautifulSoup : str -> Bs.node) (competitors : list str)
  (rows : option (list (list str))) (clock : nat) :
  let run := ScrapRun.run requests_get BeautifulSoup competitors in
  let urls := Scrap.load_urls_from_csv rows in
  run rows clock =
  Scrap.process_urls requests_get BeautifulSoup competitors urls clock /\
  (urls = [] -> run rows clock = ([], clock)) /\
  run None clock = ([], clock) /\
  (forall table, rows = Some table ->
     length urls =
     length (List.filter (fun row => negb (bool_decide (row = []))) table) /\
     length (fst (run rows clock)) <= length table).
Proof.
  cbv zeta. unfold ScrapRun.run.
  split; [by destruct (Scrap.load_urls_from_csv rows)|].
  split; [by intros ->|]. split; [done|].
  intros table ->. split; [apply RunFacts.load_urls_length|].
  assert (length (Scrap.load_urls_from_csv (Some table)) <= length table) as Hl.
  { rewrite RunFacts.load_urls_length. apply List.filter_length_le. }
  destruct (Scrap.load_urls_from_csv (Some table)) as [|u us] eqn:E;
    [simpl; lia|].
  unfold Scrap.process_urls. rewrite ScrapFacts.scrap_process_urls_from_loop.
  etransitivity; [|exact Hl].
  change (Batch.loop_from ?f ?xs [] ?c) with (Batch.loop f xs c).
  apply (LoopFacts.loop_length _).
  intros x c. unfold Batch.turn. destruct (fst (fst _)); simpl; lia.
Qed.

Lemma run_on_csv_witness :
  ScrapRun.run Samples.network Samples.parser Samples.competitors
    (Some [[]; []]) 7 = ([], 7).
Proof.
  apply (proj1 (proj2 (run_on_csv Samples.network Samples.parser
                         Samples.competitors (Some [[]; []]) 7))).
  reflexivity.
Defined.
